(** * SkinSense backend: a shallow embedding of the serving and training code

    The development follows the three source files of the repository:
    - [api.py]: the JSON inference service (module [Api]);
    - [app.py]: the older template-rendering service (module [LegacyApp]);
    - [SkinCancerModelCreation.py]: the training script (module [Training]).

    Python floats are modelled by the real numbers of the Standard Library,
    Python dictionaries by [gmap] (or by association lists where the
    insertion order is observable), Python sets by [gset], and exceptions
    by an explicit result type. *)

From Stdlib Require Import Reals Lra Ascii String.
From stdpp Require Import gmap strings list pretty.

Local Open Scope nat_scope.

(** ** Python values shared by the three files *)

Module Py.

(** Exceptions the modelled code can raise. *)
Inductive exn :=
| IndexError
| KeyError
| ValueError (msg : string)
| OSError (msg : string).

Inductive result (A : Type) :=
| Ok (a : A)
| Raise (e : exn).
Arguments Ok {A} a.
Arguments Raise {A} e.

Global Instance result_ret : MRet result := fun A a => Ok a.
Global Instance result_bind : MBind result := fun A B k m =>
  match m with
  | Ok a => k a
  | Raise e => Raise e
  end.

Definition code (c : ascii) : nat := nat_of_ascii c.

(** [str.lower] on one code point below 256: the ASCII capitals and the
    Latin-1 capitals (all of 192..222 but the multiplication sign 215)
    move up by 32, everything else stays. *)
Definition lower_char (c : ascii) : ascii :=
  let n := code c in
  if ((65 <=? n) && (n <=? 90)) || ((192 <=? n) && (n <=? 222) && negb (n =? 215))
  then ascii_of_nat (n + 32) else c.

Fixpoint lower (s : string) : string :=
  match s with
  | EmptyString => EmptyString
  | String c r => String (lower_char c) (lower r)
  end.

(** [sep in s] for a one-character [sep]. *)
Fixpoint contains (sep : ascii) (s : string) : bool :=
  match s with
  | EmptyString => false
  | String c r => if decide (c = sep) then true else contains sep r
  end.

(** The right-most split point of [s] at [sep]: the text before the last
    [sep] and the text after it. *)
Fixpoint rpartition (sep : ascii) (s : string) : option (string * string) :=
  match s with
  | EmptyString => None
  | String c r =>
      match rpartition sep r with
      | Some (a, b) => Some (String c a, b)
      | None => if decide (c = sep) then Some (EmptyString, r) else None
      end
  end.

(** [s.rsplit(sep, 1)]: at most one split, taken from the right. *)
Definition rsplit1 (sep : ascii) (s : string) : list string :=
  match rpartition sep s with
  | Some (a, b) => [a; b]
  | None => [s]
  end.

(** [l[i]] on a Python list. *)
Definition index {A} (l : list A) (i : nat) : result A :=
  match l !! i with
  | Some a => Ok a
  | None => Raise IndexError
  end.

End Py.
Import Py.

(** ** Tensors and the numeric helpers of numpy *)

Module Np.

(** A float array, flattened in row-major order. *)
Abbreviation tensor := (list R).

(** A decoded image: integer channel values, flattened. *)
Abbreviation image := (list Z).

(** [img_to_array]: the pixel values as floats, unchanged. *)
Definition img_to_array (img : image) : tensor := IZR <$> img.

(** [np.expand_dims(x, axis=0)] and [np.vstack] on a list of batches. *)
Definition expand_dims (x : tensor) : list tensor := [x].
Definition vstack (xs : list (list tensor)) : list tensor := concat xs.

(** [np.argmax] on a flat array: the first index holding the maximum. *)
Fixpoint argmax_from (best_i : nat) (best : R) (i : nat) (l : list R) : nat :=
  match l with
  | [] => best_i
  | x :: r =>
      if Rlt_dec best x then argmax_from i x (S i) r
      else argmax_from best_i best (S i) r
  end.

Definition argmax (l : list R) : result nat :=
  match l with
  | [] => Raise (ValueError "attempt to get argmax of an empty sequence")
  | x :: r => Ok (argmax_from 0 x 1 r)
  end.

(** [np.max] on a flat array. *)
Definition amax (l : list R) : result R :=
  match l with
  | [] => Raise (ValueError "zero-size array to reduction operation maximum")
  | x :: r => Ok (foldl Rmax x r)
  end.

Definition sum (l : list R) : R := foldr Rplus 0%R l.

Definition dot_product (u v : list R) : R := sum (zip_with Rmult u v).

(** [enumerate]. *)
Definition enumerate {A} (l : list A) : list (nat * A) := zip (seq 0 (length l)) l.

End Np.
Import Np.

(** ** The network artifact

    [SkinCancerModelCreation.py] saves the trained network to
    [SkinCancerClassificationModelhdf5nc.h5]; both services load that file.
    The layers before the classifier are kept abstract ([features]); the
    last layer is the 8-unit dense layer with softmax activation that the
    script adds under the name [classifier]. *)

Module Keras.

Definition softmax (z : list R) : list R :=
  let e := exp <$> z in (fun x => (x / Np.sum e)%R) <$> e.

(** [Dense(units)]: one affine form per unit. *)
Definition dense (units : nat) (kernel : nat → list R) (bias : nat → R)
    (x : list R) : list R :=
  (fun u => (dot_product (kernel u) x + bias u)%R) <$> seq 0 units.

Record ModelArtifact := {
  features : tensor → list R;
  classifier_kernel : nat → list R;
  classifier_bias : nat → R
}.

Definition classifier_units : nat := 8.

Definition forward (m : ModelArtifact) (x : tensor) : list R :=
  softmax (dense classifier_units (classifier_kernel m) (classifier_bias m)
             (features m x)).

(** [model.predict(images)]: one row of class probabilities per image. *)
Definition predict (m : ModelArtifact) (images : list tensor) : list (list R) :=
  forward m <$> images.

(** What [load_model] followed by [model.compile] can do. *)
Inductive load_outcome :=
| LoadFails (msg : string)
| CompileFails (m : ModelArtifact) (msg : string)
| Loaded (m : ModelArtifact).

End Keras.
Import Keras.

(** ** api.py: the JSON inference service *)

Module Api.

Definition dot : ascii := "."%char.

Definition ALLOWED_EXTENSIONS : gset string :=
  {[ "png"; "jpg"; "jpeg"; "gif" ]}.

Definition IMG_WIDTH : nat := 28.
Definition IMG_HEIGHT : nat := 28.

Definition CANCER_CLASSES : gmap nat string :=
  list_to_map
    [ (0, "Actinic keratoses and intraepithelial carcinomae");
      (1, "Basal Cell Carcinoma");
      (2, "Benign Keratosis");
      (3, "Dermatofibroma");
      (4, "Melanocytic nevus");
      (5, "Vascular Lesion");
      (6, "Melanoma");
      (7, "No Cancer Detected") ].

Record class_info := {
  severity : string;
  description : string;
  recommendation : string
}.

Definition CANCER_INFO : gmap nat class_info :=
  list_to_map
    [ (0, {| severity := "moderate";
             description := "Pre-cancerous skin condition that may develop into squamous cell carcinoma.";
             recommendation := "Consult a dermatologist for evaluation and treatment." |});
      (1, {| severity := "high";
             description := "The most common form of skin cancer, grows slowly and rarely spreads.";
             recommendation := "Immediate medical consultation required for proper treatment." |});
      (2, {| severity := "low";
             description := "Non-cancerous growth, usually harmless but should be monitored.";
             recommendation := "Regular monitoring recommended. Consult dermatologist if changes occur." |});
      (3, {| severity := "low";
             description := "Benign fibrous nodule, generally harmless.";
             recommendation := "Usually no treatment needed unless causing discomfort." |});
      (4, {| severity := "low";
             description := "Common mole, typically benign but should be monitored.";
             recommendation := "Monitor for changes using ABCDE method. Annual checkup recommended." |});
      (5, {| severity := "low";
             description := "Abnormality of blood vessels, usually benign.";
             recommendation := "Consult dermatologist if rapidly changing or bleeding." |});
      (6, {| severity := "critical";
             description := "Most dangerous form of skin cancer. Early detection is crucial.";
             recommendation := "URGENT: Immediate consultation with dermatologist required." |});
      (7, {| severity := "none";
             description := "No signs of cancer detected in the analysis.";
             recommendation := "Continue regular self-examinations and annual dermatologist visits." |}) ].

(** [d[k]] on a dict. *)
Definition getitem {V} (d : gmap nat V) (k : nat) : result V :=
  match d !! k with
  | Some v => Ok v
  | None => Raise KeyError
  end.

(** [allowed_file]: Python's [and] stops at a false left operand. *)
Definition allowed_file (filename : string) : result bool :=
  if contains dot filename then
    ext ← index (rsplit1 dot filename) 1;
    Ok (bool_decide (lower ext ∈ ALLOWED_EXTENSIONS))
  else Ok false.

Definition generate_unique_filename (original_filename unique_id timestamp : string)
    : result string :=
  ext ← (if contains dot original_filename
         then e ← index (rsplit1 dot original_filename) 1; Ok (lower e)
         else Ok "jpg");
  Ok (timestamp +:+ "_" +:+ unique_id +:+ "." +:+ ext).

(** What the handlers do to the outside world, in order. *)
Inductive event :=
| EvLoadModel
| EvSave (name : string)
| EvDecode (name : string)
| EvPredict
| EvRemove (name : string)
| EvLog (msg : string).

(** The process: the module-level [model] variable, the upload directory
    and the effects performed so far. *)
Record state := {
  model : option ModelArtifact;
  uploads : gmap string string;
  trace : list event
}.

Definition emit (e : event) (st : state) : state :=
  {| model := model st; uploads := uploads st; trace := trace st ++ [e] |}.

Definition set_model (m : ModelArtifact) (st : state) : state :=
  {| model := Some m; uploads := uploads st; trace := trace st |}.

Definition write_file (name content : string) (st : state) : state :=
  {| model := model st; uploads := <[name := content]> (uploads st);
     trace := trace st ++ [EvSave name] |}.

Definition remove_file (name : string) (st : state) : state :=
  {| model := model st; uploads := delete name (uploads st);
     trace := trace st ++ [EvRemove name] |}.

(** How often a trace reads the artifact from disk. *)
Definition is_load (e : event) : nat :=
  match e with EvLoadModel => 1 | _ => 0 end.
Definition count_loads (t : list event) : nat := sum_list_with is_load t.

(** [load_ml_model]: the assignment to the global happens before
    [model.compile], so a failing [compile] leaves the global set. *)
Definition load_ml_model (disk : load_outcome) (st : state) : bool * state :=
  let st := emit EvLoadModel st in
  match disk with
  | Loaded m => (true, emit (EvLog "Model loaded successfully") (set_model m st))
  | CompileFails m msg =>
      (false, emit (EvLog ("Failed to load model: " +:+ msg)) (set_model m st))
  | LoadFails msg => (false, emit (EvLog ("Failed to load model: " +:+ msg)) st)
  end.

Record prediction := {
  diagnosis_class : nat;
  diagnosis : string;
  confidence : R;
  p_severity : string;
  p_description : string;
  p_recommendation : string;
  probabilities : gmap string R
}.

Record image_info := {
  i_filename : string;
  original_filename : string;
  url : string;
  upload_time : string
}.

Inductive body :=
| JsonError (error : string)
| JsonHealth (status : string) (model_loaded : bool) (timestamp version : string)
| JsonAnalysis (p : prediction) (image : image_info)
| JsonInfo (classifications : list (nat * string * class_info))
| FileContent (bytes : string).

Record response := { status_code : nat; payload : body }.

Record upload := { filename : string; content : string }.

Inductive request :=
| GetHealth (now : string)
| PostAnalyze (files : gmap string upload) (uuid4 now upload_now : string)
| GetImage (name : string)
| GetInfo.

Definition str (e : exn) : string :=
  match e with
  | IndexError => "list index out of range"
  | KeyError => "key error"
  | ValueError msg => msg
  | OSError msg => msg
  end.

Section World.

(** The collaborators outside the repository: werkzeug's
    [secure_filename] and Keras' [load_img] (decode the stored bytes and
    resize to the target size), which raises on undecodable bytes. *)
Variable secure_filename : string → string.
Variable load_img : string → nat * nat → result image.

(** The tensor [analyze_image] hands to [model.predict]. *)
Definition preprocess (img : image) : list tensor :=
  let x := img_to_array img in
  let x := expand_dims x in
  vstack [x].

(** The [for idx, prob in enumerate(predictions[0])] loop. *)
Definition fill_probabilities (row : list R) : result (gmap string R) :=
  foldl (fun acc '(idx, prob) =>
           probs ← acc;
           name ← getitem CANCER_CLASSES idx;
           Ok (<[name := prob]> probs))
        (Ok ∅) (enumerate row).

(** The body of the [try] block of [analyze_image]. *)
Definition analyze_image_try (st : state) (image_path : string)
    : result prediction :=
  bytes ← from_option Ok (Raise (OSError "No such file")) (uploads st !! image_path);
  img ← load_img bytes (IMG_WIDTH, IMG_HEIGHT);
  let images := preprocess img in
  m ← from_option Ok (Raise (ValueError "'NoneType' object has no attribute 'predict'"))
        (model st);
  let predictions := predict m images in
  diagnosis_class ← argmax (concat predictions);
  confidence ← amax (concat predictions);
  row ← index predictions 0;
  probabilities ← fill_probabilities row;
  info ← getitem CANCER_INFO diagnosis_class;
  Ok {| diagnosis_class := diagnosis_class;
        diagnosis := default "Unknown" (CANCER_CLASSES !! diagnosis_class);
        confidence := confidence;
        p_severity := severity info;
        p_description := description info;
        p_recommendation := recommendation info;
        probabilities := probabilities |}.

Inductive analysis :=
| Success (p : prediction)
| Failure (error : string).

Definition analyze_image (st : state) (image_path : string) : analysis * state :=
  let st := emit (EvDecode image_path) st in
  match analyze_image_try st image_path with
  | Ok p => (Success p, emit EvPredict st)
  | Raise e =>
      (Failure ("Image analysis failed: " +:+ str e),
       emit (EvLog ("Analysis error: " +:+ str e)) st)
  end.

Definition health_check (now : string) (st : state) : response * state :=
  ({| status_code := 200;
      payload := JsonHealth "healthy" (bool_decide (is_Some (model st))) now "1.0.0" |},
   st).

Definition bad (code : nat) (msg : string) : response :=
  {| status_code := code; payload := JsonError msg |}.

(** [analyze].  Reading [request.files] and saving the upload are taken
    to succeed; were one of them to raise (a body over
    [MAX_CONTENT_LENGTH], a full disk), the handler's [except] would
    answer 500 'Server error'. *)
Definition analyze (files : gmap string upload) (uuid4 now upload_now : string)
    (st : state) : response * state :=
  match model st with
  | None => (bad 503 "Model not loaded. Please contact administrator.", st)
  | Some _ =>
      match files !! "file" with
      | None => (bad 400 "No file provided. Please upload an image.", st)
      | Some file =>
          if decide (filename file = "") then (bad 400 "No file selected.", st)
          else
            match allowed_file (filename file) with
            | Raise e => (bad 500 ("Server error: " +:+ str e), st)
            | Ok false =>
                (bad 400 "Invalid file type. Allowed types: PNG, JPG, JPEG, GIF", st)
            | Ok true =>
                let original := secure_filename (filename file) in
                match generate_unique_filename original uuid4 now with
                | Raise e => (bad 500 ("Server error: " +:+ str e), st)
                | Ok unique =>
                    let st := write_file unique (content file) st in
                    let st := emit (EvLog ("File saved: " +:+ unique)) st in
                    match analyze_image st unique with
                    | (Success p, st) =>
                        ({| status_code := 200;
                            payload := JsonAnalysis p
                              {| i_filename := unique;
                                 original_filename := original;
                                 url := "/api/images/" +:+ unique;
                                 upload_time := upload_now |} |}, st)
                    | (Failure err, st) =>
                        let st := match uploads st !! unique with
                                  | Some _ => remove_file unique st
                                  | None => st
                                  end in
                        (bad 500 err, st)
                    end
                end
            end
      end
  end.

(** [get_image]: on a missing file [send_from_directory] raises werkzeug's
    [NotFound], which is no [FileNotFoundError], so the [except] clause
    of the handler is passed over and the 404 handler of the application
    answers. *)
Definition get_image (name : string) (st : state) : response * state :=
  match uploads st !! name with
  | Some bytes => ({| status_code := 200; payload := FileContent bytes |}, st)
  | None => (bad 404 "Endpoint not found", st)
  end.

(** [get_info]: one entry per class, in the order the dictionary lists
    its keys. *)
Definition get_info (st : state) : response * state :=
  ({| status_code := 200;
      payload := JsonInfo
        (omap (fun idx =>
                 name ← CANCER_CLASSES !! idx;
                 info ← CANCER_INFO !! idx;
                 Some (idx, name, info)) (seq 0 8)) |},
   st).

Definition handle (req : request) (st : state) : response * state :=
  match req with
  | GetHealth now => health_check now st
  | PostAnalyze files uuid4 now upload_now => analyze files uuid4 now upload_now st
  | GetImage name => get_image name st
  | GetInfo => get_info st
  end.

(** Serving a sequence of requests, one after the other. *)
Fixpoint serve (reqs : list request) (st : state) : list response * state :=
  match reqs with
  | [] => ([], st)
  | req :: rest =>
      let '(r, st) := handle req st in
      let '(rs, st) := serve rest st in
      (r :: rs, st)
  end.

(** Module import followed by the [__main__] block. *)
Definition boot (dir : gmap string string) : state :=
  {| model := None; uploads := dir; trace := [] |}.

Definition main (disk : load_outcome) (dir : gmap string string) : state :=
  snd (load_ml_model disk (boot dir)).

End World.

End Api.

(** ** app.py: the older template-rendering service *)

Module LegacyApp.

Inductive event :=
| EvSave (name : string)
| EvImageOpen (name : string)
| EvLoadModel
| EvDecode (name : string)
| EvPredict.

(** This file keeps no module-level model: the process state is the
    upload directory and the effects performed so far. *)
Record state := {
  uploads : gmap string string;
  trace : list event
}.

Definition emit (e : event) (st : state) : state :=
  {| uploads := uploads st; trace := trace st ++ [e] |}.

Definition write_file (name content : string) (st : state) : state :=
  {| uploads := <[name := content]> (uploads st); trace := trace st ++ [EvSave name] |}.

Definition is_load (e : event) : nat :=
  match e with EvLoadModel => 1 | _ => 0 end.
Definition count_loads (t : list event) : nat := sum_list_with is_load t.

Definition cancer_classes : gmap nat string :=
  list_to_map
    [ (0, "Actinic keratoses and intraepithelial carcinomae");
      (1, "Basal Cell Carcinoma");
      (2, "Benign Keratosis");
      (3, "Dermatofibroma");
      (4, "melanocytic nevus");
      (5, "Vascular Lesion");
      (6, "Melanoma");
      (7, "No Cancer Detected") ].

Record upload := { filename : string; content : string }.

Record response := {
  status_code : nat;
  template : string;
  shown_file : option string;
  diagnosis : option string
}.

Definition render (t : string) : response :=
  {| status_code := 200; template := t; shown_file := None; diagnosis := None |}.

(** What [image4.save(local_filename)] does to the file it is given.  PIL
    picks the format from the extension of the name and raises
    [ValueError] for an extension it cannot write, before it opens the
    file; an error raised while writing leaves the file, which existed
    before, holding what was written so far. *)
Inductive save_outcome :=
| Saved (bytes : string)
| SaveRefused (e : exn)
| SaveBroken (e : exn) (written : string).

Section World.

(** PIL's [Image.open] and [Image.save] (on a file name and an image),
    and Keras' [load_img]. *)
Variable pil_open : string → result image.
Variable pil_save : string → image → save_outcome.
Variable load_img : string → nat * nat → result image.

(** The POST branch of [q2], up to the first exception. *)
Definition q2_post (disk : load_outcome) (files : gmap string upload)
    (st : state) : result (response * state) :=
  uploaded_image ← from_option Ok (Raise KeyError) (files !! "file");
  let name := filename uploaded_image in
  let st := write_file name (content uploaded_image) st in
  let st := emit (EvImageOpen name) st in
  image4 ← pil_open (content uploaded_image);
  resaved ← match pil_save name image4 with
            | Saved bytes => Ok bytes
            | SaveRefused e | SaveBroken e _ => Raise e
            end;
  let st := write_file name resaved st in
  let st := emit EvLoadModel st in
  m ← match disk with
      | Loaded m => Ok m
      | CompileFails _ msg | LoadFails msg => Raise (OSError msg)
      end;
  let st := emit (EvDecode name) st in
  img ← load_img resaved (28, 28);
  let x := img_to_array img in
  let x := expand_dims x in
  let images := vstack [x] in
  let st := emit EvPredict st in
  let predictions := predict m images in
  diagnosis_class ← argmax (concat predictions);
  let predicted_cancer := default "Unknown" (cancer_classes !! diagnosis_class) in
  Ok ({| status_code := 200; template := "forms/q2_new.html";
         shown_file := Some name; diagnosis := Some predicted_cancer |}, st).

Inductive method := GET | POST.

(** [q2]: a POST classifies the upload, a GET renders the empty form. *)
Definition q2 (meth : method) (disk : load_outcome) (files : gmap string upload)
    (st : state) : result (response * state) :=
  match meth with
  | POST => q2_post disk files st
  | GET => Ok (render "forms/q2_new.html", st)
  end.

End World.

End LegacyApp.

(** ** SkinCancerModelCreation.py: the training script *)

Module Training.

(** *** numpy's RandomState

    A generator is the sequence of draws it has still to hand out.  numpy's
    [random_interval max] masks a raw word to the bits of [max] and draws
    again until the value is at most [max]; the sequence here holds the
    draws as they are accepted, so [random_interval max] consumes one.
    The reduction modulo [max + 1] leaves an accepted draw unchanged and
    keeps the function total on every sequence. *)
Abbreviation rng := (nat → nat).

Definition next (r : rng) : rng := fun k => r (S k).

Definition random_interval (max : nat) (r : rng) : nat * rng :=
  (r 0 `mod` S max, next r).

(** [randint(0, high, size)]. *)
Fixpoint randint (high size : nat) (r : rng) : list nat * rng :=
  match size with
  | 0 => ([], r)
  | S n =>
      let '(x, r) := random_interval (high - 1) r in
      let '(xs, r) := randint high n r in
      (x :: xs, r)
  end.

(** [choice(a, size, replace=True)]. *)
Definition choice (a : list nat) (size : nat) (r : rng) : result (list nat * rng) :=
  match a, size with
  | [], S _ => Raise (ValueError "a cannot be empty unless no samples are taken")
  | _, _ =>
      let '(idx, r) := randint (length a) size r in
      picked ← mapM (index a) idx;
      Ok (picked, r)
  end.

Definition swap {A} (i j : nat) (x : list A) : list A :=
  match x !! i, x !! j with
  | Some xi, Some xj => <[j := xi]> (<[i := xj]> x)
  | _, _ => x
  end.

(** [shuffle]: [for i in reversed(range(1, n)): j = random_interval(i);
    x[i], x[j] = x[j], x[i]]. *)
Fixpoint shuffle_from {A} (i : nat) (x : list A) (r : rng) : list A * rng :=
  match i with
  | 0 => (x, r)
  | S i' =>
      let '(j, r) := random_interval i r in
      shuffle_from i' (swap i j x) r
  end.

Definition shuffle {A} (x : list A) (r : rng) : list A * rng :=
  shuffle_from (length x - 1) x r.

(** [permutation(n)]: shuffle [arange(n)]. *)
Definition permutation (n : nat) (r : rng) : list nat * rng :=
  shuffle (seq 0 n) r.

(** *** imblearn's RandomOverSampler with its default strategy *)

Definition count (c : nat) (y : list nat) : nat :=
  length (filter (fun l => l = c) y).

(** [np.unique]: the distinct values, ascending. *)
Definition unique (y : list nat) : list nat :=
  filter (fun c => c ∈ y) (seq 0 (S (max_list y))).

Definition count_class_sample (y : list nat) : list (nat * nat) :=
  (fun c => (c, count c y)) <$> unique y.

(** [max(target_stats, key=target_stats.get)]: the first key holding the
    largest value. *)
Definition class_majority (stats : list (nat * nat)) : option nat :=
  let n_max := max_list (snd <$> stats) in
  fst <$> head (filter (fun kv => kv.2 = n_max) stats).

(** The 'not majority' strategy for over-sampling: how many instances
    every other class is short of the largest one. *)
Definition sampling_strategy (y : list nat) : result (list (nat * nat)) :=
  let stats := count_class_sample y in
  if decide (length stats ≤ 1)
  then Raise (ValueError "The target 'y' needs to have more than 1 class.")
  else
    let n_sample_majority := max_list (snd <$> stats) in
    Ok ((fun kv => (kv.1, n_sample_majority - kv.2))
          <$> filter (fun kv => Some kv.1 ≠ class_majority stats) stats).

(** [np.flatnonzero(y == c)]. *)
Definition flatnonzero_eq (y : list nat) (c : nat) : list nat :=
  filter (fun i => y !! i = Some c) (seq 0 (length y)).

(** The loop of [_fit_resample] over the strategy's items. *)
Fixpoint bootstrap (y : list nat) (strategy : list (nat * nat))
    (sample_indices : list nat) (r : rng) : result (list nat * rng) :=
  match strategy with
  | [] => Ok (sample_indices, r)
  | (class_sample, num_samples) :: rest =>
      let target_class_indices := flatnonzero_eq y class_sample in
      '(bootstrap_indices, r) ← choice target_class_indices num_samples r;
      bootstrap y rest (sample_indices ++ bootstrap_indices) r
  end.

Definition fit_resample {A} (X : list A) (y : list nat) (r : rng)
    : result (list A * list nat * rng) :=
  if decide (length X = length y) then
    strategy ← sampling_strategy y;
    '(sample_indices, r) ← bootstrap y strategy (seq 0 (length y)) r;
    X' ← mapM (index X) sample_indices;
    y' ← mapM (index y) sample_indices;
    Ok (X', y', r)
  else Raise (ValueError "Found input variables with inconsistent numbers of samples").

(** *** Dataset assembly *)

Definition pixels_per_image : nat := 28 * 28 * 3.

(** [np.array(Data).reshape(-1, 28, 28, 3)], images kept flat. *)
Definition reshape_images (rows : list image) : result (list image) :=
  let flat := concat rows in
  if decide (length flat `mod` pixels_per_image = 0)
  then Ok (reshape (replicate (length flat `div` pixels_per_image) pixels_per_image) flat)
  else Raise (ValueError "cannot reshape array").

Section Assembly.

(** [im.open(...).resize((28, 28))] followed by [np.asarray]. *)
Variable open_resize : string → result image.

(** The loop over the non-cancer directory. *)
Fixpoint load_non_cancer (files : list string) (nc_data_list : list image)
    (nc_data_label : list nat) : result (list image * list nat) :=
  match files with
  | [] => Ok (nc_data_list, nc_data_label)
  | f :: rest =>
      test_image ← open_resize f;
      load_non_cancer rest (nc_data_list ++ [test_image]) (nc_data_label ++ [7])
  end.

(** The script from its start to the combined [Data] and [Label]. *)
Definition assemble (nc_files : list string) (csv : list (image * nat)) (r : rng)
    : result (list image * list nat * rng) :=
  '(nc_data_list, nc_data_label) ← load_non_cancer nc_files [] [];
  let Label := snd <$> csv in
  let Data := fst <$> csv in
  '(Data, Label, r) ← fit_resample Data Label r;
  Data ← reshape_images Data;
  let Label := foldl (fun acc label => acc ++ [label]) Label nc_data_label in
  let Data := foldl (fun acc nc => acc ++ [nc]) Data nc_data_list in
  Ok (Data, Label, r).

End Assembly.

(** *** The class map, in the order the dictionary literal lists it *)

Definition classes : list (nat * (string * string)) :=
  [ (4, ("nv", " melanocytic nevi"));
    (6, ("mel", "melanoma"));
    (2, ("bkl", "benign keratosis-like lesions"));
    (1, ("bcc", " basal cell carcinoma"));
    (5, ("vasc", " pyogenic granulomas and hemorrhage"));
    (0, ("akiec", "Actinic keratoses and intraepithelial carcinomae"));
    (3, ("df", "dermatofibroma"));
    (7, ("nc", "non-cancerous")) ].

(** [for key in classes.keys(): classes_labels.append(key)]. *)
Definition classes_labels : list nat :=
  foldl (fun acc key => acc ++ [key]) [] (fst <$> classes).

(** *** sklearn's train_test_split (shuffled, not stratified) *)

Definition test_size_percent : nat := 25.
Definition random_state : nat := 49.

(** [ceil(test_size * n_samples)] for a size given in percent. *)
Definition n_test_of (percent n_samples : nat) : nat :=
  (percent * n_samples + 99) `div` 100.

Section Split.

(** [RandomState(seed)]: the generator a seed initialises. *)
Variable mt19937 : nat → rng.

(** The index sets of [ShuffleSplit]: test first, then train. *)
Definition split_indices (percent seed n_samples : nat) : list nat * list nat :=
  let n_test := n_test_of percent n_samples in
  let n_train := n_samples - n_test in
  let perm := fst (permutation n_samples (mt19937 seed)) in
  let ind_test := take n_test perm in
  let ind_train := take n_train (drop n_test perm) in
  (ind_train, ind_test).

Definition train_test_split {A B} (X : list A) (y : list B) (percent seed : nat)
    : result (list A * list A * list B * list B) :=
  if decide (length X = length y) then
    let n_samples := length X in
    let n_test := n_test_of percent n_samples in
    let n_train := n_samples - n_test in
    if decide (n_samples = 0)
    then Raise (ValueError "At least one array required as input")
    else if decide (n_train = 0)
    then Raise (ValueError "the resulting train set will be empty")
    else
      let '(ind_train, ind_test) := split_indices percent seed n_samples in
      X_train ← mapM (index X) ind_train;
      X_test ← mapM (index X) ind_test;
      y_train ← mapM (index y) ind_train;
      y_test ← mapM (index y) ind_test;
      Ok (X_train, X_test, y_train, y_test)
  else Raise (ValueError "Found input variables with inconsistent numbers of samples").

(** The [SPLIT DATASET] statement of the script. *)
Definition split_dataset (Data : list image) (Label : list nat) :=
  train_test_split Data Label test_size_percent random_state.

End Split.

(** [to_categorical]: one-hot rows of width [max(y) + 1]. *)
Definition one_hot (num_classes k : nat) : list R :=
  (fun j => if decide (j = k) then 1%R else 0%R) <$> seq 0 num_classes.

Definition to_categorical (y : list nat) : result (list (list R)) :=
  match y with
  | [] => Raise (ValueError "zero-size array to reduction operation maximum")
  | _ => Ok (one_hot (S (max_list y)) <$> y)
  end.

(** *** The data generators *)

Record ImageDataGenerator := {
  rescale : option R;
  rotation_range : R;
  zoom_range : R;
  width_shift_range : R;
  height_shift_range : R
}.

Definition datagen : ImageDataGenerator :=
  {| rescale := Some (1 / 255)%R;
     rotation_range := 10;
     zoom_range := 0.1;
     width_shift_range := 0.1;
     height_shift_range := 0.1 |}.

Definition testgen : ImageDataGenerator :=
  {| rescale := Some (1 / 255)%R;
     rotation_range := 0;
     zoom_range := 0;
     width_shift_range := 0;
     height_shift_range := 0 |}.

Definition is_zero (x : R) : bool := if Req_dec_T x 0 then true else false.

(** [standardize]: [if self.rescale: x *= self.rescale]. *)
Definition standardize (g : ImageDataGenerator) (x : tensor) : tensor :=
  match rescale g with
  | Some k => if is_zero k then x else (fun p => (p * k)%R) <$> x
  | None => x
  end.

Record transform := { theta : R; tx : R; ty : R; zx : R; zy : R }.

(** [get_random_transform], from five uniform draws in [-1, 1]. *)
Definition get_random_transform (g : ImageDataGenerator) (u : nat → R) : transform :=
  {| theta := if is_zero (rotation_range g) then 0%R else (u 0%nat * rotation_range g)%R;
     tx := if is_zero (height_shift_range g) then 0%R else (u 1%nat * height_shift_range g)%R;
     ty := if is_zero (width_shift_range g) then 0%R else (u 2%nat * width_shift_range g)%R;
     zx := if is_zero (zoom_range g) then 1%R else (1 + u 3%nat * zoom_range g)%R;
     zy := if is_zero (zoom_range g) then 1%R else (1 + u 4%nat * zoom_range g)%R |}.

Definition is_identity (t : transform) : bool :=
  is_zero (theta t) && is_zero (tx t) && is_zero (ty t)
  && is_zero (zx t - 1) && is_zero (zy t - 1).

Section Generators.

(** The affine resampling of scipy, used only off the identity. *)
Variable warp : transform → tensor → tensor.

Definition apply_affine_transform (t : transform) (x : tensor) : tensor :=
  if is_identity t then x else warp t x.

(** One image through a generator: [random_transform], then
    [standardize]. *)
Definition flow (g : ImageDataGenerator) (u : nat → R) (x : tensor) : tensor :=
  standardize g (apply_affine_transform (get_random_transform g u) x).

End Generators.

(** What [model.fit], [model.evaluate] and [model.predict] receive in the
    script: the split arrays themselves, cast to float. *)
Definition network_input (X : list image) : list tensor := img_to_array <$> X.

(** *** The network topology *)

Record L1L2 := { l1 : R; l2 : R }.

(** [keras.regularizers.L1L2()] with its default arguments. *)
Definition L1L2_default : L1L2 := {| l1 := 0; l2 := 0 |}.

Definition penalty (reg : L1L2) (weights : list R) : R :=
  (l1 reg * Np.sum (Rabs <$> weights) + l2 reg * Np.sum ((fun w => w * w) <$> weights))%R.

Inductive layer :=
| Input (shape : list nat)
| Conv2D (filters : nat) (kernel_size : nat * nat) (activation padding init : string)
| MaxPooling2D
| BatchNormalization
| Flatten
| Dropout (rate : R)
| Dense (units : nat) (activation init : string)
    (kernel_regularizer : option L1L2) (name : option string).

Definition add (l : layer) (m : list layer) : list layer := m ++ [l].

Definition conv (filters : nat) : layer :=
  Conv2D filters (3, 3) "relu" "same" "he_normal".

Definition model : list layer :=
  foldl (fun m l => add l m) []
    [ Input [28; 28; 3];
      conv 32; MaxPooling2D; BatchNormalization;
      conv 64; conv 64; MaxPooling2D; BatchNormalization;
      conv 128; conv 128; MaxPooling2D; BatchNormalization;
      conv 256; conv 256; MaxPooling2D;
      Flatten;
      Dropout 0.2;
      Dense 256 "relu" "he_normal" None None;
      BatchNormalization;
      Dense 128 "relu" "he_normal" None None;
      BatchNormalization;
      Dense 64 "relu" "he_normal" None None;
      BatchNormalization;
      Dense 32 "relu" "he_normal" (Some L1L2_default) None;
      BatchNormalization;
      Dense 8 "softmax" "glorot_uniform" None (Some "classifier") ].

Definition is_batch_norm (l : layer) : bool :=
  match l with BatchNormalization => true | _ => false end.

Record dense_summary := {
  width : nat;
  followed_by_batch_norm : bool;
  regularizer : option L1L2;
  act : string
}.

(** The dense layers of a topology, each with what comes right after. *)
Fixpoint dense_layers (m : list layer) : list dense_summary :=
  match m with
  | [] => []
  | Dense units activation _ reg _ :: rest =>
      {| width := units;
         followed_by_batch_norm := from_option is_batch_norm false (head rest);
         regularizer := reg;
         act := activation |} :: dense_layers rest
  | _ :: rest => dense_layers rest
  end.

(** The hidden dense layers: all but the softmax output layer. *)
Definition hidden_dense (m : list layer) : list dense_summary :=
  filter (fun d => act d ≠ "softmax") (dense_layers m).

(** *** sklearn's confusion_matrix with explicit [labels] *)

(** [{y: x for x, y in enumerate(labels)}]: a later duplicate wins. *)
Definition label_to_ind (labels : list nat) : gmap nat nat :=
  foldl (fun d '(x, y) => <[y := x]> d) ∅ (enumerate labels).

Definition count_pairs (i j : nat) (pairs : list (nat * nat)) : nat :=
  length (filter (fun p => p = (i, j)) pairs).

Definition confusion_matrix (y_true y_pred labels : list nat)
    : result (list (list nat)) :=
  if decide (length y_true = length y_pred) then
    let n_labels := length labels in
    if decide (n_labels = 0)
    then Raise (ValueError "'labels' should contains at least one label.")
    else if decide (y_true = [])
    then Ok (replicate n_labels (replicate n_labels 0))
    else if decide (Forall (fun t => t ∉ labels) y_true)
    then Raise (ValueError "At least one label specified must be in y_true")
    else
      let d := label_to_ind labels in
      let to_ind := fun x => default (n_labels + 1) (d !! x) in
      let pairs := zip (to_ind <$> y_true) (to_ind <$> y_pred) in
      let kept := filter (fun p => p.1 < n_labels ∧ p.2 < n_labels) pairs in
      Ok ((fun i => (fun j => count_pairs i j kept) <$> seq 0 n_labels)
            <$> seq 0 n_labels)
  else Raise (ValueError "Found input variables with inconsistent numbers of samples").

(** The evaluation block: predictions and one-hot labels are reduced by
    [argmax] along axis 1, then compared under [classes_labels]. *)
Definition evaluate_cm (m : ModelArtifact) (X_test : list image) (y_test : list nat)
    : result (list (list nat)) :=
  y_cat ← to_categorical y_test;
  let y_pred := predict m (network_input X_test) in
  y_pred ← mapM argmax y_pred;
  y_true ← mapM argmax y_cat;
  confusion_matrix y_true y_pred classes_labels.

End Training.

(** ** The learning-rate callback of the fit loop *)

Module Callback.

(** Keras' [ReduceLROnPlateau]. *)
Record ReduceLROnPlateau := {
  factor : R;
  patience : nat;
  min_lr : R;
  min_delta : R;
  cooldown : nat
}.

(** The callback's fields and the optimizer's learning rate; [best] is
    minus infinity until the first epoch. *)
Record state := {
  best : option R;
  wait : nat;
  cooldown_counter : nat;
  lr : R
}.

Definition on_train_begin (initial_lr : R) : state :=
  {| best := None; wait := 0; cooldown_counter := 0; lr := initial_lr |}.

Definition in_cooldown (st : state) : bool := bool_decide (0 < cooldown_counter st).

Section Floats.

(** A floating-point number is the real it denotes.  [double] rounds a
    real to the Python float nearest to it: the value of a float literal
    and of the result of an operation on Python floats.  [single] rounds
    to the nearest float32, the type of the variable that holds the
    optimizer's learning rate. *)
Variable double : R → R.
Variable single : R → R.

(** The script's instance: [monitor='val_accuracy'], [patience=2],
    [factor=0.5], [min_lr=0.00001]; [min_delta] and [cooldown] keep the
    defaults of the class.  The numbers are Python float literals. *)
Definition learning_rate_reduction : ReduceLROnPlateau :=
  {| factor := double 0.5%R;
     patience := 2;
     min_lr := double 0.00001%R;
     min_delta := double 0.0001%R;
     cooldown := 0 |}.

(** [monitor_op] for a monitored accuracy: [np.greater(a, b + min_delta)],
    the sum being a sum of Python floats. *)
Definition monitor_op (cb : ReduceLROnPlateau) (current : R) (b : option R) : bool :=
  match b with
  | None => true
  | Some b => if Rlt_dec (double (b + min_delta cb)%R) current then true else false
  end.

(** [on_epoch_end]: the rate is read as a Python float, compared with
    [np.float32(min_lr)], multiplied by [factor] as a Python float, and
    stored back into the float32 variable. *)
Definition on_epoch_end (cb : ReduceLROnPlateau) (current : R) (st : state) : state :=
  let st :=
    if in_cooldown st
    then {| best := best st; wait := 0;
            cooldown_counter := cooldown_counter st - 1; lr := lr st |}
    else st in
  if monitor_op cb current (best st)
  then {| best := Some current; wait := 0;
          cooldown_counter := cooldown_counter st; lr := lr st |}
  else if in_cooldown st then st
  else
    let st := {| best := best st; wait := wait st + 1;
                 cooldown_counter := cooldown_counter st; lr := lr st |} in
    if decide (patience cb ≤ wait st) then
      let old_lr := lr st in
      if Rlt_dec (single (min_lr cb)) old_lr then
        let new_lr := double (old_lr * factor cb)%R in
        let new_lr := Rmax new_lr (min_lr cb) in
        {| best := best st; wait := 0;
           cooldown_counter := cooldown cb; lr := single new_lr |}
      else st
    else st.

(** [Adamax(learning_rate=0.001)]: the literal, stored in the float32
    variable. *)
Definition base_learning_rate : R := single (double 0.001%R).

(** The callback over the validation accuracies of the epochs run so far. *)
Definition run (cb : ReduceLROnPlateau) (val_accuracy : list R) : state :=
  foldl (fun st current => on_epoch_end cb current st)
        (on_train_begin base_learning_rate) val_accuracy.

End Floats.

End Callback.

(** ** The figures computed by plot_training *)

Module Report.

(** [np.argmin] on a flat array: the first index holding the minimum. *)
Fixpoint argmin_from (best_i : nat) (best : R) (i : nat) (l : list R) : nat :=
  match l with
  | [] => best_i
  | x :: r =>
      if Rlt_dec x best then argmin_from i x (S i) r
      else argmin_from best_i best (S i) r
  end.

Definition argmin (l : list R) : result nat :=
  match l with
  | [] => Raise (ValueError "attempt to get argmin of an empty sequence")
  | x :: r => Ok (argmin_from 0 x 1 r)
  end.

(** [hist.history]. *)
Record History := {
  accuracy : list R;
  loss : list R;
  val_accuracy : list R;
  val_loss : list R
}.

Record figures := {
  index_loss : nat;
  val_lowest : R;
  index_acc : nat;
  acc_highest : R;
  Epochs : list nat;
  loss_label : string;
  acc_label : string
}.

(** [plt.plot(x, y)] refuses arrays of different lengths. *)
Definition plot (x : list nat) (y : list R) : result unit :=
  if decide (length x = length y) then Ok ()
  else Raise (ValueError "x and y must have same first dimension").

Definition plot_training (hist : History) : result figures :=
  let tr_acc := accuracy hist in
  let tr_loss := loss hist in
  let val_acc := val_accuracy hist in
  let val_loss := val_loss hist in
  index_loss ← argmin val_loss;
  val_lowest ← index val_loss index_loss;
  index_acc ← argmax val_acc;
  acc_highest ← index val_acc index_acc;
  let Epochs := (fun i => i + 1) <$> seq 0 (length tr_acc) in
  let loss_label := "best epoch= " +:+ pretty (index_loss + 1) in
  let acc_label := "best epoch= " +:+ pretty (index_acc + 1) in
  _ ← plot Epochs tr_loss;
  _ ← plot Epochs val_loss;
  _ ← plot Epochs tr_acc;
  _ ← plot Epochs val_acc;
  Ok {| index_loss := index_loss; val_lowest := val_lowest;
        index_acc := index_acc; acc_highest := acc_highest;
        Epochs := Epochs; loss_label := loss_label; acc_label := acc_label |}.

End Report.

(** ** Shape inference over the network topology *)

Module Summary.

(** One spatial extent through a stride-1 convolution. *)
Definition conv_extent (padding : string) (kernel n : nat) : result nat :=
  if decide (padding = "same") then Ok n
  else if decide (padding = "valid") then
    if decide (kernel ≤ n) then Ok (n - kernel + 1)
    else Raise (ValueError "negative dimension size")
  else Raise (ValueError "unknown padding").

(** One spatial extent through [MaxPooling2D()]: windows of 2, stride 2. *)
Definition pool_extent (n : nat) : result nat :=
  if decide (2 ≤ n) then Ok (n `div` 2)
  else Raise (ValueError "negative dimension size").

(** The output shape of a layer on an input of shape [s] (batch axis
    left out). *)
Definition output_shape (l : Training.layer) (s : list nat) : result (list nat) :=
  match l with
  | Training.Input shape => Ok shape
  | Training.Conv2D filters (kh, kw) _ padding _ =>
      match s with
      | [h; w; _] =>
          h' ← conv_extent padding kh h;
          w' ← conv_extent padding kw w;
          Ok [h'; w'; filters]
      | _ => Raise (ValueError "Conv2D expects a rank-3 input")
      end
  | Training.MaxPooling2D =>
      match s with
      | [h; w; c] =>
          h' ← pool_extent h;
          w' ← pool_extent w;
          Ok [h'; w'; c]
      | _ => Raise (ValueError "MaxPooling2D expects a rank-3 input")
      end
  | Training.BatchNormalization => Ok s
  | Training.Flatten => Ok [foldr Nat.mul 1 s]
  | Training.Dropout _ => Ok s
  | Training.Dense units _ _ _ _ =>
      match reverse s with
      | _ :: rest => Ok (reverse (units :: rest))
      | [] => Raise (ValueError "Dense expects an input of rank 1 or more")
      end
  end.

(** The shape after every layer of a [Sequential] model, in order. *)
Fixpoint shapes (m : list Training.layer) (s : list nat) : result (list (list nat)) :=
  match m with
  | [] => Ok []
  | l :: rest =>
      s' ← output_shape l s;
      tail ← shapes rest s';
      Ok (s' :: tail)
  end.

End Summary.

(** ** The older service, with the effects of a failing request kept *)

Module LegacyEffects.

Section World.

Variable pil_open : string → result image.
Variable pil_save : string → image → LegacyApp.save_outcome.
Variable load_img : string → nat * nat → result image.

(** What follows a successful [image4.save]. *)
Definition q2_after_save (disk : load_outcome) (name resaved : string)
    (st : LegacyApp.state) : result LegacyApp.response * LegacyApp.state :=
  let st := LegacyApp.write_file name resaved st in
  let st := LegacyApp.emit LegacyApp.EvLoadModel st in
  match disk with
  | LoadFails msg | CompileFails _ msg => (Raise (OSError msg), st)
  | Loaded m =>
      let st := LegacyApp.emit (LegacyApp.EvDecode name) st in
      match load_img resaved (28, 28) with
      | Raise e => (Raise e, st)
      | Ok img =>
          let x := img_to_array img in
          let x := expand_dims x in
          let images := vstack [x] in
          let st := LegacyApp.emit LegacyApp.EvPredict st in
          let predictions := predict m images in
          match argmax (concat predictions) with
          | Raise e => (Raise e, st)
          | Ok diagnosis_class =>
              let predicted_cancer :=
                default "Unknown" (LegacyApp.cancer_classes !! diagnosis_class) in
              (Ok {| LegacyApp.status_code := 200;
                     LegacyApp.template := "forms/q2_new.html";
                     LegacyApp.shown_file := Some name;
                     LegacyApp.diagnosis := Some predicted_cancer |}, st)
          end
      end
  end.

(** The POST branch of [q2], statement by statement: the answer, or the
    exception that ended the request, together with the state the request
    leaves behind. *)
Definition q2_post_run (disk : load_outcome) (files : gmap string LegacyApp.upload)
    (st : LegacyApp.state) : result LegacyApp.response * LegacyApp.state :=
  match files !! "file" with
  | None => (Raise KeyError, st)
  | Some uploaded_image =>
      let name := LegacyApp.filename uploaded_image in
      let st := LegacyApp.write_file name (LegacyApp.content uploaded_image) st in
      let st := LegacyApp.emit (LegacyApp.EvImageOpen name) st in
      match pil_open (LegacyApp.content uploaded_image) with
      | Raise e => (Raise e, st)
      | Ok image4 =>
          match pil_save name image4 with
          | LegacyApp.SaveRefused e => (Raise e, st)
          | LegacyApp.SaveBroken e written =>
              (Raise e, LegacyApp.write_file name written st)
          | LegacyApp.Saved resaved => q2_after_save disk name resaved st
          end
      end
  end.

End World.

End LegacyEffects.

(** ** Observations on responses *)

Module Observe.

(** Whether a response of the JSON service carries an analysis. *)
Definition is_analysis (r : Api.response) : bool :=
  match Api.payload r with
  | Api.JsonAnalysis _ _ => true
  | _ => false
  end.

(** How many responses of a run carry an analysis. *)
Definition analyses (rs : list Api.response) : nat :=
  length (filter (fun r => is_analysis r = true) rs).

(** Whether a request is an upload for analysis. *)
Definition is_upload (req : Api.request) : bool :=
  match req with
  | Api.PostAnalyze _ _ _ _ => true
  | _ => false
  end.

(** Whether a POST to [q2] gets as far as [load_model]: the request
    carries a file that PIL opens and writes back under the name the
    client sent. *)
Definition reaches_load_model (pil_open : string → result image)
    (pil_save : string → image → LegacyApp.save_outcome)
    (files : gmap string LegacyApp.upload) : bool :=
  match files !! "file" with
  | Some file =>
      match pil_open (LegacyApp.content file) with
      | Ok image4 =>
          match pil_save (LegacyApp.filename file) image4 with
          | LegacyApp.Saved _ => true
          | LegacyApp.SaveRefused _ | LegacyApp.SaveBroken _ _ => false
          end
      | Raise _ => false
      end
  | None => false
  end.

End Observe.
Import Observe.

(** ** Invariants of the fit loop *)

Module Invariant.

(** What holds of the callback's state between epochs: the rate is a
    float32 within its bounds, no cooldown is pending, and the count of
    stale epochs is below the patience unless the rate has reached its
    floor. *)
Definition lr_invariant (double single : R → R) (st : Callback.state) : Prop :=
  single (Callback.lr st) = Callback.lr st
  ∧ (single (double 0.00001) <= Callback.lr st <= single (double 0.001))%R
  ∧ Callback.cooldown_counter st = 0
  ∧ (Callback.wait st ≤ 1 ∨ Callback.lr st = single (double 0.00001%R)).

End Invariant.
Import Invariant.

(** ** The statements of the specification, in its own words *)

Module Spec.

(** The extension check as the specification words it: the name has a
    dot, and what follows its last dot, lowercased, is on the list. *)
Definition spec_accepts (filename : string) : Prop :=
  ∃ base ext : string,
    filename = base +:+ String Api.dot ext
    ∧ contains Api.dot ext = false
    ∧ lower ext ∈ ["png"; "jpg"; "jpeg"; "gif"].

(** A confusion matrix in the canonical class-id order 0..7: entry
    [(i, j)] counts the instances of true class [i] predicted as [j]. *)
Definition canonical_confusion (y_true y_pred : list nat) : list (list nat) :=
  (fun i => (fun j => Training.count_pairs i j (zip y_true y_pred)) <$> seq 0 8)
    <$> seq 0 8.

(** Where [label_to_ind] sends each class id under [classes_labels]. *)
Definition position (x : nat) : nat :=
  default (length Training.classes_labels + 1)
          (Training.label_to_ind Training.classes_labels !! x).

(** How many of the indices in [idxs] carry label [c]. *)
Definition labelled (y : list nat) (c : nat) (idxs : list nat) : nat :=
  length (filter (fun i => y !! i = Some c) idxs).

(** How many extra instances a strategy asks for class [c]. *)
Definition requested (c : nat) (strategy : list (nat * nat)) : nat :=
  sum_list_with (fun kv => if decide (kv.1 = c) then kv.2 else 0) strategy.

(** The largest class count of [y]. *)
Definition n_sample_majority (y : list nat) : nat :=
  max_list (snd <$> Training.count_class_sample y).

(** The largest count among the seven tabular classes. *)
Definition max_class_count (y : list nat) : nat :=
  max_list ((fun c => Training.count c y) <$> seq 0 7).

End Spec.
Import Spec.

(** ** Concrete inputs used in the examples *)

Module Examples.

(** An artifact whose classifier has all weights zero. *)
Definition flat_model : ModelArtifact :=
  {| features := fun x => x;
     classifier_kernel := fun _ => [];
     classifier_bias := fun _ => 0%R |}.

Definition identity_name (s : string) : string := s.

(** A decoder that accepts every file as a one-pixel black image. *)
Definition black_pixel (bytes : string) (size : nat * nat) : result image :=
  Ok [0%Z; 0%Z; 0%Z].


Definition legacy_notes_txt : LegacyApp.upload :=
  {| LegacyApp.filename := "notes.txt"; LegacyApp.content := "plain text" |}.

(** A small tabular source: two rows of class 0 and one of every other
    class, each row a black 28x28 RGB image. *)
Definition tiny_csv : list (image * nat) :=
  (fun c => (replicate Training.pixels_per_image 0%Z, c)) <$> [0; 0; 1; 2; 3; 4; 5; 6].

(** A directory decoder that turns every file into one black pixel row. *)
Definition open_black (bytes : string) : result image :=
  Ok (replicate Training.pixels_per_image 0%Z).

Definition scan_png : Api.upload :=
  {| Api.filename := "scan.png"; Api.content := "bytes" |}.

Definition legacy_scan_png : LegacyApp.upload :=
  {| LegacyApp.filename := "scan.png"; LegacyApp.content := "bytes" |}.

(** A decoder that recognises no file. *)
Definition unreadable (bytes : string) (size : nat * nat) : result image :=
  Raise (OSError "cannot identify image file").

(** PIL opening every file as a one-pixel black image, and writing an
    image back only under a name that ends in [.png], whatever its
    case. *)
Definition pil_open_black (bytes : string) : result image :=
  Ok [0%Z; 0%Z; 0%Z].

Definition pil_save_png (name : string) (img : image) : LegacyApp.save_outcome :=
  match rpartition Api.dot name with
  | Some (_, ext) =>
      if decide (lower ext = "png") then LegacyApp.Saved "png bytes"
      else LegacyApp.SaveRefused (ValueError "unknown file extension")
  | None => LegacyApp.SaveRefused (ValueError "unknown file extension")
  end.

(** Exact arithmetic: a format in which every real is a number. *)
Definition exact (x : R) : R := x.

(** A service whose start-up loaded [flat_model] into an empty upload
    directory. *)
Definition ready : Api.state := Api.main (Loaded flat_model) ∅.

End Examples.

(** * Properties *)

(** ** Python strings *)

Section StringFacts.

Lemma lower_char_dot (c : ascii) : lower_char c = Api.dot ↔ c = Api.dot.
Proof.
  split; [|intros ->; reflexivity].
  destruct c as [[] [] [] [] [] [] [] []]; vm_compute; congruence.
Qed.

Lemma contains_lower (s : string) : contains Api.dot (lower s) = contains Api.dot s.
Proof.
  induction s as [|c s IH]; simpl; [reflexivity|].
  rewrite IH. destruct (decide (c = Api.dot)) as [->|Hc].
  - reflexivity.
  - destruct (decide (lower_char c = Api.dot)) as [Hl|Hl]; [|reflexivity].
    apply (proj1 (lower_char_dot c)) in Hl. contradiction.
Qed.

Lemma rpartition_none (sep : ascii) (s : string) :
  rpartition sep s = None ↔ contains sep s = false.
Proof.
  induction s as [|c s IH]; simpl; [tauto|].
  destruct (rpartition sep s) as [[a b]|] eqn:Hr.
  - destruct (decide (c = sep)); [split; discriminate|].
    split; [discriminate|]. intros H. apply IH in H. discriminate.
  - destruct (decide (c = sep)); [split; discriminate|].
    split; intros _; [apply IH|]; reflexivity.
Qed.

Lemma append_cons (c : ascii) (a b : string) :
  String c a +:+ b = String c (a +:+ b).
Proof. reflexivity. Qed.

Lemma append_nil (b : string) : "" +:+ b = b.
Proof. reflexivity. Qed.

Lemma rpartition_sound (sep : ascii) (s a b : string) :
  rpartition sep s = Some (a, b) →
  s = a +:+ String sep b ∧ contains sep b = false.
Proof.
  revert a b. induction s as [|c s IH]; intros a b; simpl; [discriminate|].
  destruct (rpartition sep s) as [[a' b']|] eqn:Hr.
  - intros [= <- <-]. destruct (IH a' b' eq_refl) as [-> Hb].
    by rewrite append_cons.
  - destruct (decide (c = sep)) as [->|Hc]; [|discriminate].
    intros [= <- <-]. apply rpartition_none in Hr. by rewrite append_nil.
Qed.

Lemma rpartition_complete (sep : ascii) (a b : string) :
  contains sep b = false →
  rpartition sep (a +:+ String sep b) = Some (a, b).
Proof.
  intros Hb. induction a as [|c a IH].
  - rewrite append_nil. simpl.
    rewrite (proj2 (rpartition_none sep b) Hb).
    by destruct (decide (sep = sep)).
  - rewrite append_cons. simpl. by rewrite IH.
Qed.

(** [rpartition] cuts at the last separator: what follows it has none. *)
Lemma rpartition_some (sep : ascii) (s a b : string) :
  rpartition sep s = Some (a, b) ↔
  s = a +:+ String sep b ∧ contains sep b = false.
Proof.
  split; [apply rpartition_sound|].
  intros [-> Hb]. by apply rpartition_complete.
Qed.

Lemma rpartition_lower (s : string) :
  rpartition Api.dot (lower s)
  = (fun ab => (lower ab.1, lower ab.2)) <$> rpartition Api.dot s.
Proof.
  induction s as [|c s IH]; simpl; [reflexivity|].
  rewrite IH. destruct (rpartition Api.dot s) as [[a b]|]; simpl; [reflexivity|].
  destruct (decide (c = Api.dot)) as [->|Hc]; [reflexivity|].
  destruct (decide (lower_char c = Api.dot)) as [Hl|Hl]; [|reflexivity].
  apply (proj1 (lower_char_dot c)) in Hl. contradiction.
Qed.

Lemma lower_idempotent (s : string) : lower (lower s) = lower s.
Proof.
  induction s as [|c s IH]; simpl; [reflexivity|]. rewrite IH. f_equal.
  destruct c as [[] [] [] [] [] [] [] []]; vm_compute; reflexivity.
Qed.

End StringFacts.

(** ** The upload extension check *)

Section AllowedFile.

Lemma allowed_extensions_list (e : string) :
  e ∈ Api.ALLOWED_EXTENSIONS ↔ e ∈ ["png"; "jpg"; "jpeg"; "gif"].
Proof.
  unfold Api.ALLOWED_EXTENSIONS. rewrite !elem_of_union, !elem_of_singleton.
  rewrite !elem_of_cons, elem_of_nil. tauto.
Qed.

Lemma allowed_file_total (filename : string) :
  ∃ b : bool, Api.allowed_file filename = Ok b.
Proof.
  unfold Api.allowed_file, rsplit1.
  destruct (contains Api.dot filename) eqn:Hc; [|eauto].
  destruct (rpartition Api.dot filename) as [[a b]|] eqn:Hr; simpl; [eauto|].
  apply rpartition_none in Hr. congruence.
Qed.

Lemma allowed_file_true (filename : string) :
  Api.allowed_file filename = Ok true ↔ spec_accepts filename.
Proof.
  unfold Api.allowed_file, rsplit1, spec_accepts. split.
  - destruct (contains Api.dot filename) eqn:Hc; [|discriminate].
    destruct (rpartition Api.dot filename) as [[a b]|] eqn:Hr; simpl.
    + intros [= Hd]. apply bool_decide_eq_true in Hd.
      apply rpartition_some in Hr as [-> Hb].
      exists a, b. by rewrite <- allowed_extensions_list.
    + apply rpartition_none in Hr. congruence.
  - intros (base & ext & -> & Hext & Hin).
    assert (rpartition Api.dot (base +:+ String Api.dot ext) = Some (base, ext)) as Hr
      by (apply rpartition_some; done).
    destruct (contains Api.dot (base +:+ String Api.dot ext)) eqn:Hc.
    + rewrite Hr. simpl. f_equal. apply bool_decide_eq_true.
      by apply allowed_extensions_list.
    + apply rpartition_none in Hc. congruence.
Qed.

Lemma allowed_file_lower (filename : string) :
  Api.allowed_file (lower filename) = Api.allowed_file filename.
Proof.
  unfold Api.allowed_file, rsplit1.
  rewrite contains_lower, rpartition_lower.
  destruct (contains Api.dot filename); [|reflexivity].
  destruct (rpartition Api.dot filename) as [[a b]|]; simpl.
  - by rewrite lower_idempotent.
  - reflexivity.
Qed.

(** C10.  The extension check is case-insensitive.  A file name is
    accepted exactly when it contains a dot and the text after its last
    dot, lowercased, is one of png, jpg, jpeg, gif; the check never
    raises; names that differ only in letter case get the same answer;
    'x.PNG' is accepted and a name without a dot is rejected. *)
Theorem allowed_file_case_insensitive (filename : string) :
  (Api.allowed_file filename = Ok true ↔ spec_accepts filename)
  ∧ (Api.allowed_file filename = Ok false ↔ ¬ spec_accepts filename)
  ∧ (∀ other : string, lower other = lower filename →
       Api.allowed_file other = Api.allowed_file filename)
  ∧ Api.allowed_file "x.PNG" = Ok true
  ∧ (contains Api.dot filename = false → Api.allowed_file filename = Ok false).
Proof.
  split; [apply allowed_file_true|]. split.
  { rewrite <- allowed_file_true.
    destruct (allowed_file_total filename) as [[] ->]; split; congruence. }
  split.
  { intros other Hl.
    rewrite <- (allowed_file_lower other), <- (allowed_file_lower filename).
    by rewrite Hl. }
  split; [reflexivity|].
  intros Hc. unfold Api.allowed_file. by rewrite Hc.
Qed.

Lemma allowed_file_case_insensitive_witness :
  Api.allowed_file "scan.JpEg" = Api.allowed_file "SCAN.jpeg"
  ∧ Api.allowed_file "README" = Ok false.
Proof.
  split.
  - destruct (allowed_file_case_insensitive "SCAN.jpeg") as (_ & _ & Hcase & _).
    apply Hcase. reflexivity.
  - destruct (allowed_file_case_insensitive "README") as (_ & _ & _ & _ & Hdot).
    apply Hdot. reflexivity.
Defined.

End AllowedFile.

(** ** How often the older service reads the artifact *)

Section LegacyLoads.

Variable pil_open : string → result image.
Variable pil_save : string → image → LegacyApp.save_outcome.
Variable load_img : string → nat * nat → result image.

(** A POST to [q2] reads the artifact from disk once when it gets as far
    as [load_model], whether or not the rest of the request succeeds, and
    not at all when it stops before. *)
Lemma q2_post_run_loads (disk : load_outcome) (files : gmap string LegacyApp.upload)
    (st : LegacyApp.state) :
  LegacyApp.count_loads
    (LegacyApp.trace (LegacyEffects.q2_post_run pil_open pil_save load_img
                        disk files st).2)
  = LegacyApp.count_loads (LegacyApp.trace st)
    + (if reaches_load_model pil_open pil_save files then 1 else 0).
Proof.
  unfold LegacyEffects.q2_post_run, reaches_load_model.
  destruct (files !! "file") as [file|]; [|simpl; lia].
  destruct (pil_open (LegacyApp.content file)) as [image4|e].
  - destruct (pil_save (LegacyApp.filename file) image4) as [resaved|e|e written].
    + unfold LegacyEffects.q2_after_save.
      destruct disk as [msg|m msg|m];
        [| |destruct (load_img resaved (28, 28)) as [img|];
            [match goal with |- context [argmax ?l] => destruct (argmax l) as [k|] end|]];
        cbn [snd LegacyApp.emit LegacyApp.write_file LegacyApp.trace];
        unfold LegacyApp.count_loads; rewrite !sum_list_with_app; simpl; lia.
    + cbn [snd LegacyApp.emit LegacyApp.write_file LegacyApp.trace].
      unfold LegacyApp.count_loads. rewrite !sum_list_with_app. simpl. lia.
    + cbn [snd LegacyApp.emit LegacyApp.write_file LegacyApp.trace].
      unfold LegacyApp.count_loads. rewrite !sum_list_with_app. simpl. lia.
  - cbn [snd LegacyApp.emit LegacyApp.write_file LegacyApp.trace].
    unfold LegacyApp.count_loads. rewrite !sum_list_with_app. simpl. lia.
Qed.

End LegacyLoads.

(** ** The JSON service as a state machine *)

Section ApiService.

Variable secure_filename : string → string.
Variable load_img : string → nat * nat → result image.

Local Abbreviation handle := (Api.handle secure_filename load_img).
Local Abbreviation serve := (Api.serve secure_filename load_img).
Local Abbreviation analyze := (Api.analyze secure_filename load_img).
Local Abbreviation analyze_image := (Api.analyze_image load_img).

Lemma analyze_image_model st path :
  Api.model (analyze_image st path).2 = Api.model st.
Proof.
  unfold Api.analyze_image.
  by destruct (Api.analyze_image_try load_img _ path).
Qed.

Lemma analyze_image_loads st path :
  Api.count_loads (Api.trace (analyze_image st path).2)
  = Api.count_loads (Api.trace st).
Proof.
  unfold Api.analyze_image, Api.count_loads.
  destruct (Api.analyze_image_try load_img _ path); simpl;
    rewrite !sum_list_with_app; simpl; lia.
Qed.

Lemma analyze_model files uuid4 now upload_now st :
  Api.model (analyze files uuid4 now upload_now st).2 = Api.model st.
Proof.
  unfold Api.analyze.
  destruct (Api.model st) eqn:Hm; [|done].
  destruct (files !! "file") as [file|]; [|done].
  destruct (decide (Api.filename file = "")); [done|].
  destruct (Api.allowed_file (Api.filename file)) as [[]|]; try done.
  destruct (Api.generate_unique_filename _ uuid4 now) as [unique|]; [|done].
  match goal with |- context [analyze_image ?s ?u] =>
    pose proof (analyze_image_model s u) as Hai;
    destruct (analyze_image s u) as [[p|err] st'] end; simpl in *.
  - congruence.
  - destruct (Api.uploads st' !! unique); simpl; congruence.
Qed.

Lemma analyze_loads files uuid4 now upload_now st :
  Api.count_loads (Api.trace (analyze files uuid4 now upload_now st).2)
  = Api.count_loads (Api.trace st).
Proof.
  unfold Api.analyze.
  destruct (Api.model st) eqn:Hm; [|done].
  destruct (files !! "file") as [file|]; [|done].
  destruct (decide (Api.filename file = "")); [done|].
  destruct (Api.allowed_file (Api.filename file)) as [[]|]; try done.
  destruct (Api.generate_unique_filename _ uuid4 now) as [unique|]; [|done].
  match goal with |- context [analyze_image ?s ?u] =>
    pose proof (analyze_image_loads s u) as Hai;
    destruct (analyze_image s u) as [[p|err] st'] end; simpl in *.
  - rewrite Hai. unfold Api.count_loads. rewrite !sum_list_with_app. simpl. lia.
  - assert (Api.count_loads (Api.trace st') = Api.count_loads (Api.trace st)) as Hst.
    { rewrite Hai. unfold Api.count_loads. rewrite !sum_list_with_app. simpl. lia. }
    destruct (Api.uploads st' !! unique); simpl; [|done].
    unfold Api.count_loads in *. rewrite sum_list_with_app. simpl. lia.
Qed.

(** No handler assigns the module-level [model], and none reads the
    artifact from disk. *)
Lemma handle_model req st :
  Api.model (handle req st).2 = Api.model st
  ∧ Api.count_loads (Api.trace (handle req st).2) = Api.count_loads (Api.trace st).
Proof.
  destruct req as [now|files uuid4 now upload_now|name|]; simpl.
  - done.
  - split; [apply analyze_model|apply analyze_loads].
  - unfold Api.get_image. by destruct (Api.uploads st !! name).
  - done.
Qed.

Lemma serve_model reqs st :
  Api.model (serve reqs st).2 = Api.model st
  ∧ Api.count_loads (Api.trace (serve reqs st).2) = Api.count_loads (Api.trace st).
Proof.
  revert st. induction reqs as [|req reqs IH]; intros st; simpl; [done|].
  destruct (handle_model req st) as [Hm Hl].
  destruct (handle req st) as [r st1]; simpl in *.
  destruct (IH st1) as [Hm' Hl'].
  destruct (serve reqs st1) as [rs st2]; simpl in *.
  split; congruence.
Qed.

Lemma main_loads disk dir :
  Api.count_loads (Api.trace (Api.main disk dir)) = 1.
Proof. by destruct disk. Qed.

(** C9.  The health check answers 200 with status 'healthy' in every
    state of the process, changes nothing, and reports the presence of a
    model only through [model_loaded]; after a failed start-up load,
    and whatever was served since, it still answers 200 'healthy' with
    [model_loaded] false. *)
Theorem health_check_always_healthy (st : Api.state) (now : string) :
  handle (Api.GetHealth now) st
  = ({| Api.status_code := 200;
        Api.payload :=
          Api.JsonHealth "healthy" (bool_decide (is_Some (Api.model st))) now "1.0.0" |},
     st)
  ∧ (bool_decide (is_Some (Api.model st)) = true ↔ is_Some (Api.model st))
  ∧ ∀ (msg : string) (dir : gmap string string) (reqs : list Api.request),
      (handle (Api.GetHealth now) (serve reqs (Api.main (LoadFails msg) dir)).2).1
      = {| Api.status_code := 200;
           Api.payload := Api.JsonHealth "healthy" false now "1.0.0" |}.
Proof.
  split; [reflexivity|]. split; [apply bool_decide_eq_true|].
  intros msg dir reqs. simpl. unfold Api.health_check. simpl.
  destruct (serve_model reqs (Api.main (LoadFails msg) dir)) as [-> _].
  reflexivity.
Qed.


(** C5 (amended).  In api.py the artifact is read from disk exactly once,
    by [load_ml_model] in the start-up block; no handler reads it again
    or assigns the module-level [model], so every request of every
    sequence sees the value the start-up left there: the loaded
    artifact, or nothing when loading failed.  The service of app.py
    keeps no model: its [q2] handler reads the artifact from disk once
    more on every POST that carries a file PIL opens and writes back
    under the client's file name, and on no other request. *)
Theorem api_model_fixed_after_startup
    (disk : load_outcome) (dir : gmap string string) (reqs : list Api.request) :
  Api.count_loads (Api.trace (Api.main disk dir)) = 1
  ∧ Api.model (serve reqs (Api.main disk dir)).2 = Api.model (Api.main disk dir)
  ∧ Api.count_loads (Api.trace (serve reqs (Api.main disk dir)).2) = 1
  ∧ Api.model (Api.main disk dir)
    = match disk with
      | Loaded m | CompileFails m _ => Some m
      | LoadFails _ => None
      end
  ∧ ∀ (pil_open : string → result image)
      (pil_save : string → image → LegacyApp.save_outcome)
      (legacy_load_img : string → nat * nat → result image)
      (legacy_disk : load_outcome) (legacy_files : gmap string LegacyApp.upload)
      (legacy_st : LegacyApp.state),
      LegacyApp.count_loads
        (LegacyApp.trace
           (LegacyEffects.q2_post_run pil_open pil_save legacy_load_img
              legacy_disk legacy_files legacy_st).2)
      = LegacyApp.count_loads (LegacyApp.trace legacy_st)
        + (if reaches_load_model pil_open pil_save legacy_files then 1 else 0).
Proof.
  destruct (serve_model reqs (Api.main disk dir)) as [Hm Hl].
  rewrite Hl, main_loads.
  split; [done|]. split; [done|]. split; [done|]. split; [by destruct disk|].
  intros. apply q2_post_run_loads.
Qed.

End ApiService.



(** ** The older service *)

Section LegacyService.

Variable pil_open : string → result image.
Variable pil_save : string → image → LegacyApp.save_outcome.
Variable load_img : string → nat * nat → result image.

(** Every POST that gets as far as an answer has read the artifact from
    disk once more, and has stored and decoded the upload under the name
    the client sent. *)
Lemma q2_post_effects disk files st r st' :
  LegacyApp.q2_post pil_open pil_save load_img disk files st = Ok (r, st') →
  LegacyApp.count_loads (LegacyApp.trace st')
  = S (LegacyApp.count_loads (LegacyApp.trace st))
  ∧ ∃ file, files !! "file" = Some file
      ∧ LegacyApp.EvSave (LegacyApp.filename file) ∈ LegacyApp.trace st'
      ∧ LegacyApp.EvDecode (LegacyApp.filename file) ∈ LegacyApp.trace st'.
Proof.
  unfold LegacyApp.q2_post.
  destruct (files !! "file") as [file|]; simpl; [|discriminate].
  destruct (pil_open (LegacyApp.content file)) as [image4|]; simpl; [|discriminate].
  destruct (pil_save (LegacyApp.filename file) image4) as [resaved|e|e written];
    simpl; [|discriminate|discriminate].
  destruct disk as [msg|m msg|m]; simpl; try discriminate.
  destruct (load_img resaved (28, 28)) as [img|]; simpl; [|discriminate].
  try (match goal with |- context [argmax ?l] =>
         destruct (argmax l) as [k|]; simpl; [|discriminate] end).
  intros [= <- <-]. simpl. split.
  - unfold LegacyApp.count_loads. rewrite !sum_list_with_app. simpl. lia.
  - exists file. split; [done|]. rewrite !elem_of_app, !list_elem_of_singleton.
    split; tauto.
Qed.

End LegacyService.

(** C5, as stated, fails for the service of app.py: its [q2] handler reads
    the artifact from disk while serving, once more on every POST of an
    upload that PIL opens and writes back, here two POSTs of 'scan.png'. *)
Lemma q2_reloads_model_while_serving :
  ∃ r1 st1 r2 st2,
    LegacyApp.q2_post Examples.pil_open_black Examples.pil_save_png
      Examples.black_pixel (Loaded Examples.flat_model)
      {[ "file" := Examples.legacy_scan_png ]}
      {| LegacyApp.uploads := ∅; LegacyApp.trace := [] |} = Ok (r1, st1)
    ∧ LegacyApp.q2_post Examples.pil_open_black Examples.pil_save_png
        Examples.black_pixel (Loaded Examples.flat_model)
        {[ "file" := Examples.legacy_scan_png ]} st1 = Ok (r2, st2)
    ∧ LegacyApp.count_loads (LegacyApp.trace st1) = 1
    ∧ LegacyApp.count_loads (LegacyApp.trace st2) = 2.
Proof.
  assert (({[ "file" := Examples.legacy_scan_png ]} : gmap string LegacyApp.upload)
            !! "file" = Some Examples.legacy_scan_png) as Hfile by reflexivity.
  unfold LegacyApp.q2_post. rewrite Hfile. simpl.
  eexists _, _, _, _. split; [reflexivity|]. simpl.
  split; [reflexivity|]. split; reflexivity.
Qed.

(** ** Preprocessing: the serve path against the generators *)

Section Preprocessing.

Variable warp : Training.transform → tensor → tensor.

Lemma is_zero_true (x : R) : Training.is_zero x = true ↔ x = 0%R.
Proof.
  unfold Training.is_zero. destruct (Req_dec_T x 0); split; congruence.
Qed.

Lemma is_zero_rescale : Training.is_zero (1 / 255) = false.
Proof.
  destruct (Training.is_zero (1 / 255)) eqn:Hz; [|done].
  apply is_zero_true in Hz. lra.
Qed.

(** [testgen] draws the identity transform, whatever the random draws. *)
Lemma testgen_identity (u : nat → R) :
  Training.is_identity (Training.get_random_transform Training.testgen u) = true.
Proof.
  assert (Training.is_zero 0 = true) as Hz by (by apply is_zero_true).
  unfold Training.is_identity, Training.get_random_transform, Training.testgen.
  cbn [Training.theta Training.tx Training.ty Training.zx Training.zy
       Training.rotation_range Training.zoom_range Training.width_shift_range
       Training.height_shift_range].
  rewrite !Hz.
  assert (Training.is_zero (1 - 1) = true) as -> by (apply is_zero_true; lra).
  reflexivity.
Qed.

Lemma testgen_rescale_only (u : nat → R) (x : tensor) :
  Training.flow warp Training.testgen u x = (fun p => (p * (1 / 255))%R) <$> x.
Proof.
  unfold Training.flow, Training.apply_affine_transform.
  rewrite testgen_identity. unfold Training.standardize. simpl.
  by rewrite is_zero_rescale.
Qed.

Lemma preprocess_unfold (img : image) : Api.preprocess img = [IZR <$> img].
Proof. reflexivity. Qed.

Lemma rescale_fixes_only_zero (img : image) :
  IZR <$> img = (fun p => (p * (1 / 255))%R) <$> (IZR <$> img)
  ↔ Forall (fun p => p = 0%Z) img.
Proof.
  induction img as [|p img IH]; simpl.
  - split; [constructor|done].
  - split.
    + intros [= Hp Himg]. constructor; [|by apply IH].
      apply eq_IZR. lra.
    + intros Hall. apply Forall_cons in Hall as [-> Hall].
      f_equal; [lra|by apply IH].
Qed.

(** C1 (amended).  The serve path applies no pixel rescale and no
    geometric perturbation: [analyze_image] hands the network the decoded
    channel values unchanged, which is also what the script hands to
    [fit], [evaluate] and [predict].  The two generators do share the
    factor 1/255 and [testgen] is rescale-only, but no data passes
    through them, and the serve path agrees with [testgen] only on an
    all-zero image. *)
Theorem serve_preprocessing_is_unscaled (u : nat → R) (img : image) :
  Api.preprocess img = [IZR <$> img]
  ∧ Api.preprocess img = Training.network_input [img]
  ∧ Training.rescale Training.datagen = Training.rescale Training.testgen
  ∧ Training.rescale Training.testgen = Some (1 / 255)%R
  ∧ Training.flow warp Training.testgen u (img_to_array img)
    = (fun p => (p * (1 / 255))%R) <$> img_to_array img
  ∧ (Api.preprocess img = [Training.flow warp Training.testgen u (img_to_array img)]
     ↔ Forall (fun p => p = 0%Z) img).
Proof.
  repeat split; try reflexivity.
  - apply testgen_rescale_only.
  - rewrite testgen_rescale_only. unfold Api.preprocess, img_to_array. simpl.
    intros [= H]. by apply rescale_fixes_only_zero.
  - intros Hall. rewrite testgen_rescale_only.
    unfold Api.preprocess, img_to_array. simpl. f_equal.
    by apply rescale_fixes_only_zero.
Qed.

End Preprocessing.

(** C1, as stated, fails: on a white 28x28 RGB image the serve path feeds
    the network 255 in every channel, where the evaluate-time generator
    would feed it 255/255. *)
Lemma serve_preprocessing_differs_from_testgen :
  Api.preprocess (replicate Training.pixels_per_image 255%Z)
  ≠ [Training.flow (fun _ x => x) Training.testgen (fun _ => 0%R)
       (img_to_array (replicate Training.pixels_per_image 255%Z))].
Proof.
  rewrite (testgen_rescale_only (fun _ x => x) (fun _ => 0%R)
             (img_to_array (replicate Training.pixels_per_image 255%Z))).
  rewrite (preprocess_unfold (replicate Training.pixels_per_image 255%Z)).
  unfold img_to_array. intros H.
  apply (inj (fun x => [x])) in H.
  apply (proj1 (rescale_fixes_only_zero _)) in H.
  assert (replicate Training.pixels_per_image 255%Z !! 0 = Some 255%Z) as H0.
  { apply lookup_replicate_2. unfold Training.pixels_per_image. lia. }
  pose proof (Forall_lookup_1 _ _ _ _ H H0) as Habs. discriminate.
Qed.

(** ** The dense head of the network *)

Section Topology.

Lemma default_regularizer_is_free (weights : list R) :
  Training.penalty Training.L1L2_default weights = 0%R.
Proof. unfold Training.penalty. simpl. lra. Qed.

(** C8 (amended).  The four hidden dense layers have widths 256, 128,
    64 and 32, and every one of them, the 32-unit layer included, is
    followed by batch normalization.  The 32-unit layer alone carries
    the L1L2 kernel regularizer, built with its default coefficients,
    under which the penalty is zero. *)
Theorem hidden_dense_layers_all_normalized :
  Training.width <$> Training.hidden_dense Training.model = [256; 128; 64; 32]
  ∧ Training.followed_by_batch_norm <$> Training.hidden_dense Training.model
    = [true; true; true; true]
  ∧ Training.regularizer <$> Training.hidden_dense Training.model
    = [None; None; None; Some Training.L1L2_default]
  ∧ Training.width <$> Training.dense_layers Training.model = [256; 128; 64; 32; 8]
  ∧ ∀ weights : list R, Training.penalty Training.L1L2_default weights = 0%R.
Proof.
  repeat split; try reflexivity. apply default_regularizer_is_free.
Qed.

End Topology.

(** C8, as stated, fails: the 32-unit layer is followed by batch
    normalization like the three before it. *)
Lemma last_hidden_layer_is_normalized :
  Training.followed_by_batch_norm <$> Training.hidden_dense Training.model
  ≠ [true; true; true; false].
Proof. discriminate. Qed.

(** ** argmax, max and softmax *)

Section Numeric.

Local Open Scope R_scope.

(** The running maximum and its first position, together. *)
Lemma argmax_from_spec (pre l : list R) (best_i : nat) (best : R) :
  pre !! best_i = Some best →
  (∀ y, y ∈ pre → y <= best) →
  (∀ j y, (j < best_i)%nat → pre !! j = Some y → y < best) →
  let k := argmax_from best_i best (length pre) l in
  let m := foldl Rmax best l in
  (pre ++ l) !! k = Some m
  ∧ (∀ y, y ∈ pre ++ l → y <= m)
  ∧ (∀ j y, (j < k)%nat → (pre ++ l) !! j = Some y → y < m).
Proof.
  revert pre best_i best. induction l as [|x l IH]; intros pre best_i best Hb Hle Hlt.
  - simpl. rewrite app_nil_r. auto.
  - simpl. destruct (Rlt_dec best x) as [Hx|Hx].
    + assert (Rmax best x = x) as -> by (apply Rmax_right; lra).
      replace (S (length pre)) with (length (pre ++ [x]))
        by (rewrite length_app; simpl; lia).
      replace (pre ++ x :: l) with ((pre ++ [x]) ++ l) by (by rewrite <- app_assoc).
      apply IH.
      * rewrite lookup_app_r by lia. by rewrite Nat.sub_diag.
      * intros y [Hy|Hy%list_elem_of_singleton]%elem_of_app.
        -- specialize (Hle y Hy). lra.
        -- subst. lra.
      * intros j y Hj Hy. rewrite lookup_app_l in Hy by done.
        assert (y ∈ pre) as Hin by (apply list_elem_of_lookup; eauto).
        specialize (Hle y Hin). lra.
    + assert (Rmax best x = best) as -> by (apply Rmax_left; lra).
      replace (S (length pre)) with (length (pre ++ [x]))
        by (rewrite length_app; simpl; lia).
      replace (pre ++ x :: l) with ((pre ++ [x]) ++ l) by (by rewrite <- app_assoc).
      apply IH.
      * apply lookup_app_l_Some. done.
      * intros y [Hy|Hy%list_elem_of_singleton]%elem_of_app.
        -- by apply Hle.
        -- subst. lra.
      * intros j y Hj Hy. apply (Hlt j y Hj).
        rewrite lookup_app_l in Hy; [done|].
        apply lookup_lt_Some in Hb. lia.
Qed.

(** [np.argmax] and [np.max] on a non-empty array: the index returned
    holds the maximum, nothing exceeds it, and nothing before it
    reaches it. *)
Lemma argmax_amax (l : list R) :
  l ≠ [] →
  ∃ k m, argmax l = Ok k ∧ amax l = Ok m
    ∧ l !! k = Some m
    ∧ (∀ y, y ∈ l → y <= m)
    ∧ (∀ j y, (j < k)%nat → l !! j = Some y → y < m).
Proof.
  destruct l as [|x l]; [done|]. intros _.
  exists (argmax_from 0 x 1 l), (foldl Rmax x l).
  split; [done|]. split; [done|].
  apply (argmax_from_spec [x] l 0 x).
  - done.
  - intros y Hy%list_elem_of_singleton. subst. lra.
  - intros j y Hj. lia.
Qed.

Lemma sum_scaled (e : list R) (s : R) :
  Np.sum ((fun x => x / s) <$> e) = Np.sum e / s.
Proof.
  induction e as [|x e IH].
  - simpl. unfold Rdiv. lra.
  - change (Np.sum ((fun x => x / s) <$> x :: e))
      with (x / s + Np.sum ((fun x => x / s) <$> e)).
    change (Np.sum (x :: e)) with (x + Np.sum e).
    rewrite IH. unfold Rdiv. lra.
Qed.

Lemma sum_cons (x : R) (l : list R) : Np.sum (x :: l) = x + Np.sum l.
Proof. reflexivity. Qed.

Lemma sum_exp_positive (z : list R) : z ≠ [] → 0 < Np.sum (exp <$> z).
Proof.
  assert (∀ z, 0 <= Np.sum (exp <$> z)) as Hnn.
  { clear. induction z as [|x z IH].
    - simpl. lra.
    - rewrite fmap_cons, sum_cons. pose proof (exp_pos x). lra. }
  destruct z as [|x z]; [done|]. intros _.
  rewrite fmap_cons, sum_cons.
  pose proof (exp_pos x). specialize (Hnn z). lra.
Qed.

(** A softmax row is a probability distribution. *)
Lemma softmax_distribution (z : list R) :
  z ≠ [] →
  Np.sum (softmax z) = 1
  ∧ Forall (fun p => 0 < p) (softmax z)
  ∧ length (softmax z) = length z.
Proof.
  intros Hz. pose proof (sum_exp_positive z Hz) as Hs.
  unfold softmax. cbv zeta. split; [|split].
  - rewrite sum_scaled. by apply Rdiv_diag, Rgt_not_eq.
  - apply Forall_fmap, Forall_fmap, Forall_forall. intros x _. simpl.
    apply Rdiv_lt_0_compat; [apply exp_pos|done].
  - by rewrite !length_fmap.
Qed.

Lemma forward_distribution (m : ModelArtifact) (x : tensor) :
  length (forward m x) = 8%nat
  ∧ Np.sum (forward m x) = 1
  ∧ Forall (fun p => 0 < p) (forward m x).
Proof.
  unfold forward.
  set (z := dense classifier_units _ _ _).
  assert (length z = 8%nat) as Hlen
    by (unfold z, dense; by rewrite length_fmap, length_seq).
  assert (z ≠ []) as Hz by (intros E; by rewrite E in Hlen).
  destruct (softmax_distribution z Hz) as (Hs & Hp & Hl).
  rewrite Hl. done.
Qed.

End Numeric.

(** ** The prediction returned for a decodable image *)

Section Prediction.

Variable load_img : string → nat * nat → result image.

Local Open Scope R_scope.

Lemma fill_probabilities_eight (row : list R) :
  length row = 8%nat →
  ∃ probs : gmap string R,
    Api.fill_probabilities row = Ok probs
    ∧ size probs = 8%nat
    ∧ ∀ idx, (idx < 8)%nat →
        ∃ name, Api.CANCER_CLASSES !! idx = Some name ∧ probs !! name = row !! idx.
Proof.
  intros Hlen.
  destruct row as [|p0 [|p1 [|p2 [|p3 [|p4 [|p5 [|p6 [|p7 [|p8 row]]]]]]]]];
    try discriminate.
  eexists. split; [reflexivity|]. split; [reflexivity|].
  intros idx Hidx.
  do 8 (destruct idx as [|idx]; [eexists; split; reflexivity|]). lia.
Qed.

Lemma predict_preprocess (m : ModelArtifact) (img : image) :
  predict m (Api.preprocess img) = [forward m (img_to_array img)].
Proof. reflexivity. Qed.

(** C3.  For a stored upload that decodes, with a model loaded,
    [analyze_image] returns a prediction whose [probabilities] has
    exactly 8 entries, one per class name, holding the network's output
    row; the row is positive and sums to 1 (exactly, in real arithmetic);
    [diagnosis_class] is the first index of the largest probability and
    [confidence] is that probability. *)
Theorem analyze_image_prediction
    (st : Api.state) (path bytes : string) (img : image) (m : ModelArtifact) :
  Api.uploads st !! path = Some bytes →
  load_img bytes (Api.IMG_WIDTH, Api.IMG_HEIGHT) = Ok img →
  Api.model st = Some m →
  ∃ (p : Api.prediction) (row : list R),
    Api.analyze_image_try load_img st path = Ok p
    ∧ predict m (Api.preprocess img) = [row]
    ∧ length row = 8%nat
    ∧ size (Api.probabilities p) = 8%nat
    ∧ (∀ idx, (idx < 8)%nat →
         ∃ name, Api.CANCER_CLASSES !! idx = Some name
                 ∧ Api.probabilities p !! name = row !! idx)
    ∧ Np.sum row = 1
    ∧ Forall (fun q => 0 < q) row
    ∧ (Api.diagnosis_class p < 8)%nat
    ∧ row !! Api.diagnosis_class p = Some (Api.confidence p)
    ∧ (∀ q, q ∈ row → q <= Api.confidence p)
    ∧ (∀ j q, (j < Api.diagnosis_class p)%nat → row !! j = Some q →
         q < Api.confidence p)
    ∧ Api.CANCER_CLASSES !! Api.diagnosis_class p = Some (Api.diagnosis p).
Proof.
  intros Hup Himg Hm.
  destruct (forward_distribution m (img_to_array img)) as (Hlen & Hsum & Hpos).
  set (row := forward m (img_to_array img)) in *.
  assert (row ≠ []) as Hne by (intros E; by rewrite E in Hlen).
  destruct (argmax_amax row Hne) as (k & mx & Hk & Hmx & Hat & Hle & Hfirst).
  assert (k < 8)%nat as Hk8 by (apply lookup_lt_Some in Hat; lia).
  destruct (fill_probabilities_eight row Hlen) as (probs & Hfill & Hsize & Hnames).
  assert (∃ info name, Api.getitem Api.CANCER_INFO k = Ok info
                       ∧ Api.CANCER_CLASSES !! k = Some name) as (info & name & Hinfo & Hname).
  { clear -Hk8.
    do 8 (destruct k as [|k]; [do 2 eexists; split; reflexivity|]). lia. }
  exists {| Api.diagnosis_class := k;
            Api.diagnosis := name;
            Api.confidence := mx;
            Api.p_severity := Api.severity info;
            Api.p_description := Api.description info;
            Api.p_recommendation := Api.recommendation info;
            Api.probabilities := probs |}, row.
  split.
  { unfold Api.analyze_image_try. rewrite Hup, Hm.
    cbn [from_option mbind Py.result_bind]. rewrite Himg.
    cbn [mbind Py.result_bind]. rewrite (predict_preprocess m img).
    fold row. cbn [concat]. rewrite app_nil_r, Hk.
    cbn [mbind Py.result_bind]. rewrite Hmx.
    cbn [mbind Py.result_bind index lookup list_lookup]. rewrite Hfill.
    cbn [mbind Py.result_bind]. rewrite Hinfo.
    cbn [mbind Py.result_bind]. by rewrite Hname. }
  cbn [Api.probabilities Api.diagnosis_class Api.confidence Api.diagnosis].
  repeat split; try done.
Qed.

End Prediction.

Lemma analyze_image_prediction_witness :
  ∃ (p : Api.prediction) (row : list R),
    Api.analyze_image_try Examples.black_pixel
      {| Api.model := Some Examples.flat_model;
         Api.uploads := {[ "scan.png" := "bytes" ]};
         Api.trace := [] |} "scan.png" = Ok p
    ∧ size (Api.probabilities p) = 8
    ∧ Np.sum row = 1%R
    ∧ row !! Api.diagnosis_class p = Some (Api.confidence p).
Proof.
  destruct (analyze_image_prediction Examples.black_pixel
              {| Api.model := Some Examples.flat_model;
                 Api.uploads := {[ "scan.png" := "bytes" ]};
                 Api.trace := [] |} "scan.png" "bytes" [0%Z; 0%Z; 0%Z]
              Examples.flat_model)
    as (p & row & Hp & _ & _ & Hsize & _ & Hsum & _ & _ & Hconf & _).
  - reflexivity.
  - reflexivity.
  - reflexivity.
  - exists p, row. repeat split; assumption.
Defined.

(** ** The confusion matrix of the evaluation block *)

Section Confusion.

Lemma mapM_cons {A B} (f : A → result B) (x : A) (l : list A) :
  mapM f (x :: l) = y ← f x; k ← mapM f l; mret (y :: k).
Proof. reflexivity. Qed.

Lemma one_hot_lookup (n k j : nat) :
  j < n → Training.one_hot n k !! j = Some (if decide (j = k) then 1%R else 0%R).
Proof.
  intros Hj. unfold Training.one_hot.
  rewrite list_lookup_fmap, lookup_seq_lt by done. reflexivity.
Qed.

(** [argmax] undoes [to_categorical]. *)
Lemma argmax_one_hot (n k : nat) : k < n → argmax (Training.one_hot n k) = Ok k.
Proof.
  intros Hk.
  assert (length (Training.one_hot n k) = n) as Hlen
    by (unfold Training.one_hot; by rewrite length_fmap, length_seq).
  assert (Training.one_hot n k ≠ []) as Hne
    by (intros E; rewrite E in Hlen; simpl in Hlen; lia).
  destruct (argmax_amax _ Hne) as (i & mx & Hi & _ & Hat & Hle & _).
  rewrite Hi. f_equal.
  assert (i < n) as Hin by (apply lookup_lt_Some in Hat; lia).
  rewrite one_hot_lookup in Hat by done.
  assert (1 <= mx)%R as H1.
  { apply Hle, list_elem_of_lookup. exists k.
    rewrite one_hot_lookup by done. by rewrite decide_True. }
  destruct (decide (i = k)) as [->|Hne']; [done|].
  injection Hat as <-. lra.
Qed.

Lemma argmax_to_categorical (y : list nat) :
  y ≠ [] →
  ∃ y_cat, Training.to_categorical y = Ok y_cat ∧ mapM argmax y_cat = Ok y.
Proof.
  intros Hy. exists (Training.one_hot (S (max_list y)) <$> y). split.
  { by destruct y. }
  assert (∀ n l, Forall (fun k => k < n) l →
                 mapM argmax (Training.one_hot n <$> l) = Ok l) as Hgen.
  { clear. intros n l Hall. induction Hall as [|k l Hk Hall IH]; [done|].
    rewrite fmap_cons, mapM_cons, (argmax_one_hot n k Hk).
    cbn [mbind Py.result_bind]. rewrite IH. done. }
  apply Hgen, Forall_forall. intros k Hin.
  apply max_list_elem_of_le in Hin. lia.
Qed.

Lemma argmax_predictions (m : ModelArtifact) (xs : list tensor) :
  ∃ y_pred, mapM argmax (predict m xs) = Ok y_pred
    ∧ length y_pred = length xs ∧ Forall (fun k => k < 8) y_pred.
Proof.
  induction xs as [|x xs (y_pred & Hy & Hlen & Hall)].
  - exists []. done.
  - destruct (forward_distribution m x) as (Hl & _ & _).
    assert (forward m x ≠ []) as Hne by (intros E; by rewrite E in Hl).
    destruct (argmax_amax _ Hne) as (k & mx & Hk & _ & Hat & _ & _).
    exists (k :: y_pred). split; [|split].
    + unfold predict in *. rewrite fmap_cons, mapM_cons, Hk.
      cbn [mbind Py.result_bind]. rewrite Hy. reflexivity.
    + simpl. by rewrite Hlen.
    + constructor; [|done]. apply lookup_lt_Some in Hat. lia.
Qed.

Lemma position_spec (a i t : nat) :
  a < 8 → Training.classes_labels !! i = Some t → position a = i ↔ a = t.
Proof.
  intros Ha Hi.
  assert (i < 8) as Hi8 by (apply lookup_lt_Some in Hi; by vm_compute in Hi).
  do 8 (destruct a as [|a]; [
    do 8 (destruct i as [|i]; [vm_compute in Hi; injection Hi as <-;
                               vm_compute; split; congruence|]); lia |]).
  lia.
Qed.

Lemma position_lt (a : nat) : a < 8 → position a < 8.
Proof.
  intros Ha. do 8 (destruct a as [|a]; [vm_compute; lia|]). lia.
Qed.

Lemma count_pairs_cons (i j : nat) (q : nat * nat) (l : list (nat * nat)) :
  Training.count_pairs i j (q :: l)
  = (if decide (q = (i, j)) then 1 else 0) + Training.count_pairs i j l.
Proof.
  unfold Training.count_pairs. rewrite filter_cons.
  by destruct (decide (q = (i, j))).
Qed.

Lemma count_cons (c x : nat) (l : list nat) :
  Training.count c (x :: l) = (if decide (x = c) then 1 else 0) + Training.count c l.
Proof.
  unfold Training.count. rewrite filter_cons. by destruct (decide (x = c)).
Qed.

Lemma count_pairs_position (i j t p : nat) (yt yp : list nat) :
  Training.classes_labels !! i = Some t →
  Training.classes_labels !! j = Some p →
  Forall (fun c => c < 8) yt → Forall (fun c => c < 8) yp →
  Training.count_pairs i j (zip (position <$> yt) (position <$> yp))
  = Training.count_pairs t p (zip yt yp).
Proof.
  intros Hi Hj Hyt. revert yp.
  induction Hyt as [|a yt Ha Hyt IH]; intros yp Hyp; [done|].
  destruct Hyp as [|b yp Hb Hyp]; [done|].
  rewrite !fmap_cons. cbn [zip zip_with]. rewrite !count_pairs_cons, IH by done.
  f_equal.
  pose proof (position_spec a i t Ha Hi). pose proof (position_spec b j p Hb Hj).
  destruct (decide ((position a, position b) = (i, j))) as [[= ? ?]|Hne];
    destruct (decide ((a, b) = (t, p))) as [[= ? ?]|Hne']; try done.
  - destruct Hne'. f_equal; tauto.
  - destruct Hne. f_equal; tauto.
Qed.

(** A row of the matrix adds up to the instances whose true class sits
    at that row. *)
Lemma row_sum (i : nat) (ti pj : list nat) :
  length ti = length pj →
  Forall (fun c => c < 8) pj →
  sum_list ((fun j => Training.count_pairs i j (zip ti pj)) <$> seq 0 8)
  = Training.count i ti.
Proof.
  intros Hlen Hp. revert ti Hlen.
  induction Hp as [|b pj Hb Hp IH]; intros [|a ti] Hlen; try done.
  injection Hlen as Hlen. specialize (IH ti Hlen).
  cbn [zip zip_with]. rewrite count_cons, <- IH.
  cbn [seq fmap list_fmap sum_list sum_list_with]. rewrite !count_pairs_cons.
  unfold Datatypes.id.
  do 8 (destruct b as [|b]; [
    destruct (decide (a = i)) as [->|Hai];
      repeat (match goal with
              | |- context [decide (?x = ?y)] =>
                  destruct (decide (x = y)); try congruence
              end); lia |]).
  lia.
Qed.

End Confusion.

Section ConfusionMatrix.

Lemma filter_all {A} (P : A → Prop) `{∀ x, Decision (P x)} (l : list A) :
  Forall P l → filter P l = l.
Proof.
  induction 1 as [|x l Hx Hl IH]; [done|].
  rewrite filter_cons, decide_True by done. by rewrite IH.
Qed.

Lemma class_id_in_labels (t : nat) : t < 8 → t ∈ Training.classes_labels.
Proof.
  intros Ht. change Training.classes_labels with [4; 6; 2; 1; 5; 0; 3; 7].
  do 8 (destruct t as [|t]; [set_solver|]). lia.
Qed.

Lemma confusion_matrix_classes (yt yp : list nat) :
  length yt = length yp → yt ≠ [] →
  Forall (fun c => c < 8) yt → Forall (fun c => c < 8) yp →
  Training.confusion_matrix yt yp Training.classes_labels
  = Ok ((fun i => (fun j =>
           Training.count_pairs i j (zip (position <$> yt) (position <$> yp)))
             <$> seq 0 8) <$> seq 0 8).
Proof.
  intros Hlen Hne Hyt Hyp. unfold Training.confusion_matrix.
  rewrite decide_True by done.
  change (length Training.classes_labels) with 8.
  rewrite (decide_False (P := 8 = 0)) by lia.
  rewrite (decide_False (P := yt = [])) by done.
  rewrite decide_False.
  2: { intros HF. destruct Hyt as [|t yt Ht Hyt]; [done|].
       apply Forall_cons in HF as [HF _]. by apply HF, class_id_in_labels. }
  cbv zeta. f_equal.
  rewrite filter_all; [reflexivity|].
  apply Forall_forall. intros [a b] Hin. simpl.
  apply elem_of_zip_with in Hin as (a' & b' & [= -> ->] & Ha & Hb).
  apply list_elem_of_fmap in Ha as (a0 & -> & Ha).
  apply list_elem_of_fmap in Hb as (b0 & -> & Hb).
  rewrite Forall_forall in Hyt, Hyp.
  split; apply position_lt; auto.
Qed.

(** C4 (amended).  The confusion matrix of the evaluation block is 8x8;
    its rows and columns both follow the order in which the class map
    lists its keys, 4, 6, 2, 1, 5, 0, 3, 7: entry (i, j) counts the test
    instances whose true class is the i-th key and whose predicted class
    is the j-th key, and row i sums to the number of test instances of
    the i-th key. *)
Theorem confusion_matrix_follows_class_map
    (m : ModelArtifact) (X_test : list image) (y_test : list nat) :
  length X_test = length y_test →
  y_test ≠ [] →
  Forall (fun c => c < 8) y_test →
  ∃ (cm : list (list nat)) (y_pred : list nat),
    Training.evaluate_cm m X_test y_test = Ok cm
    ∧ mapM argmax (predict m (Training.network_input X_test)) = Ok y_pred
    ∧ length cm = 8
    ∧ Forall (fun row => length row = 8) cm
    ∧ Training.classes_labels = [4; 6; 2; 1; 5; 0; 3; 7]
    ∧ (∀ i j t p,
         Training.classes_labels !! i = Some t →
         Training.classes_labels !! j = Some p →
         cm !! i ≫= (.!! j) = Some (Training.count_pairs t p (zip y_test y_pred)))
    ∧ (∀ i t,
         Training.classes_labels !! i = Some t →
         sum_list <$> cm !! i = Some (Training.count t y_test)).
Proof.
  intros Hlen Hne Hall.
  destruct (argmax_to_categorical y_test Hne) as (y_cat & Hcat & Htrue).
  destruct (argmax_predictions m (Training.network_input X_test))
    as (y_pred & Hpred & Hplen & Hpall).
  assert (length y_test = length y_pred) as Hlen'.
  { rewrite Hplen. unfold Training.network_input. rewrite length_fmap. done. }
  eexists _, y_pred. split.
  { unfold Training.evaluate_cm. rewrite Hcat. cbn [mbind Py.result_bind].
    rewrite Hpred. cbn [mbind Py.result_bind]. rewrite Htrue.
    cbn [mbind Py.result_bind].
    by apply confusion_matrix_classes. }
  split; [done|]. split; [by rewrite length_fmap, length_seq|].
  split.
  { apply Forall_forall. intros row Hrow.
    apply list_elem_of_fmap in Hrow as (i & -> & _).
    by rewrite length_fmap, length_seq. }
  split; [reflexivity|]. split.
  - intros i j t p Hi Hj.
    assert (i < 8) as Hi8 by (apply lookup_lt_Some in Hi; by vm_compute in Hi).
    assert (j < 8) as Hj8 by (apply lookup_lt_Some in Hj; by vm_compute in Hj).
    rewrite list_lookup_fmap, lookup_seq_lt by done. cbn [fmap option_fmap option_map mbind option_bind Nat.add].
    rewrite list_lookup_fmap, lookup_seq_lt by done. cbn [fmap option_fmap option_map Nat.add].
    f_equal. by apply count_pairs_position.
  - intros i t Hi.
    assert (i < 8) as Hi8 by (apply lookup_lt_Some in Hi; by vm_compute in Hi).
    rewrite list_lookup_fmap, lookup_seq_lt by done. cbn [fmap option_fmap option_map Nat.add].
    f_equal. rewrite row_sum.
    + clear -Hi Hall. induction Hall as [|a y Ha Hall IH]; [done|].
      rewrite fmap_cons, !count_cons, IH. f_equal.
      pose proof (position_spec a i t Ha Hi).
      destruct (decide (position a = i)), (decide (a = t));
        first [done | exfalso; tauto].
    + by rewrite !length_fmap.
    + apply Forall_fmap, Forall_forall. intros b Hb. simpl.
      rewrite Forall_forall in Hpall. by apply position_lt, Hpall.
Qed.

End ConfusionMatrix.

Lemma confusion_matrix_follows_class_map_witness :
  ∃ (cm : list (list nat)),
    Training.evaluate_cm Examples.flat_model [[0%Z]; [0%Z]] [4; 7] = Ok cm
    ∧ length cm = 8
    ∧ sum_list <$> cm !! 0 = Some 1.
Proof.
  destruct (confusion_matrix_follows_class_map Examples.flat_model
              [[0%Z]; [0%Z]] [4; 7])
    as (cm & y_pred & Hcm & _ & Hlen & _ & _ & _ & Hrow).
  - reflexivity.
  - discriminate.
  - repeat constructor.
  - exists cm. split; [exact Hcm|]. split; [exact Hlen|].
    apply (Hrow 0 4). reflexivity.
Defined.

(** C4, as stated, fails: with one test instance of class 0 predicted as
    class 0, the count lands at row 5, column 5; row 0 (which holds class
    4) sums to 0 while the partition has one instance of class 0. *)
Lemma confusion_matrix_not_in_canonical_order :
  ∃ cm : list (list nat),
    Training.confusion_matrix [0] [0] Training.classes_labels = Ok cm
    ∧ cm ≠ canonical_confusion [0] [0]
    ∧ cm !! 0 ≫= (.!! 0) = Some 0
    ∧ cm !! 5 ≫= (.!! 5) = Some 1
    ∧ sum_list <$> cm !! 0 = Some 0
    ∧ Training.count 0 [0] = 1.
Proof.
  eexists. split; [vm_compute; reflexivity|].
  split; [vm_compute; discriminate|]. repeat split.
Qed.

(** ** The train/test split *)

Section SplitFacts.

Variable mt19937 : nat → Training.rng.

Lemma swap_permutation {A} (i j : nat) (x : list A) : Training.swap i j x ≡ₚ x.
Proof.
  unfold Training.swap.
  destruct (x !! i) as [xi|] eqn:Hi; [|done].
  destruct (x !! j) as [xj|] eqn:Hj; [|done].
  by apply Permutation_insert_swap.
Qed.

Lemma shuffle_from_permutation {A} (i : nat) (x : list A) (r : Training.rng) :
  (Training.shuffle_from i x r).1 ≡ₚ x.
Proof.
  revert x r. induction i as [|i IH]; intros x r; [done|].
  cbn [Training.shuffle_from Training.random_interval].
  rewrite IH. apply swap_permutation.
Qed.

(** [permutation n] is a permutation of [0 .. n-1], whatever the
    generator produces. *)
Lemma permutation_is_permutation (n : nat) (r : Training.rng) :
  (Training.permutation n r).1 ≡ₚ seq 0 n.
Proof. apply shuffle_from_permutation. Qed.

(** The shuffle reads the generator only through its outputs. *)
Lemma shuffle_from_ext {A} (i : nat) (x : list A) (r r' : Training.rng) :
  (∀ k, r k = r' k) →
  (Training.shuffle_from i x r).1 = (Training.shuffle_from i x r').1.
Proof.
  revert x r r'. induction i as [|i IH]; intros x r r' Hext; [done|].
  cbn [Training.shuffle_from Training.random_interval].
  rewrite (Hext 0). apply IH. intros k. apply Hext.
Qed.

Lemma index_lookup {A} (X : list A) (i : nat) (x : A) :
  X !! i = Some x → index X i = Ok x.
Proof. intros Hx. unfold index. by rewrite Hx. Qed.

Lemma mapM_index_ok {A} (X : list A) (idxs : list nat) :
  Forall (fun i => i < length X) idxs →
  ∃ l, mapM (index X) idxs = Ok l ∧ Forall2 (fun i x => X !! i = Some x) idxs l.
Proof.
  induction 1 as [|i idxs Hi Hall (l & Hl & Hl2)].
  - exists []. split; [done|constructor].
  - destruct (lookup_lt_is_Some_2 X i Hi) as [x Hx].
    exists (x :: l). split; [|by constructor].
    rewrite mapM_cons, (index_lookup X i x Hx).
    cbn [mbind Py.result_bind]. by rewrite Hl.
Qed.

Lemma n_test_of_quarter (n : nat) :
  n ≤ 4 * Training.n_test_of 25 n < n + 4.
Proof.
  unfold Training.n_test_of.
  pose proof (Nat.div_mod_eq (25 * n + 99) 100) as Hd.
  pose proof (Nat.mod_upper_bound (25 * n + 99) 100). lia.
Qed.

Lemma split_indices_partition (seed n : nat) :
  let '(ind_train, ind_test) := Training.split_indices mt19937 25 seed n in
  ind_test ++ ind_train ≡ₚ seq 0 n
  ∧ length ind_test = Training.n_test_of 25 n
  ∧ length ind_train = n - Training.n_test_of 25 n.
Proof.
  unfold Training.split_indices. cbv zeta.
  set (perm := (Training.permutation n (mt19937 seed)).1).
  pose proof (permutation_is_permutation n (mt19937 seed)) as Hperm.
  fold perm in Hperm.
  assert (length perm = n) as Hlen by (by rewrite Hperm, length_seq).
  pose proof (n_test_of_quarter n) as Hq.
  rewrite (take_ge (drop _ perm)) by (rewrite length_drop; lia).
  rewrite take_drop. split; [done|].
  rewrite length_take, length_drop. lia.
Qed.

(** C6.  On a dataset of at least two instances the split succeeds; it
    holds out ceil(n/4) instances, a quarter of the dataset; the train and
    test index lists share no index, repeat none, and together are exactly
    the indices of the dataset; the four returned arrays are the data and
    labels at those indices; and the result depends on the generator only
    through the outputs of seed 49, so a re-run on the same dataset gives
    the same partition. *)
Theorem split_is_deterministic_partition
    (Data : list image) (Label : list nat) :
  length Data = length Label →
  2 ≤ length Data →
  ∃ ind_train ind_test X_train X_test y_train y_test,
    Training.split_indices mt19937 Training.test_size_percent
      Training.random_state (length Data) = (ind_train, ind_test)
    ∧ Training.split_dataset mt19937 Data Label
      = Ok (X_train, X_test, y_train, y_test)
    ∧ Forall2 (fun i x => Data !! i = Some x) ind_train X_train
    ∧ Forall2 (fun i x => Data !! i = Some x) ind_test X_test
    ∧ Forall2 (fun i l => Label !! i = Some l) ind_train y_train
    ∧ Forall2 (fun i l => Label !! i = Some l) ind_test y_test
    ∧ length Data ≤ 4 * length ind_test < length Data + 4
    ∧ length ind_train + length ind_test = length Data
    ∧ ind_train ++ ind_test ≡ₚ seq 0 (length Data)
    ∧ NoDup (ind_train ++ ind_test)
    ∧ (∀ i, i ∈ ind_train → i ∉ ind_test)
    ∧ (∀ i, i < length Data ↔ i ∈ ind_train ∨ i ∈ ind_test)
    ∧ ∀ other : nat → Training.rng,
        (∀ k, other Training.random_state k = mt19937 Training.random_state k) →
        Training.split_dataset other Data Label
        = Training.split_dataset mt19937 Data Label.
Proof.
  intros Hlen Hn.
  pose proof (split_indices_partition Training.random_state (length Data)) as Hpart.
  change Training.test_size_percent with 25.
  destruct (Training.split_indices mt19937 25 Training.random_state (length Data))
    as [ind_train ind_test] eqn:Hsplit.
  destruct Hpart as (Hperm & Hltest & Hltrain).
  pose proof (n_test_of_quarter (length Data)) as Hq.
  assert (ind_train ++ ind_test ≡ₚ seq 0 (length Data)) as Hperm'
    by (by rewrite (Permutation_app_comm ind_train ind_test)).
  assert (NoDup (ind_train ++ ind_test)) as Hnd
    by (rewrite Hperm'; apply NoDup_seq).
  assert (∀ i, i ∈ ind_train ∨ i ∈ ind_test ↔ i < length Data) as Hin.
  { intros i. rewrite <- elem_of_app, Hperm', elem_of_seq. lia. }
  assert (Forall (fun i => i < length Data) ind_train) as Htr
    by (apply Forall_forall; intros i Hi; apply Hin; by left).
  assert (Forall (fun i => i < length Data) ind_test) as Hte
    by (apply Forall_forall; intros i Hi; apply Hin; by right).
  destruct (mapM_index_ok Data ind_train Htr) as (X_train & HXtr & HXtr2).
  destruct (mapM_index_ok Data ind_test Hte) as (X_test & HXte & HXte2).
  rewrite Hlen in Htr, Hte.
  destruct (mapM_index_ok Label ind_train Htr) as (y_train & Hytr & Hytr2).
  destruct (mapM_index_ok Label ind_test Hte) as (y_test & Hyte & Hyte2).
  exists ind_train, ind_test, X_train, X_test, y_train, y_test.
  split; [done|]. split.
  { unfold Training.split_dataset, Training.train_test_split.
    change Training.test_size_percent with 25.
    rewrite decide_True by done.
    rewrite decide_False by lia. rewrite decide_False by lia.
    rewrite Hsplit, HXtr. cbn [mbind Py.result_bind].
    rewrite HXte. cbn [mbind Py.result_bind].
    rewrite Hytr. cbn [mbind Py.result_bind].
    rewrite Hyte. reflexivity. }
  do 4 (split; [done|]).
  split; [lia|]. split; [lia|]. split; [done|]. split; [done|].
  split.
  { intros i Hi1 Hi2. apply NoDup_app in Hnd as (_ & Hdisj & _). by apply (Hdisj i). }
  split; [intros i; by rewrite Hin|].
  intros other Hother.
  unfold Training.split_dataset, Training.train_test_split, Training.split_indices,
    Training.permutation, Training.shuffle.
  by rewrite (shuffle_from_ext _ _ (other Training.random_state)
                (mt19937 Training.random_state) Hother).
Qed.

End SplitFacts.

Lemma split_is_deterministic_partition_witness :
  ∃ ind_train ind_test X_train X_test y_train y_test,
    Training.split_dataset (fun seed k => seed + k)
      [[1%Z]; [2%Z]; [3%Z]; [4%Z]; [5%Z]] [0; 1; 2; 3; 7]
    = Ok (X_train, X_test, y_train, y_test)
    ∧ ind_train ++ ind_test ≡ₚ seq 0 5
    ∧ (∀ i, i ∈ ind_train → i ∉ ind_test).
Proof.
  destruct (split_is_deterministic_partition (fun seed k => seed + k)
              [[1%Z]; [2%Z]; [3%Z]; [4%Z]; [5%Z]] [0; 1; 2; 3; 7])
    as (ind_train & ind_test & X_train & X_test & y_train & y_test
        & _ & Hsplit & _ & _ & _ & _ & _ & _ & Hperm & _ & Hdisj & _).
  - reflexivity.
  - simpl. lia.
  - exists ind_train, ind_test, X_train, X_test, y_train, y_test.
    split; [exact Hsplit|]. split; [exact Hperm|exact Hdisj].
Defined.

(** ** Class balancing *)

Section Resampling.

Lemma randint_spec (high size : nat) (r : Training.rng) :
  0 < high →
  length (Training.randint high size r).1 = size
  ∧ Forall (fun x => x < high) (Training.randint high size r).1.
Proof.
  intros Hh. revert r. induction size as [|n IH]; intros r.
  - split; [done|constructor].
  - cbn [Training.randint Training.random_interval].
    specialize (IH (Training.next r)).
    destruct (Training.randint high n (Training.next r)) as [xs r'].
    cbn [fst] in *. destruct IH as [IH1 IH2]. split; [simpl; by rewrite IH1|].
    constructor; [|done].
    pose proof (Nat.mod_upper_bound (r 0) (S (high - 1))). lia.
Qed.

(** A draw with replacement only ever returns members of the population. *)
Lemma choice_spec (a : list nat) (size : nat) (r : Training.rng) :
  a ≠ [] ∨ size = 0 →
  ∃ picked r', Training.choice a size r = Ok (picked, r')
    ∧ length picked = size ∧ Forall (fun i => i ∈ a) picked.
Proof.
  intros Ha. unfold Training.choice.
  destruct a as [|a0 a]; destruct size as [|size];
    try (destruct Ha; done); try (by exists [], r).
  assert (0 < length (a0 :: a)) as Hlen by (simpl; lia).
  destruct (randint_spec (length (a0 :: a)) (S size) r Hlen) as [Hl Hall].
  destruct (Training.randint (length (a0 :: a)) (S size) r) as [idx r'].
  cbn [fst] in *.
  destruct (mapM_index_ok (a0 :: a) idx Hall) as (picked & Hp & Hp2).
  exists picked, r'. rewrite Hp. split; [done|]. split.
  - by rewrite <- (Forall2_length _ _ _ Hp2).
  - clear -Hp2. induction Hp2 as [|i x idx picked Hx _ IH]; constructor; [|done].
    apply list_elem_of_lookup. eauto.
Qed.

Lemma elem_of_flatnonzero_eq (y : list nat) (c i : nat) :
  i ∈ Training.flatnonzero_eq y c ↔ y !! i = Some c.
Proof.
  unfold Training.flatnonzero_eq. rewrite list_elem_of_filter, elem_of_seq.
  split; [tauto|]. intros Hi. split; [done|].
  apply lookup_lt_Some in Hi. lia.
Qed.

Lemma flatnonzero_eq_nonempty (y : list nat) (c : nat) :
  c ∈ y → Training.flatnonzero_eq y c ≠ [].
Proof.
  intros [i Hi]%list_elem_of_lookup E.
  apply elem_of_flatnonzero_eq in Hi. rewrite E in Hi. by apply elem_of_nil in Hi.
Qed.

Lemma labelled_app (y : list nat) (c : nat) (l k : list nat) :
  labelled y c (l ++ k) = labelled y c l + labelled y c k.
Proof. unfold labelled. by rewrite filter_app, length_app. Qed.

Lemma labelled_same (y : list nat) (c c0 : nat) (picked : list nat) :
  Forall (fun i => y !! i = Some c0) picked →
  labelled y c picked = if decide (c0 = c) then length picked else 0.
Proof.
  unfold labelled. induction 1 as [|i picked Hi Hall IH].
  - by destruct (decide (c0 = c)).
  - rewrite filter_cons. destruct (decide (c0 = c)) as [->|Hne].
    + rewrite decide_True by done. simpl. by rewrite IH.
    + rewrite decide_False; [done|]. rewrite Hi. congruence.
Qed.

(** The bootstrap loop appends, for every class of the strategy, exactly
    the requested number of indices, all of that class. *)
Lemma bootstrap_spec (y : list nat) (strategy : list (nat * nat))
    (sample_indices : list nat) (r : Training.rng) :
  Forall (fun kv => kv.1 ∈ y) strategy →
  ∃ extra r',
    Training.bootstrap y strategy sample_indices r = Ok (sample_indices ++ extra, r')
    ∧ Forall (fun i => i < length y) extra
    ∧ ∀ c, labelled y c extra = requested c strategy.
Proof.
  intros Hs. revert sample_indices r.
  induction Hs as [|[c0 n0] strategy Hc0 Hs IH]; intros sample_indices r.
  - exists [], r. rewrite app_nil_r. split; [done|]. split; [constructor|done].
  - cbn [Training.bootstrap]. cbn [fst] in Hc0.
    destruct (choice_spec (Training.flatnonzero_eq y c0) n0 r)
      as (picked & r1 & Hch & Hlen & Hin).
    { left. by apply flatnonzero_eq_nonempty. }
    rewrite Hch. cbn [mbind Py.result_bind].
    destruct (IH (sample_indices ++ picked) r1) as (extra & r' & Hb & Hlt & Hcount).
    exists (picked ++ extra), r'. rewrite app_assoc. split; [done|].
    assert (Forall (fun i => y !! i = Some c0) picked) as Hlab.
    { eapply Forall_impl; [exact Hin|]. intros i Hi. by apply elem_of_flatnonzero_eq. }
    split.
    + apply Forall_app. split; [|done].
      eapply Forall_impl; [exact Hlab|]. intros i Hi. by apply lookup_lt_Some in Hi.
    + intros c. rewrite labelled_app, Hcount, (labelled_same y c c0 picked Hlab), Hlen.
      unfold requested. simpl. reflexivity.
Qed.

End Resampling.

Section Strategy.

Lemma elem_of_unique (y : list nat) (c : nat) : c ∈ Training.unique y ↔ c ∈ y.
Proof.
  unfold Training.unique. rewrite list_elem_of_filter, elem_of_seq.
  split; [tauto|]. intros Hc. split; [done|].
  apply max_list_elem_of_le in Hc. lia.
Qed.

Lemma NoDup_unique (y : list nat) : NoDup (Training.unique y).
Proof. apply NoDup_filter, NoDup_seq. Qed.

Lemma stats_counts (y : list nat) :
  snd <$> Training.count_class_sample y
  = (fun c => Training.count c y) <$> Training.unique y.
Proof.
  unfold Training.count_class_sample. rewrite <- list_fmap_compose. done.
Qed.

Lemma count_le_majority (y : list nat) (c : nat) :
  Training.count c y ≤ n_sample_majority y.
Proof.
  destruct (decide (c ∈ y)) as [Hc|Hc].
  - apply max_list_elem_of_le. rewrite stats_counts.
    apply list_elem_of_fmap. exists c. split; [done|]. by apply elem_of_unique.
  - assert (Training.count c y = 0) as ->; [|lia].
    unfold Training.count. clear -Hc. induction y as [|x y IH]; [done|].
    rewrite filter_cons. apply not_elem_of_cons in Hc as [Hne Hc].
    rewrite decide_False by done. by apply IH.
Qed.

Lemma class_majority_spec (y : list nat) :
  y ≠ [] →
  ∃ cm, Training.class_majority (Training.count_class_sample y) = Some cm
    ∧ cm ∈ y ∧ Training.count cm y = n_sample_majority y.
Proof.
  intros Hy. unfold Training.class_majority. fold (n_sample_majority y).
  assert (Training.unique y ≠ []) as Hu.
  { destruct y as [|x y]; [done|]. intros E.
    assert (x ∈ Training.unique (x :: y)) as Hx by (apply elem_of_unique; left).
    rewrite E in Hx. by apply elem_of_nil in Hx. }
  assert (n_sample_majority y ∈ snd <$> Training.count_class_sample y) as Hmax.
  { apply max_list_elem_of. rewrite stats_counts. by destruct (Training.unique y). }
  apply list_elem_of_fmap in Hmax as ([c n] & Hn & Hin). cbn [snd] in Hn. subst n.
  destruct (filter (fun kv => kv.2 = n_sample_majority y)
              (Training.count_class_sample y)) as [|[cm n] rest] eqn:Hf.
  { assert ((c, n_sample_majority y) ∈ ([] : list (nat * nat))) as Habs.
    { rewrite <- Hf. apply list_elem_of_filter. done. }
    by apply elem_of_nil in Habs. }
  exists cm. split; [done|].
  assert ((cm, n) ∈ filter (fun kv => kv.2 = n_sample_majority y)
            (Training.count_class_sample y)) as Hcm by (rewrite Hf; left).
  apply list_elem_of_filter in Hcm as [Hn Hcm]. cbn [snd] in Hn.
  unfold Training.count_class_sample in Hcm.
  apply list_elem_of_fmap in Hcm as (c' & [= -> ->] & Hc').
  split; [by apply elem_of_unique|done].
Qed.

Lemma requested_filtered (U : list nat) (maj : option nat)
    (f g : nat → nat) (c : nat) :
  NoDup U →
  requested c ((fun kv => (kv.1, g kv.2))
                 <$> filter (fun kv => Some kv.1 ≠ maj) ((fun c' => (c', f c')) <$> U))
  = if decide (c ∈ U ∧ Some c ≠ maj) then g (f c) else 0.
Proof.
  induction 1 as [|u U Hu HU IH].
  - rewrite decide_False; [done|]. intros [Hc _]. by apply elem_of_nil in Hc.
  - rewrite fmap_cons, filter_cons. cbn [fst].
    assert (c ∈ u :: U ↔ u = c ∨ c ∈ U) as Hcons
      by (rewrite elem_of_cons; split; intros [?|?]; auto).
    destruct (decide (Some u ≠ maj)) as [HQ|HQ].
    + rewrite fmap_cons. unfold requested in *. cbn [sum_list_with fst snd].
      rewrite IH.
      repeat case_decide; simplify_eq; try lia; exfalso; intuition congruence.
    + rewrite IH.
      repeat case_decide; simplify_eq; try lia; exfalso; intuition congruence.
Qed.

(** With at least two classes present the default strategy asks, for every
    class, what it is short of the largest class. *)
Lemma sampling_strategy_spec (y : list nat) :
  2 ≤ length (Training.unique y) →
  ∃ strategy, Training.sampling_strategy y = Ok strategy
    ∧ Forall (fun kv => kv.1 ∈ y) strategy
    ∧ ∀ c, requested c strategy
           = if decide (c ∈ y) then n_sample_majority y - Training.count c y else 0.
Proof.
  intros Hlen. unfold Training.sampling_strategy. cbv zeta.
  rewrite decide_False.
  2: { unfold Training.count_class_sample. rewrite length_fmap. lia. }
  eexists. split; [reflexivity|].
  assert (y ≠ []) as Hy by (intros ->; simpl in Hlen; lia).
  destruct (class_majority_spec y Hy) as (cm & Hcm & Hin & Hcount).
  fold (n_sample_majority y). rewrite Hcm. split.
  - apply Forall_fmap, Forall_forall. intros [c n] Hc. cbn [fst].
    apply list_elem_of_filter in Hc as [_ Hc].
    unfold Training.count_class_sample in Hc.
    apply list_elem_of_fmap in Hc as (c' & [= -> ->] & Hc').
    by apply elem_of_unique.
  - intros c. unfold Training.count_class_sample.
    etrans.
    { apply (requested_filtered (Training.unique y) (Some cm)
               (fun c' => Training.count c' y)
               (fun n => n_sample_majority y - n) c (NoDup_unique y)). }
    destruct (decide (c ∈ y)) as [Hc|Hc].
    + destruct (decide (c = cm)) as [->|Hne].
      * rewrite decide_False by (intros [_ Hq]; done). lia.
      * rewrite decide_True; [done|]. split; [by apply elem_of_unique|congruence].
    + rewrite decide_False; [done|]. intros [Hu _].
      by apply Hc, (proj1 (elem_of_unique y c)).
Qed.

End Strategy.

Section FitResample.

Lemma mapM_app_ok {A B} (f : A → result B) (l1 l2 : list A) (k1 k2 : list B) :
  mapM f l1 = Ok k1 → mapM f l2 = Ok k2 → mapM f (l1 ++ l2) = Ok (k1 ++ k2).
Proof.
  revert k1. induction l1 as [|x l1 IH]; intros k1 H1 H2.
  - injection H1 as <-. done.
  - rewrite <- app_comm_cons, mapM_cons. rewrite mapM_cons in H1.
    destruct (f x) as [b|]; [|done]. cbn [mbind Py.result_bind] in *.
    destruct (mapM f l1) as [k|]; [|done]. cbn [mbind Py.result_bind] in *.
    injection H1 as <-. by rewrite (IH k eq_refl H2).
Qed.

(** Indexing by [range(n)] returns the array itself. *)
Lemma mapM_index_seq {A} (pre X : list A) :
  mapM (index (pre ++ X)) (seq (length pre) (length X)) = Ok X.
Proof.
  revert pre. induction X as [|x X IH]; intros pre; [done|].
  cbn [length seq]. rewrite mapM_cons.
  rewrite (index_lookup (pre ++ x :: X) (length pre) x)
    by (by rewrite lookup_app_r, Nat.sub_diag by lia).
  cbn [mbind Py.result_bind].
  specialize (IH (pre ++ [x])). rewrite <- app_assoc, length_app in IH.
  cbn [length app] in IH. rewrite Nat.add_1_r in IH. by rewrite IH.
Qed.

Lemma count_app (c : nat) (l k : list nat) :
  Training.count c (l ++ k) = Training.count c l + Training.count c k.
Proof. unfold Training.count. by rewrite filter_app, length_app. Qed.

Lemma count_labels (y : list nat) (c : nat) (idxs labels : list nat) :
  Forall2 (fun i l => y !! i = Some l) idxs labels →
  Training.count c labels = labelled y c idxs.
Proof.
  unfold Training.count, labelled.
  induction 1 as [|i l idxs labels Hi _ IH]; [done|].
  rewrite !filter_cons, Hi.
  destruct (decide (l = c)) as [->|Hne].
  - rewrite decide_True by done. simpl. by rewrite IH.
  - rewrite decide_False by congruence. done.
Qed.

(** What [fit_resample] returns: the input followed by resampled
    instances of the input, every class present brought to the size of
    the largest. *)
Lemma fit_resample_spec {A} (X : list A) (y : list nat) (r : Training.rng) :
  length X = length y →
  2 ≤ length (Training.unique y) →
  ∃ X' y' extra_X extra_y r',
    Training.fit_resample X y r = Ok (X', y', r')
    ∧ X' = X ++ extra_X ∧ y' = y ++ extra_y
    ∧ Forall2 (fun x l => ∃ i, X !! i = Some x ∧ y !! i = Some l) extra_X extra_y
    ∧ ∀ c, Training.count c y'
           = if decide (c ∈ y) then n_sample_majority y else 0.
Proof.
  intros Hlen Hu. unfold Training.fit_resample. rewrite decide_True by done.
  destruct (sampling_strategy_spec y Hu) as (strategy & Hs & Hkeys & Hreq).
  rewrite Hs. cbn [mbind Py.result_bind].
  destruct (bootstrap_spec y strategy (seq 0 (length y)) r Hkeys)
    as (extra & r' & Hb & Hlt & Hlab).
  rewrite Hb. cbn [mbind Py.result_bind].
  destruct (mapM_index_ok y extra Hlt) as (extra_y & Hey & Hey2).
  rewrite <- Hlen in Hlt.
  destruct (mapM_index_ok X extra Hlt) as (extra_X & HeX & HeX2).
  pose proof (mapM_index_seq [] X) as HX. pose proof (mapM_index_seq [] y) as Hy.
  cbn [app length] in HX, Hy. rewrite Hlen in HX.
  rewrite (mapM_app_ok _ _ _ _ _ HX HeX). cbn [mbind Py.result_bind].
  rewrite (mapM_app_ok _ _ _ _ _ Hy Hey). cbn [mbind Py.result_bind].
  exists (X ++ extra_X), (y ++ extra_y), extra_X, extra_y, r'.
  split; [done|]. split; [done|]. split; [done|]. split.
  - clear -HeX2 Hey2. revert extra_y Hey2.
    induction HeX2 as [|i x extra extra_X Hx _ IH]; intros extra_y Hey2.
    + apply Forall2_nil_inv_l in Hey2 as ->. constructor.
    + apply Forall2_cons_inv_l in Hey2 as (l & extra_y' & Hl & Hey2 & ->).
      constructor; [eauto|]. by apply IH.
  - intros c. rewrite count_app, (count_labels y c extra extra_y Hey2), Hlab, Hreq.
    pose proof (count_le_majority y c).
    destruct (decide (c ∈ y)) as [Hc|Hc]; [lia|].
    assert (Training.count c y = 0) as ->; [|done].
    unfold Training.count. clear -Hc. induction y as [|x y IH]; [done|].
    rewrite filter_cons. apply not_elem_of_cons in Hc as [Hne Hc].
    rewrite decide_False by done. by apply IH.
Qed.

End FitResample.

(** ** Dataset assembly *)

Section AssemblyFacts.

Variable open_resize : string → result image.

Lemma length_concat_rows (rows : list image) (n : nat) :
  Forall (fun row => length row = n) rows →
  length (concat rows) = length rows * n.
Proof.
  induction 1 as [|row rows Hrow _ IH]; [done|].
  cbn [concat length]. rewrite length_app, IH, Hrow. lia.
Qed.

Lemma reshape_concat (rows : list image) (n : nat) :
  Forall (fun row => length row = n) rows →
  reshape (replicate (length rows) n) (concat rows) = rows.
Proof.
  induction 1 as [|row rows Hrow _ IH]; [done|].
  cbn [concat length replicate reshape].
  rewrite take_app_length', drop_app_length' by done. by rewrite IH.
Qed.

(** Rows of 28*28*3 values pass through the reshape unchanged. *)
Lemma reshape_images_rows (rows : list image) :
  Forall (fun row => length row = Training.pixels_per_image) rows →
  Training.reshape_images rows = Ok rows.
Proof.
  intros Hrows. unfold Training.reshape_images. cbv zeta.
  rewrite (length_concat_rows rows _ Hrows).
  rewrite decide_True by (apply Nat.Div0.mod_mul).
  rewrite Nat.div_mul by (unfold Training.pixels_per_image; lia).
  by rewrite reshape_concat.
Qed.

Lemma load_non_cancer_spec (files : list string) (imgs acc_d : list image)
    (acc_l : list nat) :
  mapM open_resize files = Ok imgs →
  Training.load_non_cancer open_resize files acc_d acc_l
  = Ok (acc_d ++ imgs, acc_l ++ replicate (length files) 7).
Proof.
  revert imgs acc_d acc_l. induction files as [|f files IH]; intros imgs acc_d acc_l.
  - intros [= <-]. by rewrite !app_nil_r.
  - rewrite mapM_cons. cbn [Training.load_non_cancer].
    destruct (open_resize f) as [img|]; [|done]. cbn [mbind Py.result_bind].
    destruct (mapM open_resize files) as [imgs'|] eqn:Hm; [|done].
    cbn [mbind Py.result_bind mret Py.result_ret]. intros [= <-].
    rewrite (IH imgs' _ _ eq_refl), <- !app_assoc. reflexivity.
Qed.

Lemma foldl_snoc {A} (l xs : list A) :
  foldl (fun acc x => acc ++ [x]) l xs = l ++ xs.
Proof.
  revert l. induction xs as [|x xs IH]; intros l; [by rewrite app_nil_r|].
  cbn [foldl]. by rewrite IH, <- app_assoc.
Qed.

Lemma max_list_bound (n : nat) (l : list nat) :
  Forall (fun x => x ≤ n) l → max_list l ≤ n.
Proof. induction 1 as [|x l Hx _ IH]; simpl; lia. Qed.

(** A label column holding exactly the seven tabular classes. *)
Lemma unique_seven (y : list nat) :
  Forall (fun l => l < 7) y → (∀ c, c < 7 → c ∈ y) →
  Training.unique y = seq 0 7.
Proof.
  intros Hlt Hall. unfold Training.unique.
  assert (max_list y = 6) as ->.
  { apply Nat.le_antisymm.
    - apply max_list_bound. eapply Forall_impl; [exact Hlt|]. simpl. lia.
    - apply max_list_elem_of_le, Hall. lia. }
  apply filter_all, Forall_forall. intros c Hc%elem_of_seq. apply Hall. lia.
Qed.

Lemma count_replicate_other (c k n : nat) :
  c ≠ k → Training.count c (replicate n k) = 0.
Proof.
  intros Hne. unfold Training.count. induction n as [|n IH]; [done|].
  cbn [replicate]. rewrite filter_cons, decide_False by done. exact IH.
Qed.

Lemma count_replicate_same (k n : nat) : Training.count k (replicate n k) = n.
Proof.
  unfold Training.count. induction n as [|n IH]; [done|].
  cbn [replicate]. rewrite filter_cons, decide_True by done. simpl. by rewrite IH.
Qed.

(** C2.  For a tabular source whose label column holds exactly the seven
    classes 0..6, and a directory whose files all decode, assembly
    succeeds; the combined dataset is the tabular rows, followed by
    instances resampled from those rows, followed by the non-cancer
    images under label 7; each of the seven tabular classes ends with the
    largest pre-balancing class count, and class 7 with one instance per
    file of the directory.  For counts [100,10,5,1,1,1,1] all seven
    become 100. *)
Theorem balancing_equalises_tabular_classes
    (nc_files : list string) (nc_imgs : list image)
    (csv : list (image * nat)) (r : Training.rng) :
  Forall (fun row => length row.1 = Training.pixels_per_image) csv →
  Forall (fun row => row.2 < 7) csv →
  (∀ c, c < 7 → c ∈ csv.*2) →
  mapM open_resize nc_files = Ok nc_imgs →
  ∃ Data Label r' resampled,
    Training.assemble open_resize nc_files csv r = Ok (Data, Label, r')
    ∧ length Data = length Label
    ∧ zip Data Label
      = csv ++ resampled ++ zip nc_imgs (replicate (length nc_files) 7)
    ∧ Forall (fun instance => instance ∈ csv) resampled
    ∧ (∀ c, c < 7 → Training.count c Label = max_class_count csv.*2)
    ∧ Training.count 7 Label = length nc_files
    ∧ ((fun c => Training.count c csv.*2) <$> seq 0 7 = [100; 10; 5; 1; 1; 1; 1] →
       (fun c => Training.count c Label) <$> seq 0 7 = replicate 7 100).
Proof.
  intros Hrows Hlt Hall Hnc.
  assert (Forall (fun l => l < 7) csv.*2) as Hlt' by (by apply Forall_fmap).
  pose proof (unique_seven _ Hlt' Hall) as Hu.
  assert (length csv.*1 = length csv.*2) as Hlen by (by rewrite !length_fmap).
  destruct (fit_resample_spec csv.*1 csv.*2 r Hlen)
    as (X' & y' & extra_X & extra_y & r' & Hfit & -> & -> & Hextra & Hcount).
  { rewrite Hu. simpl. lia. }
  assert (n_sample_majority csv.*2 = max_class_count csv.*2) as Hmax.
  { unfold n_sample_majority, max_class_count. by rewrite stats_counts, Hu. }
  pose proof (Forall2_length _ _ _ Hextra) as Hlen_extra.
  assert (length nc_imgs = length nc_files) as Hlen_nc.
  { clear -Hnc. revert nc_imgs Hnc.
    induction nc_files as [|f files IH]; intros imgs; [by intros [= <-]|].
    rewrite mapM_cons. destruct (open_resize f); [|done].
    cbn [mbind Py.result_bind]. destruct (mapM open_resize files); [|done].
    cbn [mbind Py.result_bind mret Py.result_ret]. intros [= <-].
    simpl. by rewrite (IH _ eq_refl). }
  assert (Forall (fun instance => instance ∈ csv) (zip extra_X extra_y)) as Hfrom.
  { clear -Hextra. induction Hextra as [|x l eX ey (i & Hx & Hl) _ IH]; [constructor|].
    cbn [zip zip_with]. constructor; [|done].
    rewrite list_lookup_fmap in Hx. rewrite list_lookup_fmap in Hl.
    destruct (csv !! i) as [[x' l']|] eqn:Hi; [|done].
    simpl in Hx, Hl. injection Hx as <-. injection Hl as <-.
    apply list_elem_of_lookup. eauto. }
  assert (Forall (fun row => length row = Training.pixels_per_image)
            (csv.*1 ++ extra_X)) as Hrows'.
  { apply Forall_app. split; [by apply Forall_fmap|].
    apply Forall_forall. intros x Hx.
    apply list_elem_of_lookup in Hx as [k Hk].
    destruct (Forall2_lookup_l _ _ _ _ _ Hextra Hk) as (l & _ & i & Hi & _).
    rewrite list_lookup_fmap in Hi.
    destruct (csv !! i) as [[x' l']|] eqn:Hcsv; [|done].
    injection Hi as <-. rewrite Forall_forall in Hrows.
    apply (Hrows (x', l')), list_elem_of_lookup. eauto. }
  exists ((csv.*1 ++ extra_X) ++ nc_imgs),
         ((csv.*2 ++ extra_y) ++ replicate (length nc_files) 7),
         r', (zip extra_X extra_y).
  split.
  { unfold Training.assemble.
    rewrite (load_non_cancer_spec nc_files nc_imgs [] [] Hnc).
    cbn [mbind Py.result_bind app]. rewrite Hfit. cbn [mbind Py.result_bind].
    rewrite (reshape_images_rows _ Hrows'). cbn [mbind Py.result_bind].
    by rewrite !foldl_snoc. }
  split.
  { rewrite !length_app, length_replicate. lia. }
  split.
  { rewrite <- !app_assoc.
    rewrite zip_with_app by done. rewrite zip_with_app by done.
    by rewrite zip_fst_snd. }
  split; [done|]. split; [|split].
  - intros c Hc. rewrite count_app, Hcount, count_replicate_other by lia.
    rewrite decide_True by (by apply Hall). lia.
  - rewrite count_app, Hcount, count_replicate_same.
    rewrite decide_False; [done|]. intros H7.
    rewrite Forall_forall in Hlt'. specialize (Hlt' 7 H7). lia.
  - intros Hcounts.
    assert (max_class_count csv.*2 = 100) as H100
      by (unfold max_class_count; by rewrite Hcounts).
    assert (∀ c, c < 7 →
              Training.count c ((csv.*2 ++ extra_y) ++ replicate (length nc_files) 7)
              = 100) as Hc.
    { intros c Hc. rewrite count_app, Hcount, count_replicate_other by lia.
      rewrite decide_True by (by apply Hall). lia. }
    cbn [seq fmap list_fmap replicate].
    rewrite !Hc by lia. reflexivity.
Qed.

End AssemblyFacts.

Lemma balancing_equalises_tabular_classes_witness :
  ∃ Data Label r',
    Training.assemble Examples.open_black ["benign_1.jpg"] Examples.tiny_csv
      (fun k => k) = Ok (Data, Label, r')
    ∧ (∀ c, c < 7 → Training.count c Label = 2)
    ∧ Training.count 7 Label = 1.
Proof.
  destruct (balancing_equalises_tabular_classes Examples.open_black
              ["benign_1.jpg"] [replicate Training.pixels_per_image 0%Z]
              Examples.tiny_csv (fun k => k))
    as (Data & Label & r' & resampled & Hok & _ & _ & _ & Hcount & Hnc & _).
  - apply Forall_fmap, Forall_forall. intros c _. apply length_replicate.
  - apply Forall_fmap. repeat constructor; simpl; lia.
  - intros c Hc. change ((Examples.tiny_csv).*2) with [0; 0; 1; 2; 3; 4; 5; 6].
    do 7 (destruct c as [|c]; [set_solver|]). lia.
  - reflexivity.
  - exists Data, Label, r'. split; [exact Hok|]. split; [|exact Hnc].
    intros c Hc. rewrite (Hcount c Hc). reflexivity.
Defined.

(** * Further properties of the code *)

(** ** Generated file names *)

Section UniqueNames.

Lemma append_assoc (a b c : string) : (a +:+ b) +:+ c = a +:+ b +:+ c.
Proof.
  induction a as [|x a IH]; [done|].
  rewrite !append_cons. by rewrite IH.
Qed.

Lemma length_append (a b : string) :
  String.length (a +:+ b) = String.length a + String.length b.
Proof.
  induction a as [|x a IH]; [done|].
  rewrite append_cons. simpl. by rewrite IH.
Qed.

Lemma append_cancel_r (a a' s : string) : a +:+ s = a' +:+ s → a = a'.
Proof.
  revert a'. induction a as [|x a IH]; intros [|x' a'] H; [done| | |].
  - apply (f_equal String.length) in H.
    rewrite append_nil, append_cons in H. simpl in H.
    rewrite length_append in H. lia.
  - apply (f_equal String.length) in H.
    rewrite append_nil, append_cons in H. simpl in H.
    rewrite length_append in H. lia.
  - rewrite !append_cons in H. injection H as -> H. by rewrite (IH a' H).
Qed.

Lemma append_same_length (a a' b b' : string) :
  String.length a = String.length a' → a +:+ b = a' +:+ b' → a = a' ∧ b = b'.
Proof.
  revert a'. induction a as [|x a IH]; intros [|x' a'] Hlen H; try done.
  rewrite !append_cons in H. injection H as -> H. injection Hlen as Hlen.
  destruct (IH a' Hlen H) as [-> ->]. done.
Qed.

Lemma contains_of_rpartition (sep : ascii) (s : string) (ab : string * string) :
  rpartition sep s = Some ab → contains sep s = true.
Proof.
  intros Hr. destruct (contains sep s) eqn:Hc; [done|].
  apply (proj2 (rpartition_none sep s)) in Hc. congruence.
Qed.

(** The name is [timestamp_uuid.ext]; [ext] has no dot and is the
    lowercased extension of the original name, or [jpg] without one. *)
Lemma generate_unique_filename_shape (original unique_id timestamp : string) :
  ∃ ext,
    Api.generate_unique_filename original unique_id timestamp
    = Ok ((timestamp +:+ "_" +:+ unique_id) +:+ String Api.dot ext)
    ∧ contains Api.dot ext = false
    ∧ match rpartition Api.dot original with
      | Some (_, e) => ext = lower e
      | None => ext = "jpg"
      end.
Proof.
  unfold Api.generate_unique_filename, rsplit1.
  destruct (rpartition Api.dot original) as [[a b]|] eqn:Hr.
  - rewrite (contains_of_rpartition _ _ _ Hr).
    exists (lower b). cbn [index lookup list_lookup mbind Py.result_bind].
    rewrite !append_assoc. split; [done|]. split; [|done].
    rewrite contains_lower. by apply rpartition_sound in Hr as [_ Hb].
  - rewrite (proj1 (rpartition_none _ _) Hr). exists "jpg".
    cbn [mbind Py.result_bind]. rewrite !append_assoc. done.
Qed.

(** X1.  A generated name always passes the extension check when the
    original name has no dot (it gets [.jpg]), and otherwise gets the same
    verdict as the original name. *)
Theorem unique_filename_keeps_extension_verdict
    (original unique_id timestamp : string) :
  ∃ name,
    Api.generate_unique_filename original unique_id timestamp = Ok name
    ∧ Api.allowed_file name
      = if contains Api.dot original then Api.allowed_file original else Ok true.
Proof.
  destruct (generate_unique_filename_shape original unique_id timestamp)
    as (ext & Hname & Hext & Hshape).
  eexists. split; [exact Hname|].
  pose proof (rpartition_complete Api.dot (timestamp +:+ "_" +:+ unique_id) ext Hext)
    as Hr.
  pose proof (contains_of_rpartition _ _ _ Hr) as Hc.
  unfold Api.allowed_file at 1, rsplit1. rewrite Hc, Hr.
  cbn [index lookup list_lookup mbind Py.result_bind].
  destruct (rpartition Api.dot original) as [[a b]|] eqn:Ho.
  - subst ext. unfold Api.allowed_file, rsplit1.
    rewrite (contains_of_rpartition _ _ _ Ho), Ho. cbn [index lookup list_lookup mbind Py.result_bind].
    by rewrite lower_idempotent.
  - rewrite (proj1 (rpartition_none _ _) Ho). subst ext. reflexivity.
Qed.

(** X2.  Two requests whose timestamps have the same length get different
    names as soon as their timestamp or their uuid differs. *)
Theorem unique_filename_is_collision_free
    (original original' u u' t t' name name' : string) :
  String.length t = String.length t' →
  (t, u) ≠ (t', u') →
  Api.generate_unique_filename original u t = Ok name →
  Api.generate_unique_filename original' u' t' = Ok name' →
  name ≠ name'.
Proof.
  intros Hlen Hne Hn Hn' ->.
  destruct (generate_unique_filename_shape original u t) as (ext & He & Hext & _).
  destruct (generate_unique_filename_shape original' u' t') as (ext' & He' & Hext' & _).
  rewrite Hn in He. rewrite Hn' in He'. injection He as He. rewrite He in He'.
  injection He' as He'.
  pose proof (rpartition_complete Api.dot (t +:+ "_" +:+ u) ext Hext) as H1.
  pose proof (rpartition_complete Api.dot (t' +:+ "_" +:+ u') ext' Hext') as H2.
  rewrite He' in H1. rewrite H1 in H2. injection H2 as H2 _.
  destruct (append_same_length t t' _ _ Hlen H2) as [-> H3].
  rewrite !append_cons, !append_nil in H3. injection H3 as ->. by apply Hne.
Qed.

End UniqueNames.

Lemma unique_filename_is_collision_free_witness :
  ∃ name name',
    Api.generate_unique_filename "scan.png" "uuid-a" "20240101_120000" = Ok name
    ∧ Api.generate_unique_filename "scan.png" "uuid-b" "20240101_120000" = Ok name'
    ∧ bool_decide (name = name') = false.
Proof.
  eexists _, _. split; [reflexivity|]. split; [reflexivity|].
  apply bool_decide_eq_false.
  apply (unique_filename_is_collision_free "scan.png" "scan.png" "uuid-a" "uuid-b"
           "20240101_120000" "20240101_120000"); try reflexivity.
  discriminate.
Defined.

(** ** Outcomes of the analyze operation *)

Section AnalyzeOutcomes.

Variable secure_filename : string → string.
Variable load_img : string → nat * nat → result image.

Local Abbreviation handle := (Api.handle secure_filename load_img).
Local Abbreviation serve := (Api.serve secure_filename load_img).
Local Abbreviation analyze := (Api.analyze secure_filename load_img).

(** A stored upload that decodes is classified, whatever the weights. *)
Lemma analyze_image_try_ok (st : Api.state) (path bytes : string) (img : image)
    (m : ModelArtifact) :
  Api.uploads st !! path = Some bytes →
  load_img bytes (Api.IMG_WIDTH, Api.IMG_HEIGHT) = Ok img →
  Api.model st = Some m →
  ∃ p, Api.analyze_image_try load_img st path = Ok p
    ∧ argmax (forward m (img_to_array img)) = Ok (Api.diagnosis_class p)
    ∧ Api.CANCER_CLASSES !! Api.diagnosis_class p = Some (Api.diagnosis p).
Proof.
  intros Hup Himg Hm.
  destruct (forward_distribution m (img_to_array img)) as (Hlen & _ & _).
  set (row := forward m (img_to_array img)) in *.
  assert (row ≠ []) as Hne by (intros E; by rewrite E in Hlen).
  destruct (argmax_amax row Hne) as (k & mx & Hk & Hmx & Hat & _ & _).
  assert (k < 8) as Hk8 by (apply lookup_lt_Some in Hat; lia).
  destruct (fill_probabilities_eight row Hlen) as (probs & Hfill & _ & _).
  assert (∃ info name, Api.getitem Api.CANCER_INFO k = Ok info
                       ∧ Api.CANCER_CLASSES !! k = Some name)
    as (info & name & Hinfo & Hname).
  { clear -Hk8. do 8 (destruct k as [|k]; [do 2 eexists; split; reflexivity|]). lia. }
  eexists. split; [|split].
  - unfold Api.analyze_image_try. rewrite Hup, Hm.
    cbn [from_option mbind Py.result_bind]. rewrite Himg.
    cbn [mbind Py.result_bind]. rewrite (predict_preprocess m img).
    fold row. cbn [concat]. rewrite app_nil_r, Hk.
    cbn [mbind Py.result_bind]. rewrite Hmx.
    cbn [mbind Py.result_bind index lookup list_lookup]. rewrite Hfill.
    cbn [mbind Py.result_bind]. rewrite Hinfo.
    cbn [mbind Py.result_bind]. rewrite Hname. reflexivity.
  - done.
  - done.
Qed.

(** An upload whose bytes do not decode ends the [try] block with the
    decoder's exception. *)
Lemma analyze_image_try_undecodable (st : Api.state) (path bytes : string) (e : exn) :
  Api.uploads st !! path = Some bytes →
  load_img bytes (Api.IMG_WIDTH, Api.IMG_HEIGHT) = Raise e →
  Api.analyze_image_try load_img st path = Raise e.
Proof.
  intros Hup Himg. unfold Api.analyze_image_try. rewrite Hup.
  cbn [from_option mbind Py.result_bind]. by rewrite Himg.
Qed.

(** X3.  An accepted upload that decodes is answered 200 with the
    generated name, the sanitised original name and the retrieval URL; the
    uploaded bytes are stored under the generated name, every other file
    is as before, and fetching the generated name returns those bytes. *)
Theorem analyze_stores_accepted_upload
    (files : gmap string Api.upload) (file : Api.upload) (m : ModelArtifact)
    (uuid4 now upload_now unique : string) (img : image) (st : Api.state) :
  Api.model st = Some m →
  files !! "file" = Some file →
  Api.filename file ≠ "" →
  Api.allowed_file (Api.filename file) = Ok true →
  Api.generate_unique_filename (secure_filename (Api.filename file)) uuid4 now
  = Ok unique →
  load_img (Api.content file) (Api.IMG_WIDTH, Api.IMG_HEIGHT) = Ok img →
  ∃ p st',
    analyze files uuid4 now upload_now st
    = ({| Api.status_code := 200;
          Api.payload := Api.JsonAnalysis p
            {| Api.i_filename := unique;
               Api.original_filename := secure_filename (Api.filename file);
               Api.url := "/api/images/" +:+ unique;
               Api.upload_time := upload_now |} |}, st')
    ∧ argmax (forward m (img_to_array img)) = Ok (Api.diagnosis_class p)
    ∧ Api.uploads st' = <[unique := Api.content file]> (Api.uploads st)
    ∧ Api.get_image unique st'
      = ({| Api.status_code := 200;
            Api.payload := Api.FileContent (Api.content file) |}, st').
Proof.
  intros Hm Hfile Hname Hext Hunique Himg.
  set (st2 := Api.emit (Api.EvDecode unique)
                (Api.emit (Api.EvLog ("File saved: " +:+ unique))
                   (Api.write_file unique (Api.content file) st))).
  assert (Api.uploads st2 !! unique = Some (Api.content file)) as Hup
    by apply lookup_insert_eq.
  destruct (analyze_image_try_ok st2 unique _ img m Hup Himg Hm) as (p & Hp & Hk & _).
  exists p, (Api.emit Api.EvPredict st2).
  split; [|split; [done|split; [done|]]].
  - unfold Api.analyze. rewrite Hm, Hfile, Hext, Hunique.
    rewrite decide_False by done.
    unfold Api.analyze_image. fold st2. rewrite Hp. reflexivity.
  - unfold Api.get_image. cbn [Api.emit Api.uploads]. fold st2. by rewrite Hup.
Qed.

(** X4.  An accepted upload that fails to decode is answered 500 with the
    decoder's message, and the file written for it is removed again: no
    file of the generated name is left, and fetching it gives 404. *)
Theorem analyze_removes_undecodable_upload
    (files : gmap string Api.upload) (file : Api.upload) (m : ModelArtifact)
    (uuid4 now upload_now unique : string) (e : exn) (st : Api.state) :
  Api.model st = Some m →
  files !! "file" = Some file →
  Api.filename file ≠ "" →
  Api.allowed_file (Api.filename file) = Ok true →
  Api.generate_unique_filename (secure_filename (Api.filename file)) uuid4 now
  = Ok unique →
  load_img (Api.content file) (Api.IMG_WIDTH, Api.IMG_HEIGHT) = Raise e →
  ∃ st',
    analyze files uuid4 now upload_now st
    = (Api.bad 500 ("Image analysis failed: " +:+ Api.str e), st')
    ∧ Api.uploads st' = delete unique (Api.uploads st)
    ∧ Api.uploads st' !! unique = None
    ∧ Api.status_code (Api.get_image unique st').1 = 404
    ∧ Api.EvPredict ∉ drop (length (Api.trace st)) (Api.trace st').
Proof.
  intros Hm Hfile Hname Hext Hunique Himg.
  set (st2 := Api.emit (Api.EvDecode unique)
                (Api.emit (Api.EvLog ("File saved: " +:+ unique))
                   (Api.write_file unique (Api.content file) st))).
  assert (Api.uploads st2 !! unique = Some (Api.content file)) as Hup
    by apply lookup_insert_eq.
  pose proof (analyze_image_try_undecodable st2 unique _ e Hup Himg) as Hp.
  eexists. split; [|split; [|split; [|split]]].
  - unfold Api.analyze. rewrite Hm, Hfile, Hext, Hunique.
    rewrite decide_False by done.
    unfold Api.analyze_image. fold st2. rewrite Hp.
    cbn [Api.emit Api.uploads]. fold st2. rewrite Hup. reflexivity.
  - cbn [Api.remove_file Api.emit Api.write_file Api.uploads].
    apply delete_insert_eq.
  - cbn [Api.remove_file Api.emit Api.write_file Api.uploads].
    apply lookup_delete_eq.
  - unfold Api.get_image.
    cbn [Api.remove_file Api.emit Api.write_file Api.uploads].
    by rewrite lookup_delete_eq.
  - unfold st2. cbn [Api.remove_file Api.emit Api.write_file Api.trace].
    rewrite <- !app_assoc, drop_app_length. cbn [app].
    rewrite !elem_of_cons, elem_of_nil. intros [?|[?|[?|[?|[?|?]]]]]; done.
Qed.

End AnalyzeOutcomes.

Lemma analyze_stores_accepted_upload_witness :
  ∃ p st',
    Api.analyze Examples.identity_name Examples.black_pixel
      {[ "file" := Examples.scan_png ]} "id" "t0" "t1" Examples.ready
    = ({| Api.status_code := 200;
          Api.payload := Api.JsonAnalysis p
            {| Api.i_filename := "t0_id.png";
               Api.original_filename := "scan.png";
               Api.url := "/api/images/t0_id.png";
               Api.upload_time := "t1" |} |}, st')
    ∧ argmax (forward Examples.flat_model (img_to_array [0%Z; 0%Z; 0%Z]))
      = Ok (Api.diagnosis_class p)
    ∧ Api.uploads st' = <[ "t0_id.png" := "bytes" ]> (Api.uploads Examples.ready)
    ∧ Api.get_image "t0_id.png" st'
      = ({| Api.status_code := 200; Api.payload := Api.FileContent "bytes" |}, st').
Proof.
  apply (analyze_stores_accepted_upload Examples.identity_name Examples.black_pixel
           {[ "file" := Examples.scan_png ]} Examples.scan_png Examples.flat_model
           "id" "t0" "t1" "t0_id.png" [0%Z; 0%Z; 0%Z] Examples.ready).
  - reflexivity.
  - reflexivity.
  - discriminate.
  - reflexivity.
  - reflexivity.
  - reflexivity.
Defined.

Lemma analyze_removes_undecodable_upload_witness :
  ∃ st',
    Api.analyze Examples.identity_name Examples.unreadable
      {[ "file" := Examples.scan_png ]} "id" "t0" "t1" Examples.ready
    = (Api.bad 500 ("Image analysis failed: "
                    +:+ Api.str (OSError "cannot identify image file")), st')
    ∧ Api.uploads st' = delete "t0_id.png" (Api.uploads Examples.ready)
    ∧ Api.uploads st' !! "t0_id.png" = None
    ∧ Api.status_code (Api.get_image "t0_id.png" st').1 = 404
    ∧ Api.EvPredict ∉ drop (length (Api.trace Examples.ready)) (Api.trace st').
Proof.
  apply (analyze_removes_undecodable_upload Examples.identity_name Examples.unreadable
           {[ "file" := Examples.scan_png ]} Examples.scan_png Examples.flat_model
           "id" "t0" "t1" "t0_id.png" (OSError "cannot identify image file")
           Examples.ready).
  - reflexivity.
  - reflexivity.
  - discriminate.
  - reflexivity.
  - reflexivity.
  - reflexivity.
Defined.

(** ** What serving does to the upload directory *)

Section ServiceInvariants.

Variable secure_filename : string → string.
Variable load_img : string → nat * nat → result image.

Local Abbreviation handle := (Api.handle secure_filename load_img).
Local Abbreviation serve := (Api.serve secure_filename load_img).
Local Abbreviation analyze := (Api.analyze secure_filename load_img).

(** Every way [analyze] can leave the upload directory. *)
Lemma analyze_uploads (files : gmap string Api.upload)
    (uuid4 now upload_now : string) (st : Api.state) :
  (Api.uploads (analyze files uuid4 now upload_now st).2 = Api.uploads st
   ∧ is_analysis (analyze files uuid4 now upload_now st).1 = false)
  ∨ ∃ file unique,
      files !! "file" = Some file
      ∧ Api.generate_unique_filename (secure_filename (Api.filename file)) uuid4 now
        = Ok unique
      ∧ ((Api.uploads (analyze files uuid4 now upload_now st).2
          = <[unique := Api.content file]> (Api.uploads st)
          ∧ is_analysis (analyze files uuid4 now upload_now st).1 = true)
         ∨ (Api.uploads (analyze files uuid4 now upload_now st).2
            = delete unique (Api.uploads st)
            ∧ is_analysis (analyze files uuid4 now upload_now st).1 = false)).
Proof.
  unfold Api.analyze.
  destruct (Api.model st) as [m|]; [|by left].
  destruct (files !! "file") as [file|] eqn:Hfile; [|by left].
  destruct (decide (Api.filename file = "")); [by left|].
  destruct (Api.allowed_file (Api.filename file)) as [[]|]; try by left.
  destruct (Api.generate_unique_filename _ uuid4 now) as [unique|] eqn:Hu; [|by left].
  right. exists file, unique. split; [done|]. split; [done|].
  unfold Api.analyze_image.
  destruct (Api.analyze_image_try load_img _ unique) as [p|e].
  - left. done.
  - right. cbn [Api.emit Api.write_file Api.uploads fst snd].
    rewrite lookup_insert_eq. cbn [Api.remove_file Api.uploads snd fst Api.bad
                                   is_analysis Api.payload].
    split; [|done]. apply delete_insert_eq.
Qed.

Lemma handle_uploads (req : Api.request) (st : Api.state) :
  is_upload req = false → Api.uploads (handle req st).2 = Api.uploads st
                          ∧ is_analysis (handle req st).1 = false.
Proof.
  destruct req as [now|files uuid4 now upload_now|name|]; try done.
  intros _. simpl. unfold Api.get_image. by destruct (Api.uploads st !! name).
Qed.

(** X5.  A failed analysis never leaves a file behind: after any
    sequence of requests the upload directory holds at most one more file
    per upload that was answered with an analysis. *)
Theorem serve_leaves_no_orphans (reqs : list Api.request) (st : Api.state) :
  size (Api.uploads (serve reqs st).2)
  ≤ size (Api.uploads st) + analyses (serve reqs st).1.
Proof.
  revert st. induction reqs as [|req reqs IH]; intros st; [simpl; lia|].
  cbn [Api.serve].
  assert (size (Api.uploads (handle req st).2)
          ≤ size (Api.uploads st)
            + (if is_analysis (handle req st).1 then 1 else 0)) as Hstep.
  { destruct (is_upload req) eqn:Hreq.
    - destruct req as [|files uuid4 now upload_now| |]; try done.
      cbn [Api.handle].
      destruct (analyze_uploads files uuid4 now upload_now st)
        as [[-> ->]|(file & unique & _ & _ & [[-> ->]|[-> ->]])].
      + lia.
      + rewrite map_size_insert. destruct (Api.uploads st !! unique); simpl; lia.
      + rewrite map_size_delete. destruct (Api.uploads st !! unique); simpl; lia.
    - destruct (handle_uploads req st Hreq) as [-> ->]. lia. }
  destruct (handle req st) as [r st1]. specialize (IH st1).
  destruct (serve reqs st1) as [rs st2]. cbn [fst snd] in *.
  unfold analyses in *. rewrite filter_cons.
  destruct (is_analysis r); [rewrite decide_True by done|rewrite decide_False by done];
    simpl; lia.
Qed.

(** X6.  An upload request touches at most the file of the name generated
    for it: every other name holds after the request what it held
    before. *)
Theorem analyze_touches_only_generated_name
    (files : gmap string Api.upload) (uuid4 now upload_now name : string)
    (st : Api.state) :
  (∀ file, files !! "file" = Some file →
     Api.generate_unique_filename (secure_filename (Api.filename file)) uuid4 now
     ≠ Ok name) →
  Api.uploads (analyze files uuid4 now upload_now st).2 !! name
  = Api.uploads st !! name.
Proof.
  intros Hname.
  destruct (analyze_uploads files uuid4 now upload_now st)
    as [[-> _]|(file & unique & Hfile & Hu & [[-> _]|[-> _]])]; [done| |].
  - apply lookup_insert_ne. intros ->. by apply (Hname file Hfile).
  - apply lookup_delete_ne. intros ->. by apply (Hname file Hfile).
Qed.

(** X7.  While no model is loaded every upload is answered 503, and no
    request of any kind changes the process state. *)
Theorem unloaded_service_refuses_every_upload
    (reqs : list Api.request) (st : Api.state) :
  Api.model st = None →
  (serve reqs st).2 = st
  ∧ Forall2 (fun req r =>
               is_upload req = true →
               r = Api.bad 503 "Model not loaded. Please contact administrator.")
            reqs (serve reqs st).1.
Proof.
  intros Hm. induction reqs as [|req reqs [IH1 IH2]]; [by split; [|constructor]|].
  cbn [Api.serve].
  assert ((handle req st).2 = st
          ∧ (is_upload req = true →
             (handle req st).1
             = Api.bad 503 "Model not loaded. Please contact administrator."))
    as [Hst Hr].
  { destruct req as [now|files uuid4 now upload_now|name|]; cbn [Api.handle is_upload].
    - done.
    - unfold Api.analyze. by rewrite Hm.
    - unfold Api.get_image. by destruct (Api.uploads st !! name).
    - done. }
  destruct (handle req st) as [r st1]. cbn [fst snd] in *. subst st1.
  destruct (serve reqs st) as [rs st2]. cbn [fst snd] in *.
  split; [done|]. by constructor.
Qed.

(** X8.  When [load_model] succeeds but [compile] raises, [load_ml_model]
    reports failure although the global is already set: from then on the
    health check says a model is loaded and an upload request is no
    longer answered 503. *)
Theorem failed_compile_leaves_model_set
    (m : ModelArtifact) (msg now : string) (dir : gmap string string)
    (reqs : list Api.request) :
  (Api.load_ml_model (CompileFails m msg) (Api.boot dir)).1 = false
  ∧ Api.model (serve reqs (Api.main (CompileFails m msg) dir)).2 = Some m
  ∧ (handle (Api.GetHealth now) (serve reqs (Api.main (CompileFails m msg) dir)).2).1
    = {| Api.status_code := 200;
         Api.payload := Api.JsonHealth "healthy" true now "1.0.0" |}
  ∧ (analyze ∅ "id" now now (serve reqs (Api.main (CompileFails m msg) dir)).2).1
    = Api.bad 400 "No file provided. Please upload an image.".
Proof.
  destruct (serve_model secure_filename load_img reqs
              (Api.main (CompileFails m msg) dir)) as [Hm _].
  change (Api.model (Api.main (CompileFails m msg) dir)) with (Some m) in Hm.
  split; [done|]. split; [done|]. split.
  - simpl. unfold Api.health_check. by rewrite Hm.
  - unfold Api.analyze. by rewrite Hm.
Qed.

End ServiceInvariants.

Lemma analyze_touches_only_generated_name_witness :
  Api.uploads (Api.analyze Examples.identity_name Examples.black_pixel
                 {[ "file" := Examples.scan_png ]} "id" "t0" "t1"
                 (Api.main (Loaded Examples.flat_model) {[ "old.png" := "old bytes" ]})).2
    !! "old.png"
  = Api.uploads (Api.main (Loaded Examples.flat_model) {[ "old.png" := "old bytes" ]})
    !! "old.png".
Proof.
  apply (analyze_touches_only_generated_name Examples.identity_name Examples.black_pixel
           {[ "file" := Examples.scan_png ]} "id" "t0" "t1" "old.png").
  intros file Hfile.
  assert (file = Examples.scan_png) as ->.
  { rewrite lookup_singleton_eq in Hfile. by injection Hfile. }
  discriminate.
Defined.

Lemma unloaded_service_refuses_every_upload_witness :
  (Api.serve Examples.identity_name Examples.black_pixel
     [Api.PostAnalyze {[ "file" := Examples.scan_png ]} "id" "t0" "t1";
      Api.GetImage "t0_id.png"]
     (Api.main (LoadFails "no such file") ∅)).2
  = Api.main (LoadFails "no such file") ∅
  ∧ Forall2 (fun req r =>
               is_upload req = true →
               r = Api.bad 503 "Model not loaded. Please contact administrator.")
      [Api.PostAnalyze {[ "file" := Examples.scan_png ]} "id" "t0" "t1";
       Api.GetImage "t0_id.png"]
      (Api.serve Examples.identity_name Examples.black_pixel
         [Api.PostAnalyze {[ "file" := Examples.scan_png ]} "id" "t0" "t1";
          Api.GetImage "t0_id.png"]
         (Api.main (LoadFails "no such file") ∅)).1.
Proof.
  apply (unloaded_service_refuses_every_upload Examples.identity_name
           Examples.black_pixel).
  reflexivity.
Defined.

(** ** The older service: what a POST leaves behind *)

Section LegacyOutcomes.

Variable pil_open : string → result image.
Variable pil_save : string → image → LegacyApp.save_outcome.
Variable load_img : string → nat * nat → result image.

Local Abbreviation q2_post := (LegacyApp.q2_post pil_open pil_save load_img).
Local Abbreviation q2_post_run := (LegacyEffects.q2_post_run pil_open pil_save load_img).



(** X10.  With the artifact on disk and an upload that PIL opens and
    writes back under the client's file name, and that then decodes, a
    POST is answered with the name of one of the eight classes, never
    'Unknown'; and the JSON service, given the same artifact and the same
    decoded image, reports the same class id, under a name that differs
    at most in letter case. *)
Theorem q2_diagnosis_agrees_with_api
    (m : ModelArtifact) (files : gmap string LegacyApp.upload)
    (file : LegacyApp.upload) (image4 img : image) (resaved : string)
    (st : LegacyApp.state) :
  files !! "file" = Some file →
  pil_open (LegacyApp.content file) = Ok image4 →
  pil_save (LegacyApp.filename file) image4 = LegacyApp.Saved resaved →
  load_img resaved (28, 28) = Ok img →
  ∃ r st' k name,
    q2_post (Loaded m) files st = Ok (r, st')
    ∧ argmax (forward m (img_to_array img)) = Ok k
    ∧ k < 8
    ∧ LegacyApp.cancer_classes !! k = Some name
    ∧ LegacyApp.diagnosis r = Some name
    ∧ name ≠ "Unknown"
    ∧ LegacyApp.shown_file r = Some (LegacyApp.filename file)
    ∧ ∀ (api_load_img : string → nat * nat → result image) (ast : Api.state)
        (path bytes : string) (p : Api.prediction),
        Api.uploads ast !! path = Some bytes →
        api_load_img bytes (Api.IMG_WIDTH, Api.IMG_HEIGHT) = Ok img →
        Api.model ast = Some m →
        Api.analyze_image_try api_load_img ast path = Ok p →
        Api.diagnosis_class p = k ∧ lower (Api.diagnosis p) = lower name.
Proof.
  intros Hfile Hopen Hsave Himg.
  destruct (forward_distribution m (img_to_array img)) as (Hlen & _ & _).
  assert (forward m (img_to_array img) ≠ []) as Hne
    by (intros E; by rewrite E in Hlen).
  destruct (argmax_amax _ Hne) as (k & mx & Hk & _ & Hat & _ & _).
  assert (k < 8) as Hk8 by (apply lookup_lt_Some in Hat; lia).
  assert (∃ name, LegacyApp.cancer_classes !! k = Some name ∧ name ≠ "Unknown"
                  ∧ ∀ api_name, Api.CANCER_CLASSES !! k = Some api_name →
                                lower api_name = lower name)
    as (name & Hname & Hunknown & Hcase).
  { clear -Hk8.
    do 8 (destruct k as [|k];
          [eexists; split; [reflexivity|]; split; [discriminate|];
           intros api_name [= <-]; reflexivity|]).
    lia. }
  eexists _, _, k, name. split.
  { unfold LegacyApp.q2_post. rewrite Hfile.
    cbn [from_option mbind Py.result_bind]. rewrite Hopen.
    cbn [mbind Py.result_bind]. rewrite Hsave.
    cbn [mbind Py.result_bind]. rewrite Himg.
    cbn [mbind Py.result_bind]. cbv zeta.
    change (predict m (vstack [expand_dims (img_to_array img)]))
      with [forward m (img_to_array img)].
    cbn [concat]. rewrite app_nil_r, Hk. cbn [mbind Py.result_bind]. reflexivity. }
  split; [done|]. split; [done|]. split; [done|].
  cbn [LegacyApp.diagnosis LegacyApp.shown_file]. rewrite Hname.
  split; [done|]. split; [done|]. split; [done|].
  intros api_load_img ast path bytes p Hup Hdec Hm Hp.
  destruct (analyze_image_try_ok api_load_img ast path bytes img m Hup Hdec Hm)
    as (p' & Hp' & Hk' & Hn').
  rewrite Hp in Hp'. injection Hp' as <-.
  rewrite Hk in Hk'. injection Hk' as ->.
  split; [done|]. by apply Hcase.
Qed.

End LegacyOutcomes.


Lemma q2_diagnosis_agrees_with_api_witness :
  ∃ r st' k name,
    LegacyApp.q2_post Examples.pil_open_black Examples.pil_save_png Examples.black_pixel
      (Loaded Examples.flat_model) {[ "file" := Examples.legacy_scan_png ]}
      {| LegacyApp.uploads := ∅; LegacyApp.trace := [] |} = Ok (r, st')
    ∧ k < 8
    ∧ LegacyApp.cancer_classes !! k = Some name
    ∧ LegacyApp.diagnosis r = Some name.
Proof.
  destruct (q2_diagnosis_agrees_with_api Examples.pil_open_black Examples.pil_save_png
              Examples.black_pixel Examples.flat_model
              {[ "file" := Examples.legacy_scan_png ]} Examples.legacy_scan_png
              [0%Z; 0%Z; 0%Z] [0%Z; 0%Z; 0%Z] "png bytes"
              {| LegacyApp.uploads := ∅; LegacyApp.trace := [] |})
    as (r & st' & k & name & Hr & _ & Hk & Hname & Hd & _).
  - reflexivity.
  - reflexivity.
  - reflexivity.
  - reflexivity.
  - exists r, st', k, name. repeat split; assumption.
Defined.

(** ** One-hot labels *)

Section OneHot.

Local Open Scope R_scope.

Lemma sum_indicator (k a n : nat) :
  Np.sum ((fun j => if decide (j = k) then 1 else 0) <$> seq a n)
  = if decide (a ≤ k < a + n)%nat then 1 else 0.
Proof.
  revert a. induction n as [|n IH]; intros a.
  - simpl. rewrite decide_False by lia. done.
  - cbn [seq]. rewrite fmap_cons, sum_cons, IH.
    repeat case_decide; try lra; lia.
Qed.

Lemma to_categorical_ok (y : list nat) (y_cat : list (list R)) :
  Training.to_categorical y = Ok y_cat →
  y ≠ [] ∧ y_cat = Training.one_hot (S (max_list y)) <$> y.
Proof. destruct y; [done|]. intros [= <-]. done. Qed.

(** X11.  [to_categorical] raises on an empty label array; otherwise it
    returns one row per label, each of width max+1 and summing to 1, and
    [argmax] along the rows gives the labels back. *)
Theorem to_categorical_round_trip (y : list nat) :
  (y = [] → ∃ e, Training.to_categorical y = Raise e)
  ∧ (y ≠ [] →
     ∃ y_cat,
       Training.to_categorical y = Ok y_cat
       ∧ length y_cat = length y
       ∧ Forall (fun row => length row = S (max_list y) ∧ Np.sum row = 1) y_cat
       ∧ mapM argmax y_cat = Ok y).
Proof.
  split; [intros ->; by eexists|]. intros Hy.
  destruct (argmax_to_categorical y Hy) as (y_cat & Hcat & Harg).
  exists y_cat. split; [done|].
  destruct (to_categorical_ok y y_cat Hcat) as [_ ->].
  split; [by rewrite length_fmap|]. split; [|done].
  apply Forall_fmap, Forall_forall. intros k Hk. unfold compose. split.
  - unfold Training.one_hot. by rewrite length_fmap, length_seq.
  - unfold Training.one_hot. rewrite sum_indicator.
    apply max_list_elem_of_le in Hk. rewrite decide_True by lia. done.
Qed.

(** X12.  For labels among the eight classes, the one-hot rows have the
    eight columns of the network's output exactly when the labels contain
    class 7; a partition without a non-cancer instance gets narrower
    rows. *)
Theorem to_categorical_width_needs_last_class (y : list nat) (y_cat : list (list R)) :
  Forall (fun l => (l < 8)%nat) y →
  Training.to_categorical y = Ok y_cat →
  (Forall (fun row => length row = 8%nat) y_cat ↔ 7%nat ∈ y).
Proof.
  intros Hlt Hcat.
  destruct (to_categorical_ok y y_cat Hcat) as [Hne ->].
  assert (max_list y ≤ 7)%nat as Hmax.
  { apply max_list_bound. eapply Forall_impl; [exact Hlt|]. simpl. lia. }
  assert (∀ k, length (Training.one_hot (S (max_list y)) k) = S (max_list y)) as Hw.
  { intros k. unfold Training.one_hot. by rewrite length_fmap, length_seq. }
  split.
  - intros Hall. rewrite Forall_forall in Hall.
    pose proof (max_list_elem_of y Hne) as Hin.
    assert (length (Training.one_hot (S (max_list y)) (max_list y)) = 8%nat) as H8.
    { apply Hall, list_elem_of_fmap. eauto. }
    rewrite Hw in H8. assert (max_list y = 7%nat) as <- by lia. done.
  - intros H7%max_list_elem_of_le.
    apply Forall_forall. intros row (k & -> & _)%list_elem_of_fmap.
    rewrite Hw. lia.
Qed.

End OneHot.

Lemma to_categorical_width_needs_last_class_witness :
  Forall (fun row => length row = 8) (Training.one_hot 8 <$> [0; 7]) ↔ 7 ∈ [0; 7].
Proof.
  apply (to_categorical_width_needs_last_class [0; 7] (Training.one_hot 8 <$> [0; 7])).
  - repeat constructor; lia.
  - reflexivity.
Defined.

(** ** The figures of plot_training *)

Section BestEpochs.

Local Open Scope R_scope.

Lemma argmin_from_opp (best_i : nat) (best : R) (i : nat) (l : list R) :
  Report.argmin_from best_i best i l = argmax_from best_i (- best) i (Ropp <$> l).
Proof.
  revert best_i best i. induction l as [|x l IH]; intros best_i best i; [done|].
  rewrite fmap_cons. cbn [Report.argmin_from argmax_from].
  destruct (Rlt_dec x best), (Rlt_dec (- best) (- x)); try lra; apply IH.
Qed.

(** [np.argmin] on a non-empty array: the index returned holds the
    minimum, nothing is below it, and nothing before it reaches it. *)
Lemma argmin_spec (l : list R) :
  l ≠ [] →
  ∃ k m, Report.argmin l = Ok k ∧ l !! k = Some m
    ∧ (∀ y, y ∈ l → m <= y)
    ∧ (∀ j y, (j < k)%nat → l !! j = Some y → m < y).
Proof.
  destruct l as [|x l]; [done|]. intros _.
  destruct (argmax_amax (Ropp <$> x :: l)) as (k & mx & Hk & _ & Hat & Hle & Hfirst);
    [done|].
  rewrite fmap_cons in Hk. injection Hk as Hk.
  rewrite list_lookup_fmap in Hat.
  destruct ((x :: l) !! k) as [m|] eqn:Hm; [|done]. injection Hat as <-.
  exists k, m. split.
  { unfold Report.argmin. by rewrite argmin_from_opp, Hk. }
  split; [done|]. split.
  - intros y Hy. assert (- y <= - m); [|lra].
    apply Hle, list_elem_of_fmap. eauto.
  - intros j y Hj Hy. assert (- y < - m); [|lra].
    apply (Hfirst j); [done|]. by rewrite list_lookup_fmap, Hy.
Qed.

(** X13.  On a history of at least one epoch whose four series have the
    same length, [plot_training] numbers the epochs from 1, marks as best
    the first epoch with the lowest validation loss and the first epoch
    with the highest validation accuracy, and labels them with their
    epoch numbers; on an empty history it raises. *)
Theorem plot_training_marks_first_best_epochs (hist : Report.History) :
  (Report.val_loss hist = [] → ∃ e, Report.plot_training hist = Raise e)
  ∧ (Report.accuracy hist ≠ [] →
     length (Report.loss hist) = length (Report.accuracy hist) →
     length (Report.val_accuracy hist) = length (Report.accuracy hist) →
     length (Report.val_loss hist) = length (Report.accuracy hist) →
     ∃ f,
       Report.plot_training hist = Ok f
       ∧ Report.Epochs f = seq 1 (length (Report.accuracy hist))
       ∧ Report.val_loss hist !! Report.index_loss f = Some (Report.val_lowest f)
       ∧ (∀ v, v ∈ Report.val_loss hist → Report.val_lowest f <= v)
       ∧ (∀ j v, (j < Report.index_loss f)%nat →
            Report.val_loss hist !! j = Some v → Report.val_lowest f < v)
       ∧ Report.val_accuracy hist !! Report.index_acc f = Some (Report.acc_highest f)
       ∧ (∀ v, v ∈ Report.val_accuracy hist → v <= Report.acc_highest f)
       ∧ (∀ j v, (j < Report.index_acc f)%nat →
            Report.val_accuracy hist !! j = Some v → v < Report.acc_highest f)
       ∧ (Report.index_loss f + 1)%nat ∈ Report.Epochs f
       ∧ (Report.index_acc f + 1)%nat ∈ Report.Epochs f
       ∧ Report.loss_label f = "best epoch= " +:+ pretty (Report.index_loss f + 1)%nat
       ∧ Report.acc_label f = "best epoch= " +:+ pretty (Report.index_acc f + 1)%nat).
Proof.
  split.
  { intros Hv. unfold Report.plot_training. rewrite Hv. by eexists. }
  intros Hne Hl Hva Hvl.
  assert (Report.val_loss hist ≠ []) as Hvl' by (destruct (Report.val_loss hist),
    (Report.accuracy hist); done).
  assert (Report.val_accuracy hist ≠ []) as Hva'
    by (destruct (Report.val_accuracy hist), (Report.accuracy hist); done).
  destruct (argmin_spec _ Hvl') as (il & lo & Hil & Hlo & Hmin & Hfirst).
  destruct (argmax_amax _ Hva') as (ia & hi & Hia & _ & Hhi & Hmax & Hfirst').
  assert ((fun i => (i + 1)%nat) <$> seq 0 (length (Report.accuracy hist))
          = seq 1 (length (Report.accuracy hist))) as Hep.
  { rewrite <- (fmap_add_seq 1 0). apply list_fmap_ext. intros _ i _. lia. }
  eexists. split.
  { unfold Report.plot_training. cbv zeta. rewrite Hil.
    cbn [mbind Py.result_bind]. rewrite (index_lookup _ _ _ Hlo).
    cbn [mbind Py.result_bind]. rewrite Hia.
    cbn [mbind Py.result_bind]. rewrite (index_lookup _ _ _ Hhi).
    cbn [mbind Py.result_bind]. unfold Report.plot.
    rewrite !length_fmap, !length_seq, Hl, Hva, Hvl.
    rewrite !decide_True by done. cbn [mbind Py.result_bind]. reflexivity. }
  cbn [Report.Epochs Report.index_loss Report.val_lowest Report.index_acc
       Report.acc_highest Report.loss_label Report.acc_label].
  rewrite Hep.
  apply lookup_lt_Some in Hlo as Hlo'. apply lookup_lt_Some in Hhi as Hhi'.
  repeat split; try done; apply elem_of_seq; lia.
Qed.

End BestEpochs.

(** ** The learning-rate schedule *)

Section ReduceLR.

Local Open Scope R_scope.

Variable double : R → R.
Variable single : R → R.

(** What is used of the two roundings: they keep the order, a float32 is
    a float32 and a Python float, and 0 and 1/2 are numbers of the
    format. *)
Hypothesis double_mono : ∀ x y, x <= y → double x <= double y.
Hypothesis single_mono : ∀ x y, x <= y → single x <= single y.
Hypothesis single_idem : ∀ x, single (single x) = single x.
Hypothesis double_single : ∀ x, double (single x) = single x.
Hypothesis double_zero : double 0 = 0.
Hypothesis single_zero : single 0 = 0.
Hypothesis double_half : double 0.5 = 0.5.

Local Abbreviation cb := (Callback.learning_rate_reduction double).
Local Abbreviation on_epoch_end := (Callback.on_epoch_end double single).
Local Abbreviation run := (Callback.run double single).
Local Abbreviation monitor_op := (Callback.monitor_op double).
Local Abbreviation lr_floor := (single (double 0.00001)).
Local Abbreviation lr_start := (single (double 0.001)).

Lemma lr_floor_nonneg : 0 <= lr_floor.
Proof.
  pose proof (double_mono 0 0.00001) as Hd. rewrite double_zero in Hd.
  pose proof (single_mono 0 (double 0.00001)) as Hs. rewrite single_zero in Hs.
  apply Hs, Hd. lra.
Qed.

Lemma lr_floor_le_start : lr_floor <= lr_start.
Proof. apply single_mono, double_mono. lra. Qed.

Lemma run_snoc (accs : list R) (a : R) :
  run cb (accs ++ [a]) = on_epoch_end cb a (run cb accs).
Proof. unfold Callback.run. by rewrite foldl_app. Qed.

(** Halving a float32 above the floor and storing it back does not raise
    it and does not take it below the floor. *)
Lemma reduced_rate_bounds (old : R) :
  single old = old → lr_floor < old →
  lr_floor <= single (Rmax (double (old * 0.5)) (double 0.00001)) <= old.
Proof.
  intros Hfix Hmin. pose proof lr_floor_nonneg as H0. split.
  - apply single_mono, Rmax_r.
  - assert (Rmax (double (old * 0.5)) (double 0.00001) <= old) as Hmax.
    { apply Rmax_lub.
      - assert (double (old * 0.5) <= double old) as Hle
          by (apply double_mono; lra).
        assert (double old = old) as Hd
          by (rewrite <- Hfix; apply double_single).
        lra.
      - destruct (Rle_dec (double 0.00001) old) as [Hle|Hgt]; [exact Hle|].
        assert (old <= double 0.00001) as Hlt by lra.
        apply single_mono in Hlt. rewrite Hfix in Hlt. lra. }
    apply single_mono in Hmax. by rewrite Hfix in Hmax.
Qed.

Lemma on_epoch_end_step (a : R) (st : Callback.state) :
  lr_invariant double single st →
  lr_invariant double single (on_epoch_end cb a st)
  ∧ ((Callback.lr (on_epoch_end cb a st) = Callback.lr st
      ∧ (monitor_op cb a (Callback.best st) = true
         ∨ Callback.wait st = 0%nat
         ∨ Callback.lr st = lr_floor))
     ∨ (monitor_op cb a (Callback.best st) = false
        ∧ Callback.wait st = 1%nat
        ∧ lr_floor < Callback.lr st
        ∧ Callback.wait (on_epoch_end cb a st) = 0%nat
        ∧ Callback.lr (on_epoch_end cb a st)
          = single (Rmax (double (Callback.lr st * 0.5)) (double 0.00001)))).
Proof.
  intros (Hfix & Hlr & Hcool & Hwait).
  assert (Callback.in_cooldown st = false) as Hic.
  { unfold Callback.in_cooldown. rewrite Hcool. apply bool_decide_eq_false_2. lia. }
  unfold Callback.on_epoch_end. rewrite Hic. cbv zeta. rewrite Hic.
  destruct (Callback.monitor_op double cb a (Callback.best st)) eqn:Hop.
  { unfold lr_invariant. cbn [Callback.wait Callback.lr Callback.cooldown_counter].
    split; [split; [exact Hfix|split; [exact Hlr|split; [exact Hcool|left; lia]]]|].
    left. split; [reflexivity|by left]. }
  cbv zeta. cbn [Callback.wait Callback.lr Callback.best Callback.cooldown_counter
                 Callback.patience Callback.min_lr Callback.factor Callback.cooldown
                 Callback.learning_rate_reduction].
  destruct (decide (2 ≤ Callback.wait st + 1)%nat) as [Hp|Hp].
  - destruct (Rlt_dec lr_floor (Callback.lr st)) as [Hmin|Hmin];
      unfold lr_invariant;
      cbn [Callback.wait Callback.lr Callback.best Callback.cooldown_counter].
    + rewrite double_half.
      pose proof (reduced_rate_bounds _ Hfix Hmin) as [Hlo Hhi].
      split.
      * split; [apply single_idem|]. split; [lra|]. split; [reflexivity|left; lia].
      * right. split; [reflexivity|]. split; [destruct Hwait; [lia|lra]|].
        split; [exact Hmin|]. split; reflexivity.
    + split.
      * split; [exact Hfix|]. split; [exact Hlr|]. split; [exact Hcool|right; lra].
      * left. split; [reflexivity|]. right. right. lra.
  - unfold lr_invariant;
      cbn [Callback.wait Callback.lr Callback.best Callback.cooldown_counter].
    split.
    + split; [exact Hfix|]. split; [exact Hlr|]. split; [exact Hcool|left; lia].
    + left. split; [reflexivity|]. right. left. lia.
Qed.

Lemma run_invariant (accs : list R) : lr_invariant double single (run cb accs).
Proof.
  induction accs as [|a accs IH] using rev_ind.
  - unfold lr_invariant, Callback.run, Callback.on_train_begin,
      Callback.base_learning_rate.
    cbn [foldl Callback.lr Callback.wait Callback.cooldown_counter].
    pose proof lr_floor_le_start.
    split; [apply single_idem|]. split; [lra|]. split; [reflexivity|left; lia].
  - rewrite run_snoc. by apply on_epoch_end_step.
Qed.

(** X14.  Whatever validation accuracies the epochs report, the learning
    rate is a float32 between the float32 of [min_lr] and the float32 of
    the optimizer's initial rate, and it never goes up from one epoch to
    the next. *)
Theorem reduce_lr_stays_in_range (val_accuracy : list R) (a : R) :
  single (double 0.00001) <= Callback.lr (run cb val_accuracy) <= single (double 0.001)
  ∧ single (Callback.lr (run cb val_accuracy)) = Callback.lr (run cb val_accuracy)
  ∧ Callback.lr (run cb (val_accuracy ++ [a])) <= Callback.lr (run cb val_accuracy).
Proof.
  pose proof (run_invariant val_accuracy) as Hinv.
  split; [apply Hinv|]. split; [apply Hinv|]. rewrite run_snoc.
  destruct (on_epoch_end_step a _ Hinv) as [_ [[-> _]|(_ & _ & Hmin & _ & ->)]]; [lra|].
  apply reduced_rate_bounds; [apply Hinv|exact Hmin].
Qed.

(** X15.  The rate changes at the end of an epoch only if that epoch and
    the one before it both failed the callback's improvement test (the
    accuracy is not above the best so far plus [min_delta], added as
    Python floats) and the rate is still above the float32 of [min_lr].
    When that is the case the new rate is the old one halved, but not
    below [min_lr], stored as a float32, and the epoch after never changes
    it again. *)
Theorem reduce_lr_halves_after_two_stale_epochs (val_accuracy : list R) (a : R) :
  (Callback.lr (run cb (val_accuracy ++ [a])) ≠ Callback.lr (run cb val_accuracy) →
   monitor_op cb a (Callback.best (run cb val_accuracy)) = false
   ∧ Callback.wait (run cb val_accuracy) = 1%nat
   ∧ single (double 0.00001) < Callback.lr (run cb val_accuracy))
  ∧ (monitor_op cb a (Callback.best (run cb val_accuracy)) = false →
     Callback.wait (run cb val_accuracy) = 1%nat →
     single (double 0.00001) < Callback.lr (run cb val_accuracy) →
     Callback.lr (run cb (val_accuracy ++ [a]))
     = single (Rmax (double (Callback.lr (run cb val_accuracy) / 2)) (double 0.00001))
     ∧ ∀ b, Callback.lr (run cb ((val_accuracy ++ [a]) ++ [b]))
            = Callback.lr (run cb (val_accuracy ++ [a]))).
Proof.
  pose proof (run_invariant val_accuracy) as Hinv.
  pose proof (run_invariant (val_accuracy ++ [a])) as Hinv'.
  rewrite (run_snoc val_accuracy a) in *.
  destruct (on_epoch_end_step a _ Hinv)
    as [_ [[Heq Hwhy]|(Hop & Hwait & Hmin & Hwait' & Hlr)]].
  - split; [intros Hne; by destruct Hne|].
    intros Hop Hw Hmin. destruct Hwhy as [?|[?|?]]; [congruence|lia|lra].
  - split; [done|]. intros _ _ _. split.
    { rewrite Hlr. do 3 f_equal. lra. }
    intros b. rewrite (run_snoc (val_accuracy ++ [a]) b), (run_snoc val_accuracy a).
    destruct (on_epoch_end_step b _ Hinv') as [_ [[Hsame _]|(_ & Hw & _)]]; [done|].
    rewrite Hwait' in Hw. done.
Qed.

End ReduceLR.

Lemma reduce_lr_stays_in_range_witness :
  (Examples.exact (Examples.exact 0.00001)
   <= Callback.lr (Callback.run Examples.exact Examples.exact
                     (Callback.learning_rate_reduction Examples.exact) [0.5; 0.5; 0.5]%R)
   <= Examples.exact (Examples.exact 0.001))%R
  ∧ Examples.exact
      (Callback.lr (Callback.run Examples.exact Examples.exact
                      (Callback.learning_rate_reduction Examples.exact) [0.5; 0.5; 0.5]%R))
    = Callback.lr (Callback.run Examples.exact Examples.exact
                     (Callback.learning_rate_reduction Examples.exact) [0.5; 0.5; 0.5]%R)
  ∧ (Callback.lr (Callback.run Examples.exact Examples.exact
                    (Callback.learning_rate_reduction Examples.exact)
                    ([0.5; 0.5; 0.5]%R ++ [0.5%R]))
     <= Callback.lr (Callback.run Examples.exact Examples.exact
                       (Callback.learning_rate_reduction Examples.exact)
                       [0.5; 0.5; 0.5]%R))%R.
Proof.
  apply (reduce_lr_stays_in_range Examples.exact Examples.exact);
    unfold Examples.exact; intros; first [assumption|reflexivity].
Defined.

Lemma reduce_lr_halves_after_two_stale_epochs_witness :
  (Callback.lr (Callback.run Examples.exact Examples.exact
                  (Callback.learning_rate_reduction Examples.exact)
                  ([0.5; 0.5]%R ++ [0.5%R]))
   ≠ Callback.lr (Callback.run Examples.exact Examples.exact
                    (Callback.learning_rate_reduction Examples.exact) [0.5; 0.5]%R) →
   Callback.monitor_op Examples.exact
     (Callback.learning_rate_reduction Examples.exact) 0.5%R
     (Callback.best (Callback.run Examples.exact Examples.exact
                       (Callback.learning_rate_reduction Examples.exact) [0.5; 0.5]%R))
   = false
   ∧ Callback.wait (Callback.run Examples.exact Examples.exact
                      (Callback.learning_rate_reduction Examples.exact) [0.5; 0.5]%R)
     = 1
   ∧ (Examples.exact (Examples.exact 0.00001)
      < Callback.lr (Callback.run Examples.exact Examples.exact
                       (Callback.learning_rate_reduction Examples.exact)
                       [0.5; 0.5]))%R)
  ∧ (Callback.monitor_op Examples.exact
       (Callback.learning_rate_reduction Examples.exact) 0.5%R
       (Callback.best (Callback.run Examples.exact Examples.exact
                         (Callback.learning_rate_reduction Examples.exact) [0.5; 0.5]%R))
     = false →
     Callback.wait (Callback.run Examples.exact Examples.exact
                      (Callback.learning_rate_reduction Examples.exact) [0.5; 0.5]%R)
     = 1 →
     (Examples.exact (Examples.exact 0.00001)
      < Callback.lr (Callback.run Examples.exact Examples.exact
                       (Callback.learning_rate_reduction Examples.exact)
                       [0.5; 0.5]))%R →
     Callback.lr (Callback.run Examples.exact Examples.exact
                    (Callback.learning_rate_reduction Examples.exact)
                    ([0.5; 0.5]%R ++ [0.5%R]))
     = Examples.exact
         (Rmax (Examples.exact
                  (Callback.lr (Callback.run Examples.exact Examples.exact
                                  (Callback.learning_rate_reduction Examples.exact)
                                  [0.5; 0.5]%R) / 2)%R)
               (Examples.exact 0.00001%R))
     ∧ ∀ b, Callback.lr (Callback.run Examples.exact Examples.exact
                           (Callback.learning_rate_reduction Examples.exact)
                           (([0.5; 0.5]%R ++ [0.5%R]) ++ [b]))
            = Callback.lr (Callback.run Examples.exact Examples.exact
                             (Callback.learning_rate_reduction Examples.exact)
                             ([0.5; 0.5]%R ++ [0.5%R]))).
Proof.
  apply (reduce_lr_halves_after_two_stale_epochs Examples.exact Examples.exact);
    unfold Examples.exact; intros; first [assumption|reflexivity].
Defined.

(** ** Over-sampling: failures, fixed points and size *)

Section OverSampling.

Lemma bootstrap_nothing_requested (y : list nat) (strategy : list (nat * nat))
    (sample_indices : list nat) (r : Training.rng) :
  Forall (fun kv => kv.2 = 0) strategy →
  Training.bootstrap y strategy sample_indices r = Ok (sample_indices, r).
Proof.
  intros Hz. revert sample_indices.
  induction Hz as [|[c n] strategy Hn _ IH]; intros sample_indices; [done|].
  simpl in Hn. subst n. cbn [Training.bootstrap].
  assert (Training.choice (Training.flatnonzero_eq y c) 0 r = Ok ([], r)) as ->.
  { unfold Training.choice. by destruct (Training.flatnonzero_eq y c). }
  cbn [mbind Py.result_bind]. rewrite app_nil_r. apply IH.
Qed.

Lemma sum_list_cons (x : nat) (l : list nat) : sum_list (x :: l) = x + sum_list l.
Proof. reflexivity. Qed.

Lemma length_by_class (U l : list nat) :
  NoDup U → Forall (fun x => x ∈ U) l →
  length l = sum_list ((fun c => Training.count c l) <$> U).
Proof.
  intros HU. induction 1 as [|x l Hx _ IH].
  - clear. induction U as [|c U IH]; [done|].
    rewrite fmap_cons, sum_list_cons, <- IH. done.
  - cbn [length]. rewrite IH. clear IH.
    induction HU as [|c U Hc HU IHU]; [by apply elem_of_nil in Hx|].
    rewrite !fmap_cons, !sum_list_cons, count_cons.
    apply elem_of_cons in Hx as [->|Hx].
    + rewrite decide_True by done.
      assert ((fun c0 => Training.count c0 (c :: l)) <$> U
              = (fun c0 => Training.count c0 l) <$> U) as ->; [|lia].
      apply list_fmap_ext. intros _ c0 Hc0%list_elem_of_lookup_2.
      rewrite count_cons, decide_False; [done|]. by intros ->.
    + specialize (IHU Hx).
      destruct (decide (x = c)) as [->|_]; [done|]. lia.
Qed.

(** X16.  [fit_resample] raises exactly when the two arrays differ in
    length or the labels hold fewer than two classes. *)
Theorem fit_resample_fails_iff {A} (X : list A) (y : list nat) (r : Training.rng) :
  (∃ e, Training.fit_resample X y r = Raise e)
  ↔ length X ≠ length y ∨ length (Training.unique y) ≤ 1.
Proof.
  split.
  - intros [e He].
    destruct (decide (length X = length y)) as [Hlen|Hlen]; [|by left]. right.
    destruct (decide (length (Training.unique y) ≤ 1)) as [Hu|Hu]; [done|].
    destruct (fit_resample_spec X y r Hlen) as (X' & y' & ? & ? & r' & Hok & _); [lia|].
    congruence.
  - unfold Training.fit_resample. intros [Hlen|Hu].
    + rewrite decide_False by done. by eexists.
    + destruct (decide (length X = length y)); [|by eexists].
      unfold Training.sampling_strategy, Training.count_class_sample.
      rewrite length_fmap, decide_True by done. by eexists.
Qed.

(** X17.  On labels whose classes all have the same number of instances
    the over-sampler returns the data as it got it and leaves the random
    generator untouched. *)
Theorem fit_resample_balanced_is_identity {A} (X : list A) (y : list nat)
    (r : Training.rng) (n : nat) :
  length X = length y →
  2 ≤ length (Training.unique y) →
  (∀ c, c ∈ y → Training.count c y = n) →
  Training.fit_resample X y r = Ok (X, y, r).
Proof.
  intros Hlen Hu Hn. unfold Training.fit_resample. rewrite decide_True by done.
  unfold Training.sampling_strategy.
  rewrite decide_False
    by (unfold Training.count_class_sample; rewrite length_fmap; lia).
  cbv zeta. cbn [mbind Py.result_bind]. rewrite bootstrap_nothing_requested.
  - cbn [mbind Py.result_bind].
    pose proof (mapM_index_seq [] X) as HX. pose proof (mapM_index_seq [] y) as Hy.
    cbn [app length] in HX, Hy. rewrite Hlen in HX. rewrite HX, Hy. done.
  - apply Forall_fmap, Forall_forall. intros [c k] Hin. unfold compose. cbn [fst snd].
    apply list_elem_of_filter in Hin as [_ Hin].
    assert (max_list (snd <$> Training.count_class_sample y) ≤ n) as Hmax.
    { rewrite stats_counts. apply max_list_bound, Forall_fmap, Forall_forall.
      intros c0 Hc0. apply (proj1 (elem_of_unique y c0)) in Hc0. unfold compose. by rewrite (Hn c0 Hc0). }
    unfold Training.count_class_sample in Hin.
    apply list_elem_of_fmap in Hin as (c' & Heq & Hc').
    injection Heq as Hc Hk. apply (proj1 (elem_of_unique y c')) in Hc'.
    rewrite (Hn c' Hc') in Hk. lia.
Qed.

(** X18.  When it succeeds the over-sampler returns as many instances as
    there are classes times the size of the largest class, never fewer
    than it got, with images and labels still of equal number. *)
Theorem fit_resample_size {A} (X : list A) (y : list nat) (r : Training.rng) :
  length X = length y →
  2 ≤ length (Training.unique y) →
  ∃ X' y' r',
    Training.fit_resample X y r = Ok (X', y', r')
    ∧ length X' = length y'
    ∧ length y' = length (Training.unique y) * n_sample_majority y
    ∧ length y ≤ length y'.
Proof.
  intros Hlen Hu.
  destruct (fit_resample_spec X y r Hlen Hu)
    as (X' & y' & extra_X & extra_y & r' & Hok & -> & -> & Hex & Hcount).
  exists (X ++ extra_X), (y ++ extra_y), r'. split; [done|].
  split; [by rewrite !length_app, Hlen, (Forall2_length _ _ _ Hex)|].
  split; [|rewrite length_app; lia].
  rewrite (length_by_class (Training.unique y) (y ++ extra_y)).
  - assert ((fun c => Training.count c (y ++ extra_y)) <$> Training.unique y
            = (fun _ => n_sample_majority y) <$> Training.unique y) as ->.
    { apply list_fmap_ext. intros _ c Hc%list_elem_of_lookup_2. apply (proj1 (elem_of_unique y c)) in Hc.
      by rewrite Hcount, decide_True. }
    generalize (Training.unique y). intros U.
    induction U as [|c U IH]; [done|].
    rewrite fmap_cons, sum_list_cons, IH. cbn [length]. lia.
  - apply NoDup_unique.
  - apply Forall_app. split.
    + apply Forall_forall. intros c Hc. by apply (proj2 (elem_of_unique y c)).
    + clear -Hex. induction Hex as [|x l ? ? (i & _ & Hl) _ IH]; constructor; [|done].
      apply (proj2 (elem_of_unique y l)). by apply list_elem_of_lookup_2 in Hl.
Qed.

End OverSampling.

Lemma fit_resample_balanced_is_identity_witness :
  Training.fit_resample ["a"; "b"; "c"; "d"] [0; 1; 1; 0] (fun _ => 5)
  = Ok (["a"; "b"; "c"; "d"], [0; 1; 1; 0], fun _ => 5).
Proof.
  apply (fit_resample_balanced_is_identity ["a"; "b"; "c"; "d"] [0; 1; 1; 0]
           (fun _ => 5) 2).
  - reflexivity.
  - vm_compute. lia.
  - intros c Hc. repeat (apply elem_of_cons in Hc as [->|Hc]; [reflexivity|]).
    by apply elem_of_nil in Hc.
Defined.

Lemma fit_resample_size_witness :
  ∃ X' y' r',
    Training.fit_resample ["a"; "b"; "c"] [0; 1; 1] (fun _ => 5) = Ok (X', y', r')
    ∧ length X' = length y'
    ∧ length y' = 4.
Proof.
  destruct (fit_resample_size ["a"; "b"; "c"] [0; 1; 1] (fun _ => 5))
    as (X' & y' & r' & Hok & Hlen & Hsize & _).
  - reflexivity.
  - vm_compute. lia.
  - exists X', y', r'. split; [exact Hok|]. split; [exact Hlen|]. exact Hsize.
Defined.

(** ** The split: failures and what it keeps *)

Section SplitOutcomes.

Variable mt19937 : nat → Training.rng.

Lemma split_dataset_ok (Data : list image) (Label : list nat) :
  length Data = length Label →
  2 ≤ length Data →
  ∃ ind_train ind_test X_train X_test y_train y_test,
    Training.split_dataset mt19937 Data Label = Ok (X_train, X_test, y_train, y_test)
    ∧ ind_train ++ ind_test ≡ₚ seq 0 (length Data)
    ∧ length ind_test = Training.n_test_of 25 (length Data)
    ∧ Forall2 (fun i x => Data !! i = Some x) ind_train X_train
    ∧ Forall2 (fun i x => Data !! i = Some x) ind_test X_test
    ∧ Forall2 (fun i l => Label !! i = Some l) ind_train y_train
    ∧ Forall2 (fun i l => Label !! i = Some l) ind_test y_test.
Proof.
  intros Hlen Hn.
  pose proof (split_indices_partition mt19937 Training.random_state (length Data))
    as Hpart.
  destruct (Training.split_indices mt19937 25 Training.random_state (length Data))
    as [ind_train ind_test] eqn:Hsplit.
  destruct Hpart as (Hperm & Hltest & Hltrain).
  pose proof (n_test_of_quarter (length Data)) as Hq.
  assert (ind_train ++ ind_test ≡ₚ seq 0 (length Data)) as Hperm'
    by (by rewrite (Permutation_app_comm ind_train ind_test)).
  assert (∀ i, i ∈ ind_train ∨ i ∈ ind_test ↔ i < length Data) as Hin.
  { intros i. rewrite <- elem_of_app, Hperm', elem_of_seq. lia. }
  assert (Forall (fun i => i < length Data) ind_train) as Htr
    by (apply Forall_forall; intros i Hi; apply Hin; by left).
  assert (Forall (fun i => i < length Data) ind_test) as Hte
    by (apply Forall_forall; intros i Hi; apply Hin; by right).
  destruct (mapM_index_ok Data ind_train Htr) as (X_train & HXtr & HXtr2).
  destruct (mapM_index_ok Data ind_test Hte) as (X_test & HXte & HXte2).
  rewrite Hlen in Htr, Hte.
  destruct (mapM_index_ok Label ind_train Htr) as (y_train & Hytr & Hytr2).
  destruct (mapM_index_ok Label ind_test Hte) as (y_test & Hyte & Hyte2).
  exists ind_train, ind_test, X_train, X_test, y_train, y_test.
  split; [|done].
  unfold Training.split_dataset, Training.train_test_split.
  change Training.test_size_percent with 25.
  rewrite decide_True by done.
  rewrite decide_False by lia. rewrite decide_False by lia.
  rewrite Hsplit, HXtr. cbn [mbind Py.result_bind].
  rewrite HXte. cbn [mbind Py.result_bind].
  rewrite Hytr. cbn [mbind Py.result_bind].
  rewrite Hyte. reflexivity.
Qed.

Lemma omap_lookup_seq {A} (pre L : list A) :
  omap (fun i => (pre ++ L) !! i) (seq (length pre) (length L)) = L.
Proof.
  revert pre. induction L as [|x L IH]; intros pre; [done|].
  cbn [length seq omap list_omap]. rewrite lookup_app_r, Nat.sub_diag by lia. cbn [lookup list_lookup].
  f_equal. specialize (IH (pre ++ [x])). rewrite <- app_assoc, length_app in IH.
  cbn [length app] in IH. by rewrite Nat.add_1_r in IH.
Qed.

(** Reading a list at a permutation of its indices gives a permutation of
    the list. *)
Lemma gather_permutation {A} (L : list A) (idxs : list nat) (l : list A) :
  idxs ≡ₚ seq 0 (length L) →
  Forall2 (fun i x => L !! i = Some x) idxs l →
  l ≡ₚ L.
Proof.
  intros Hperm Hall.
  assert (omap (fun i => L !! i) idxs = l) as <-.
  { clear Hperm. induction Hall as [|i x idxs l Hi _ IH]; [done|].
    cbn [omap list_omap]. rewrite Hi. f_equal. apply IH. }
  rewrite Hperm. pose proof (omap_lookup_seq [] L) as HL.
  cbn [app length] in HL. by rewrite HL.
Qed.

Lemma gather_zip {A B} (D : list A) (Lb : list B) (idxs : list nat)
    (xs : list A) (ls : list B) :
  Forall2 (fun i x => D !! i = Some x) idxs xs →
  Forall2 (fun i l => Lb !! i = Some l) idxs ls →
  Forall2 (fun i p => zip D Lb !! i = Some p) idxs (zip xs ls).
Proof.
  intros Hx. revert ls. induction Hx as [|i x idxs xs Hi _ IH]; intros ls Hl.
  - apply Forall2_nil_inv_l in Hl as ->. constructor.
  - apply Forall2_cons_inv_l in Hl as (l & ls' & Hl & Hls & ->).
    cbn [zip zip_with]. constructor; [|by apply IH].
    rewrite lookup_zip_with, Hi. cbn. by rewrite Hl.
Qed.

(** X19.  The split raises exactly when images and labels differ in
    number or there are fewer than two instances; otherwise both parts are
    non-empty and the test part is not the larger one. *)
Theorem split_dataset_fails_iff (Data : list image) (Label : list nat) :
  ((∃ e, Training.split_dataset mt19937 Data Label = Raise e)
   ↔ length Data ≠ length Label ∨ length Data < 2)
  ∧ ∀ X_train X_test y_train y_test,
      Training.split_dataset mt19937 Data Label = Ok (X_train, X_test, y_train, y_test) →
      1 ≤ length X_test ≤ length X_train
      ∧ length y_train = length X_train ∧ length y_test = length X_test.
Proof.
  assert (length Data = length Label → 2 ≤ length Data →
          ∃ X_train X_test y_train y_test,
            Training.split_dataset mt19937 Data Label
            = Ok (X_train, X_test, y_train, y_test)
            ∧ 1 ≤ length X_test ≤ length X_train
            ∧ length y_train = length X_train ∧ length y_test = length X_test) as Hok.
  { intros Hlen Hn.
    destruct (split_dataset_ok Data Label Hlen Hn)
      as (itr & ite & Xtr & Xte & ytr & yte & Hok & Hperm & Hte & H1 & H2 & H3 & H4).
    exists Xtr, Xte, ytr, yte. split; [done|].
    apply Forall2_length in H1, H2, H3, H4.
    apply Permutation_length in Hperm. rewrite length_app, length_seq in Hperm.
    pose proof (n_test_of_quarter (length Data)) as Hq. lia. }
  assert (length Data ≠ length Label ∨ length Data < 2 →
          ∃ e, Training.split_dataset mt19937 Data Label = Raise e) as Hbad.
  { unfold Training.split_dataset, Training.train_test_split.
    intros [Hlen|Hn]; [rewrite decide_False by done; by eexists|].
    destruct (decide (length Data = length Label)); [|by eexists].
    destruct (length Data) as [|[|n]]; [by eexists|by eexists|lia]. }
  split; [split; [|exact Hbad]|].
  - intros [e He].
    destruct (decide (length Data = length Label)) as [Hlen|]; [|by left]. right.
    destruct (decide (length Data < 2)) as [|Hn]; [done|].
    destruct (Hok Hlen) as (? & ? & ? & ? & Heq & _); [lia|congruence].
  - intros X_train X_test y_train y_test Heq.
    destruct (decide (length Data = length Label)) as [Hlen|Hlen];
      [|destruct Hbad as [e He]; [by left|congruence]].
    destruct (decide (length Data < 2)) as [Hn|Hn];
      [destruct Hbad as [e He]; [by right|congruence]|].
    destruct (Hok Hlen) as (? & ? & ? & ? & Heq' & Hres); [lia|].
    rewrite Heq in Heq'. by injection Heq' as <- <- <- <-.
Qed.

(** X20.  The split loses and duplicates nothing and keeps every label
    with its image: the labelled instances of the two parts together are a
    rearrangement of the labelled instances it was given, so every class
    has as many instances in the two parts together as before. *)
Theorem split_keeps_every_instance (Data : list image) (Label : list nat)
    (X_train X_test : list image) (y_train y_test : list nat) :
  Training.split_dataset mt19937 Data Label = Ok (X_train, X_test, y_train, y_test) →
  zip X_train y_train ++ zip X_test y_test ≡ₚ zip Data Label
  ∧ ∀ c, Training.count c y_train + Training.count c y_test = Training.count c Label.
Proof.
  intros Heq.
  assert (length Data = length Label ∧ 2 ≤ length Data) as [Hlen Hn].
  { revert Heq. unfold Training.split_dataset, Training.train_test_split.
    destruct (decide (length Data = length Label)); [|done].
    destruct (length Data) as [|[|n]]; [done|done|]. intros _. split; [done|lia]. }
  destruct (split_dataset_ok Data Label Hlen Hn)
    as (itr & ite & Xtr & Xte & ytr & yte & Hok & Hperm & Hte & H1 & H2 & H3 & H4).
  rewrite Heq in Hok. injection Hok as <- <- <- <-.
  split.
  - apply (gather_permutation _ (itr ++ ite)).
    + by rewrite length_zip, <- Hlen, Nat.min_id.
    + apply Forall2_app; by apply gather_zip.
  - intros c. rewrite <- count_app. unfold Training.count.
    assert (y_train ++ y_test ≡ₚ Label) as ->; [|done].
    apply (gather_permutation _ (itr ++ ite)).
    + by rewrite <- Hlen.
    + by apply Forall2_app.
Qed.

End SplitOutcomes.

Lemma split_keeps_every_instance_witness :
  ∃ X_train X_test y_train y_test,
    Training.split_dataset (fun _ _ => 0) [[1%Z]; [2%Z]] [0; 1]
    = Ok (X_train, X_test, y_train, y_test)
    ∧ zip X_train y_train ++ zip X_test y_test ≡ₚ zip [[1%Z]; [2%Z]] [0; 1].
Proof.
  eexists _, _, _, _. split; [reflexivity|].
  apply (split_keeps_every_instance (fun _ _ => 0) [[1%Z]; [2%Z]] [0; 1]).
  reflexivity.
Defined.

(** ** Totals of the confusion matrix *)

Section ConfusionTotals.

Lemma diagonal_pairs (pairs : list (nat * nat)) :
  Forall (fun p => p.1 < 8) pairs →
  sum_list ((fun t => Training.count_pairs t t pairs) <$> Training.classes_labels)
  = length (filter (fun p => p.1 = p.2) pairs).
Proof.
  induction 1 as [|[a b] pairs Ha _ IH]; [done|].
  rewrite filter_cons. cbn [fst snd] in *.
  assert (sum_list ((fun t => Training.count_pairs t t ((a, b) :: pairs))
                      <$> Training.classes_labels)
          = (if decide (a = b) then 1 else 0)
            + sum_list ((fun t => Training.count_pairs t t pairs)
                          <$> Training.classes_labels)) as ->.
  { change Training.classes_labels with [4; 6; 2; 1; 5; 0; 3; 7].
    rewrite !fmap_cons, !fmap_nil, !sum_list_cons, !count_pairs_cons.
    destruct (decide (a = b)) as [<-|Hab].
    - do 8 (destruct a as [|a];
            [repeat (first [rewrite decide_True by done
                           |rewrite decide_False by done]); simpl; lia|]).
      lia.
    - repeat (rewrite decide_False by congruence). simpl. lia. }
  rewrite IH. by destruct (decide (a = b)).
Qed.

Lemma Forall_zip_fst (l k : list nat) :
  Forall (fun c => c < 8) l → Forall (fun p => p.1 < 8) (zip l k).
Proof.
  intros Hl. revert k. induction Hl as [|a l Ha _ IH]; intros [|b k]; try done.
  cbn [zip zip_with]. by constructor.
Qed.

Lemma filter_zip_position (yt yp : list nat) :
  Forall (fun c => c < 8) yt → Forall (fun c => c < 8) yp →
  length (filter (fun p => p.1 = p.2) (zip (position <$> yt) (position <$> yp)))
  = length (filter (fun p => p.1 = p.2) (zip yt yp)).
Proof.
  intros Ht. revert yp. induction Ht as [|a yt Ha _ IH]; intros yp Hp; [done|].
  destruct Hp as [|b yp Hb Hp]; [done|].
  rewrite !fmap_cons. cbn [zip zip_with]. rewrite !filter_cons. cbn [fst snd].
  specialize (IH yp Hp).
  assert (position a = position b ↔ a = b) as Hinj.
  { assert (position b < 8) as Hpb by by apply position_lt.
    destruct (lookup_lt_is_Some_2 Training.classes_labels (position b)) as [t Ht];
      [done|].
    rewrite (position_spec a (position b) t Ha Ht).
    pose proof (proj1 (position_spec b (position b) t Hb Ht) eq_refl). by subst t. }
  destruct (decide (a = b)) as [Hab|Hab].
  - rewrite decide_True by by apply Hinj. cbn [length]. by rewrite IH.
  - rewrite decide_False by (intros E; by apply Hab, Hinj). done.
Qed.

(** X21.  For labels and predictions among the eight classes the entries
    of the confusion matrix add up to the number of test instances, and
    its diagonal adds up to the number of instances predicted
    correctly. *)
Theorem confusion_matrix_totals (y_true y_pred : list nat) :
  length y_true = length y_pred → y_true ≠ [] →
  Forall (fun c => c < 8) y_true → Forall (fun c => c < 8) y_pred →
  ∃ cm,
    Training.confusion_matrix y_true y_pred Training.classes_labels = Ok cm
    ∧ sum_list (sum_list <$> cm) = length y_true
    ∧ sum_list (omap (fun i => cm !! i ≫= (.!! i)) (seq 0 8))
      = length (filter (fun p => p.1 = p.2) (zip y_true y_pred)).
Proof.
  intros Hlen Hne Ht Hp.
  eexists. split; [by apply confusion_matrix_classes|].
  set (pt := position <$> y_true). set (pp := position <$> y_pred).
  assert (Forall (fun c => c < 8) pt) as Hpt.
  { apply Forall_fmap. eapply Forall_impl; [exact Ht|]. apply position_lt. }
  assert (Forall (fun c => c < 8) pp) as Hpp.
  { apply Forall_fmap. eapply Forall_impl; [exact Hp|]. apply position_lt. }
  assert (length pt = length pp) as Hl by (unfold pt, pp; by rewrite !length_fmap).
  split.
  - rewrite <- list_fmap_compose.
    assert ((sum_list ∘ (fun i => (fun j => Training.count_pairs i j (zip pt pp))
                                    <$> seq 0 8)) <$> seq 0 8
            = (fun i => Training.count i pt) <$> seq 0 8) as ->.
    { apply list_fmap_ext. intros _ i _. unfold compose. by apply row_sum. }
    rewrite <- (length_by_class (seq 0 8) pt).
    + unfold pt. by rewrite length_fmap.
    + apply NoDup_seq.
    + eapply Forall_impl; [exact Hpt|]. intros c Hc. simpl in Hc. apply elem_of_seq. lia.
  - rewrite <- filter_zip_position by done. fold pt pp.
    rewrite <- diagonal_pairs.
    + change Training.classes_labels with [4; 6; 2; 1; 5; 0; 3; 7].
      cbn [seq omap list_omap fmap list_fmap lookup list_lookup mbind option_bind].
      rewrite !sum_list_cons. cbn [sum_list_with]. lia.
    + by apply Forall_zip_fst.
Qed.

End ConfusionTotals.

Lemma confusion_matrix_totals_witness :
  ∃ cm,
    Training.confusion_matrix [0; 7; 7] [0; 1; 7] Training.classes_labels = Ok cm
    ∧ sum_list (sum_list <$> cm) = 3
    ∧ sum_list (omap (fun i => cm !! i ≫= (.!! i)) (seq 0 8)) = 2.
Proof.
  apply (confusion_matrix_totals [0; 7; 7] [0; 1; 7]).
  - reflexivity.
  - discriminate.
  - repeat constructor; lia.
  - repeat constructor; lia.
Defined.

(** ** Loading the non-cancer directory *)

Section DirectoryErrors.

Variable open_resize : string → result image.

Lemma load_non_cancer_raises (pre post : list string) (f : string) (e : exn)
    (imgs acc_d : list image) (acc_l : list nat) :
  mapM open_resize pre = Ok imgs →
  open_resize f = Raise e →
  Training.load_non_cancer open_resize (pre ++ f :: post) acc_d acc_l = Raise e.
Proof.
  intros Hpre Hf. revert imgs acc_d acc_l Hpre.
  induction pre as [|g pre IH]; intros imgs acc_d acc_l Hpre.
  - cbn [app Training.load_non_cancer]. by rewrite Hf.
  - rewrite mapM_cons in Hpre. cbn [app Training.load_non_cancer].
    destruct (open_resize g) as [img|]; [|done]. cbn [mbind Py.result_bind] in *.
    destruct (mapM open_resize pre) as [imgs'|]; [|done].
    by apply (IH imgs').
Qed.

(** X22.  When a file of the non-cancer directory cannot be opened the
    script stops with that error at the first such file, whatever the
    table holds: no dataset is assembled from the files read so far. *)
Theorem assemble_stops_at_unreadable_file
    (pre post : list string) (f : string) (e : exn) (imgs : list image)
    (csv : list (image * nat)) (r : Training.rng) :
  mapM open_resize pre = Ok imgs →
  open_resize f = Raise e →
  Training.assemble open_resize (pre ++ f :: post) csv r = Raise e.
Proof.
  intros Hpre Hf. unfold Training.assemble.
  by rewrite (load_non_cancer_raises pre post f e imgs [] [] Hpre Hf).
Qed.

End DirectoryErrors.

Lemma assemble_stops_at_unreadable_file_witness :
  Training.assemble
    (fun name => if decide (name = "notes.txt")
                 then Raise (OSError "cannot identify image file")
                 else Examples.open_black name)
    (["a.jpg"] ++ "notes.txt" :: ["b.jpg"]) Examples.tiny_csv (fun _ => 0)
  = Raise (OSError "cannot identify image file").
Proof.
  apply (assemble_stops_at_unreadable_file _ ["a.jpg"] ["b.jpg"] "notes.txt" _
           [replicate Training.pixels_per_image 0%Z]).
  - reflexivity.
  - reflexivity.
Defined.

(** ** Shapes through the network *)

Section Shapes.

Lemma output_shape_conv (filters h w c : nat) :
  Summary.output_shape (Training.conv filters) [h; w; c] = Ok [h; w; filters].
Proof. reflexivity. Qed.

Lemma output_shape_pool (h w c : nat) :
  Summary.output_shape Training.MaxPooling2D [h; w; c]
  = h' ← Summary.pool_extent h; w' ← Summary.pool_extent w; Ok [h'; w'; c].
Proof. reflexivity. Qed.

Lemma pool_extent_ok (n : nat) : 2 ≤ n → Summary.pool_extent n = Ok (n `div` 2).
Proof. intros Hn. unfold Summary.pool_extent. by rewrite decide_True. Qed.

Lemma half_bounds (n : nat) : 2 * (n `div` 2) ≤ n < 2 * (n `div` 2) + 2.
Proof.
  pose proof (Nat.div_mod_eq n 2). pose proof (Nat.mod_upper_bound n 2). lia.
Qed.

Local Ltac pool_case :=
  match goal with
  | |- context [Summary.pool_extent ?n] =>
      rewrite (pool_extent_ok n) by lia; cbn [mbind Py.result_bind]
  end.

Local Ltac shape_step :=
  cbn [Summary.shapes];
  first [rewrite output_shape_conv
        |rewrite output_shape_pool
        |cbn [Summary.output_shape reverse rev_append foldr]];
  cbn [mbind Py.result_bind]; repeat pool_case.

(** X23.  On an input at least 16 high and 16 wide, with any number of
    channels, the layers after the input layer fit together: the four
    poolings halve height and width down to h/16 x w/16 with 256 channels,
    and the output has one entry per class of the service. *)
Theorem model_shapes (h w c : nat) :
  16 ≤ h → 16 ≤ w →
  Summary.shapes (drop 1 Training.model) [h; w; c]
  = Ok [ [h; w; 32]; [h `div` 2; w `div` 2; 32]; [h `div` 2; w `div` 2; 32];
         [h `div` 2; w `div` 2; 64]; [h `div` 2; w `div` 2; 64];
         [h `div` 4; w `div` 4; 64]; [h `div` 4; w `div` 4; 64];
         [h `div` 4; w `div` 4; 128]; [h `div` 4; w `div` 4; 128];
         [h `div` 8; w `div` 8; 128]; [h `div` 8; w `div` 8; 128];
         [h `div` 8; w `div` 8; 256]; [h `div` 8; w `div` 8; 256];
         [h `div` 16; w `div` 16; 256];
         [h `div` 16 * (w `div` 16 * (256 * 1))];
         [h `div` 16 * (w `div` 16 * (256 * 1))];
         [256]; [256]; [128]; [128]; [64]; [64]; [32]; [32];
         [size Api.CANCER_CLASSES] ].
Proof.
  intros Hh Hw.
  rewrite <- !(Nat.Div0.div_div _ 2 8), <- !(Nat.Div0.div_div _ 2 4),
    <- !(Nat.Div0.div_div _ 2 2).
  pose proof (half_bounds h). pose proof (half_bounds (h `div` 2)).
  pose proof (half_bounds ((h `div` 2) `div` 2)).
  pose proof (half_bounds w). pose proof (half_bounds (w `div` 2)).
  pose proof (half_bounds ((w `div` 2) `div` 2)).
  unfold Training.model, Training.add. cbn [foldl app drop].
  do 25 shape_step. reflexivity.
Qed.

End Shapes.

Lemma model_shapes_witness :
  Summary.shapes (drop 1 Training.model) [Api.IMG_HEIGHT; Api.IMG_WIDTH; 3]
  = Ok [ [28; 28; 32]; [14; 14; 32]; [14; 14; 32]; [14; 14; 64]; [14; 14; 64];
         [7; 7; 64]; [7; 7; 64]; [7; 7; 128]; [7; 7; 128];
         [3; 3; 128]; [3; 3; 128]; [3; 3; 256]; [3; 3; 256];
         [1; 1; 256]; [256]; [256];
         [256]; [256]; [128]; [128]; [64]; [64]; [32]; [32]; [8] ].
Proof.
  apply (model_shapes Api.IMG_HEIGHT Api.IMG_WIDTH 3).
  - unfold Api.IMG_HEIGHT. lia.
  - unfold Api.IMG_WIDTH. lia.
Defined.

(** ** The answers of the analyze operation *)

Section AnalyzeAnswers.

Variable secure_filename : string → string.
Variable load_img : string → nat * nat → result image.

Local Abbreviation analyze := (Api.analyze secure_filename load_img).

(** X24.  [analyze] answers 200, 400, 500 or 503 and nothing else: 503
    exactly when no model is loaded, 200 exactly when the body carries an
    analysis, and then a prediction was run; a 400 or 503 answer leaves
    the process state as it was; and no request changes the loaded model
    or rewrites the effects already performed. *)
Theorem analyze_answers (files : gmap string Api.upload)
    (uuid4 now upload_now : string) (st : Api.state) :
  ∃ r st',
    analyze files uuid4 now upload_now st = (r, st')
    ∧ Api.status_code r ∈ [200; 400; 500; 503]
    ∧ (Api.status_code r = 503 ↔ Api.model st = None)
    ∧ (Api.status_code r = 200 ↔ is_analysis r = true)
    ∧ (Api.status_code r = 200 → Api.EvPredict ∈ Api.trace st')
    ∧ (Api.status_code r = 400 ∨ Api.status_code r = 503 → st' = st)
    ∧ Api.model st' = Api.model st
    ∧ Api.trace st `prefix_of` Api.trace st'.
Proof.
  unfold Api.analyze.
  destruct (Api.model st) as [m|] eqn:Hm.
  2:{ eexists _, _. split; [reflexivity|]. cbn [Api.bad Api.status_code Api.payload].
      split; [repeat (first [apply list_elem_of_here | apply list_elem_of_further])|].
      repeat split; try done; intros; lia. }
  assert (∀ code msg, code = 400 ∨ code = 500 → ∃ r st',
    (Api.bad code msg, st) = (r, st')
    ∧ Api.status_code r ∈ [200; 400; 500; 503]
    ∧ (Api.status_code r = 503 ↔ Some m = None)
    ∧ (Api.status_code r = 200 ↔ is_analysis r = true)
    ∧ (Api.status_code r = 200 → Api.EvPredict ∈ Api.trace st')
    ∧ (Api.status_code r = 400 ∨ Api.status_code r = 503 → st' = st)
    ∧ Api.model st' = Some m
    ∧ Api.trace st `prefix_of` Api.trace st') as Hbad.
  { intros code msg Hcode. eexists _, _. split; [reflexivity|].
    cbn [Api.bad Api.status_code Api.payload].
    split; [destruct Hcode as [-> | ->];
            repeat (first [apply list_elem_of_here | apply list_elem_of_further])|].
    destruct Hcode as [-> | ->]; repeat split; try done; intros; lia. }
  destruct (files !! "file") as [file|]; [|apply Hbad; by left].
  destruct (decide (Api.filename file = "")); [apply Hbad; by left|].
  destruct (Api.allowed_file (Api.filename file)) as [[]|e];
    [|apply Hbad; by left|apply Hbad; by right].
  destruct (Api.generate_unique_filename (secure_filename (Api.filename file))
              uuid4 now) as [unique|e]; [|apply Hbad; by right].
  unfold Api.analyze_image.
  match goal with |- context [Api.analyze_image_try ?a ?b ?c] =>
    destruct (Api.analyze_image_try a b c) as [p|e] end.
  - eexists _, _. split; [reflexivity|]. cbn [Api.status_code Api.payload].
    split; [repeat (first [apply list_elem_of_here | apply list_elem_of_further])|].
    split; [split; [lia|congruence]|].
    split; [done|]. split.
    { intros _. cbn [Api.emit Api.trace]. apply elem_of_app. right.
      apply list_elem_of_here. }
    split; [intros [?|?]; lia|].
    split; [done|]. cbn [Api.emit Api.write_file Api.trace].
    by repeat apply prefix_app_r.
  - cbn [Api.emit Api.write_file Api.uploads]. rewrite lookup_insert_eq.
    eexists _, _. split; [reflexivity|]. cbn [Api.bad Api.status_code Api.payload].
    split; [repeat (first [apply list_elem_of_here | apply list_elem_of_further])|].
    split; [split; [lia|congruence]|].
    split; [split; [lia|done]|]. split; [lia|].
    split; [intros [?|?]; lia|].
    split; [done|]. cbn [Api.remove_file Api.emit Api.write_file Api.trace].
    by repeat apply prefix_app_r.
Qed.

End AnalyzeAnswers.

(** ** What an analysis reports *)

Section AnalysisReport.

Variable load_img : string → nat * nat → result image.

Local Open Scope R_scope.

(** The prediction [analyze_image] builds for a stored upload that
    decodes, field by field. *)
Lemma analyze_image_try_value (st : Api.state) (path bytes : string) (img : image)
    (m : ModelArtifact) :
  Api.uploads st !! path = Some bytes →
  load_img bytes (Api.IMG_WIDTH, Api.IMG_HEIGHT) = Ok img →
  Api.model st = Some m →
  ∃ k mx probs info name,
    Api.analyze_image_try load_img st path
    = Ok {| Api.diagnosis_class := k;
            Api.diagnosis := name;
            Api.confidence := mx;
            Api.p_severity := Api.severity info;
            Api.p_description := Api.description info;
            Api.p_recommendation := Api.recommendation info;
            Api.probabilities := probs |}
    ∧ forward m (img_to_array img) !! k = Some mx
    ∧ (∀ y, y ∈ forward m (img_to_array img) → y <= mx)
    ∧ Api.CANCER_INFO !! k = Some info
    ∧ Api.CANCER_CLASSES !! k = Some name
    ∧ (k < 8)%nat.
Proof.
  intros Hup Himg Hm.
  destruct (forward_distribution m (img_to_array img)) as (Hlen & Hsum & Hpos).
  set (row := forward m (img_to_array img)) in *.
  assert (row ≠ []) as Hne by (intros E; by rewrite E in Hlen).
  destruct (argmax_amax row Hne) as (k & mx & Hk & Hmx & Hat & Hle & Hfirst).
  assert (k < 8)%nat as Hk8 by (apply lookup_lt_Some in Hat; lia).
  destruct (fill_probabilities_eight row Hlen) as (probs & Hfill & Hsize & Hnames).
  assert (∃ info name, Api.CANCER_INFO !! k = Some info
                       ∧ Api.CANCER_CLASSES !! k = Some name)
    as (info & name & Hinfo & Hname).
  { clear -Hk8.
    do 8 (destruct k as [|k]; [do 2 eexists; split; reflexivity|]). lia. }
  exists k, mx, probs, info, name. split; [|done].
  unfold Api.analyze_image_try. rewrite Hup, Hm.
  cbn [from_option mbind Py.result_bind]. rewrite Himg.
  cbn [mbind Py.result_bind]. rewrite (predict_preprocess m img).
  fold row. cbn [concat]. rewrite app_nil_r, Hk.
  cbn [mbind Py.result_bind]. rewrite Hmx.
  cbn [mbind Py.result_bind index lookup list_lookup]. rewrite Hfill.
  cbn [mbind Py.result_bind]. unfold Api.getitem. rewrite Hinfo.
  cbn [mbind Py.result_bind]. by rewrite Hname.
Qed.

Lemma sum_le_bound (l : list R) (mx : R) :
  (∀ y, y ∈ l → y <= mx) → Np.sum l <= INR (length l) * mx.
Proof.
  induction l as [|x l IH]; intros Hle.
  - unfold Np.sum. cbn [foldr length INR]. lra.
  - rewrite sum_cons. cbn [length]. rewrite S_INR.
    assert (x <= mx) by (apply Hle; left).
    assert (Np.sum l <= INR (length l) * mx)
      by (apply IH; intros y Hy; apply Hle; by right).
    lra.
Qed.

Lemma sum_nonneg (l : list R) : Forall (fun p => 0 < p) l → 0 <= Np.sum l.
Proof.
  induction 1 as [|y l Hy _ IH]; [unfold Np.sum; cbn [foldr]; lra|].
  rewrite sum_cons. lra.
Qed.

Lemma entry_le_sum (l : list R) (k : nat) (x : R) :
  Forall (fun p => 0 < p) l → l !! k = Some x → x <= Np.sum l.
Proof.
  intros Hpos. revert k. induction Hpos as [|y l Hy Hpos IH]; intros k Hk; [done|].
  rewrite sum_cons. pose proof (sum_nonneg l Hpos).
  destruct k as [|k].
  - injection Hk as ->. lra.
  - specialize (IH k Hk). lra.
Qed.

(** X25.  A stored upload that decodes is analysed with a confidence of
    at least one eighth and at most one; the class id is below 8, and the
    class name and the severity, description and recommendation reported
    are exactly those the info operation lists under that id. *)
Theorem analysis_matches_info (st : Api.state) (path bytes : string) (img : image)
    (m : ModelArtifact) :
  Api.uploads st !! path = Some bytes →
  load_img bytes (Api.IMG_WIDTH, Api.IMG_HEIGHT) = Ok img →
  Api.model st = Some m →
  ∃ p entries info,
    Api.analyze_image_try load_img st path = Ok p
    ∧ 1 / 8 <= Api.confidence p <= 1
    ∧ (Api.diagnosis_class p < 8)%nat
    ∧ Api.get_info st
      = ({| Api.status_code := 200; Api.payload := Api.JsonInfo entries |}, st)
    ∧ entries.*1.*1 = seq 0 8
    ∧ (Api.diagnosis_class p, Api.diagnosis p, info) ∈ entries
    ∧ Api.p_severity p = Api.severity info
    ∧ Api.p_description p = Api.description info
    ∧ Api.p_recommendation p = Api.recommendation info.
Proof.
  intros Hup Himg Hm.
  destruct (analyze_image_try_value st path bytes img m Hup Himg Hm)
    as (k & mx & probs & info & name & Hp & Hat & Hle & Hinfo & Hname & Hk).
  destruct (forward_distribution m (img_to_array img)) as (Hlen & Hsum & Hpos).
  eexists _, _, info. split; [exact Hp|].
  cbn [Api.confidence Api.diagnosis_class Api.diagnosis Api.p_severity
       Api.p_description Api.p_recommendation].
  split.
  { pose proof (sum_le_bound _ mx Hle) as Hb. rewrite Hlen, Hsum in Hb.
    pose proof (entry_le_sum _ k mx Hpos Hat) as Hs. rewrite Hsum in Hs.
    change (INR 8) with (INR 7 + 1) in Hb.
    cbn [INR] in Hb. lra. }
  split; [done|]. split; [reflexivity|]. split; [reflexivity|].
  split; [|done].
  clear -Hinfo Hname Hk.
  do 8 (destruct k as [|k];
        [injection Hinfo as <-; injection Hname as <-;
         repeat (first [apply list_elem_of_here | apply list_elem_of_further])|]).
  lia.
Qed.

End AnalysisReport.

Lemma analysis_matches_info_witness :
  ∃ (p : Api.prediction) (entries : list (nat * string * Api.class_info))
    (info : Api.class_info),
    Api.analyze_image_try Examples.black_pixel
      {| Api.model := Some Examples.flat_model;
         Api.uploads := {[ "scan.png" := "bytes" ]};
         Api.trace := [] |} "scan.png" = Ok p
    ∧ (1 / 8 <= Api.confidence p <= 1)%R
    ∧ (Api.diagnosis_class p, Api.diagnosis p, info) ∈ entries
    ∧ Api.p_severity p = Api.severity info.
Proof.
  destruct (analysis_matches_info Examples.black_pixel
              {| Api.model := Some Examples.flat_model;
                 Api.uploads := {[ "scan.png" := "bytes" ]};
                 Api.trace := [] |} "scan.png" "bytes" [0%Z; 0%Z; 0%Z]
              Examples.flat_model)
    as (p & entries & info & Hp & Hconf & _ & _ & _ & Hin & Hsev & _).
  - reflexivity.
  - reflexivity.
  - reflexivity.
  - exists p, entries, info.
    split; [exact Hp|]. split; [exact Hconf|]. split; [exact Hin|exact Hsev].
Defined.
